(** * Package Stalker: the status normalizer, the resolver, the repository
    and the analytics aggregator, embedded from the TypeScript sources.

  Layout, following the source tree:
  - [JS]             the fragment of the JavaScript platform the services
                     call (values, truthiness, binary64 numbers,
                     [Math.round], string helpers);
  - [Platform]       the platform functions taken as parameters (locale and
                     time-zone dependent ones, the JSON codec, the [Date]
                     constructor); [RefPlatform] is an executable instance;
  - [Domain]         src/domain/types.ts;
  - [StatusMapping]  services/track123.service.ts, [mapTrack123Status];
  - [Track123]       services/track123.service.ts, [Track123Service];
  - [ResolverSpec]   the resolver's result as the specification words it;
  - [Storage]        services/storage.service.ts, [LocalStorageService];
  - [Analytics]      services/storage.service.ts, [AnalyticsService];
  - [AggregatorSpec] the aggregator as the specification words it, and
                     the loop of the code in closed form;
  - [Samples]        concrete trackings and gateways;
  - [Repository]     services/storage.service.ts, the rest of
                     [LocalStorageService] (lookup, delete, update);
  - [AnalyticsService] services/storage.service.ts,
                     [getTotalPackagesThisMonth];
  - [Carriers], [Factory] services/track123.service.ts, [getCarriers], the
                     mock service and [createTrackingService];
  - [App]            App.tsx, [handleTrack] and [handleDelete];
  - [Components]     what the dashboard, the timeline and the card compute.
  The facts about each component follow the definitions. *)

From Stdlib Require Import ZArith Floats String Ascii List Bool Lia Sorted.
From Stdlib Require Import DecimalString DecimalPos DecimalZ.
From stdpp Require Import base option list strings gmap.

Set Warnings "-register-all".
Local Open Scope string_scope.

(* ===================================================================== *)
(** * The JavaScript fragment *)
(* ===================================================================== *)

Module JS.

(** A [Date] object holds a time value: milliseconds since the epoch, or
    NaN for an invalid date. *)
Inductive Date : Type :=
| ValidDate (t : Z)
| InvalidDate.

(** Run-time values.  A [number] is an IEEE binary64; objects are kept as
    the ordered list of their own properties. *)
Inductive value : Type :=
| VUndef
| VNull
| VBool (b : bool)
| VNum (n : float)
| VStr (s : string)
| VDate (d : Date)
| VArr (items : list value)
| VObj (props : list (string * value)).

(** ** Numbers *)

Definition is_nan (x : float) : bool := negb (PrimFloat.eqb x x).

(** [ToBoolean] on a number: [0], [-0] and [NaN] are falsy. *)
Definition num_truthy (x : float) : bool :=
  negb (PrimFloat.eqb x 0%float || is_nan x).

(** [ToBoolean] on a string: only the empty string is falsy. *)
Definition str_truthy (s : string) : bool :=
  match s with EmptyString => false | String _ _ => true end.

Definition truthy (v : value) : bool :=
  match v with
  | VUndef | VNull => false
  | VBool b => b
  | VNum n => num_truthy n
  | VStr s => str_truthy s
  | VDate _ | VArr _ | VObj _ => true
  end.

(** An integer below 2^63 in absolute value as a number: exact below 2^53,
    to nearest beyond.  Array lengths and counters stay below 2^32. *)
Definition Z2F (z : Z) : float :=
  if (z <? 0)%Z
  then PrimFloat.opp (PrimFloat.of_uint63 (Uint63.of_Z (- z)))
  else PrimFloat.of_uint63 (Uint63.of_Z z).

Definition nat2F (n : nat) : float := Z2F (Z.of_nat n).

(** [Math.round]: the integral number closest to [x], ties towards
    +infinity; NaN, infinities, zeros and integral values are returned as
    they are.  For a finite [x = (-1)^s * m * 2^e] with [e < 0] the result
    is [floor (x + 1/2)], computed exactly on the integers. *)
Definition Math_round (x : float) : float :=
  match Prim2SF x with
  | S754_finite s m e =>
      if (0 <=? e)%Z then x
      else
        let d := (2 ^ (- e))%Z in
        let n := ((2 * (if s then Z.neg m else Z.pos m) + d) / (2 * d))%Z in
        if ((n =? 0)%Z && s)%bool then PrimFloat.opp 0%float else Z2F n
  | _ => x
  end.

(** ** Strings *)

(** [String(n)] for an integral number. *)
Definition Z_toString (z : Z) : string :=
  NilZero.string_of_int (Z.to_int z).

(** [String(n)] for a number that may be NaN ([None]). *)
Definition num_toString (n : option Z) : string :=
  match n with
  | Some z => Z_toString z
  | None => "NaN"
  end.

Fixpoint repeat_char (c : ascii) (n : nat) : string :=
  match n with
  | O => EmptyString
  | S k => String c (repeat_char c k)
  end.

(** [s.padStart(n, c)] for a one-character filler. *)
Definition padStart (n : nat) (c : ascii) (s : string) : string :=
  repeat_char c (n - String.length s) +:+ s.

Definition is_lower (c : ascii) : bool :=
  let n := nat_of_ascii c in (97 <=? n)%nat && (n <=? 122)%nat.

Definition is_ascii (c : ascii) : bool := (nat_of_ascii c <? 128)%nat.

Definition upper_char (c : ascii) : ascii :=
  if is_lower c then ascii_of_nat (nat_of_ascii c - 32) else c.

(** Upper-casing of the ASCII letters of a string. *)
Fixpoint ascii_upper (s : string) : string :=
  match s with
  | EmptyString => EmptyString
  | String c r => String (upper_char c) (ascii_upper r)
  end.

Fixpoint string_forallb (p : ascii -> bool) (s : string) : bool :=
  match s with
  | EmptyString => true
  | String c r => p c && string_forallb p r
  end.

(** ** Property access *)

Fixpoint assoc_get {A} (k : string) (l : list (string * A)) : option A :=
  match l with
  | [] => None
  | (k', v) :: r => if String.eqb k k' then Some v else assoc_get k r
  end.

(** [v.name] for a property name that no prototype defines: a TypeError
    ([None]) on [undefined] and [null], the own property of an object, and
    [undefined] on everything else. *)
Definition get_prop (name : string) (v : value) : option value :=
  match v with
  | VUndef | VNull => None
  | VObj props => Some (default VUndef (assoc_get name props))
  | _ => Some VUndef
  end.

(** [a === b] where [a] was freshly created (parsed or rehydrated): two
    objects, arrays or dates are then never the same reference. *)
Definition strict_equals (a b : value) : bool :=
  match a, b with
  | VUndef, VUndef | VNull, VNull => true
  | VBool x, VBool y => Bool.eqb x y
  | VNum x, VNum y => PrimFloat.eqb x y
  | VStr x, VStr y => String.eqb x y
  | _, _ => false
  end.

End JS.
Export JS.

(* ===================================================================== *)
(** * Platform functions taken as parameters *)
(* ===================================================================== *)

(** What the services call but the repository does not define, and whose
  result depends on the host (locale, time zone, engine). *)
Class Platform : Type := {
(** [String.prototype.toUpperCase] *)
toUpperCase : string -> string;
(** [Date.prototype.getFullYear], local time; [None] is NaN *)
Date_getFullYear : Date -> option Z;
(** [Date.prototype.getMonth], local time, 0-based; [None] is NaN *)
Date_getMonth : Date -> option nat;
(** [new Date(v)] *)
Date_new : value -> Date;
(** [Date.prototype.toISOString] of a valid time value *)
Date_toISOString : Z -> string;
(** [JSON.parse]; [None] is a SyntaxError *)
JSON_parse : string -> option value;
(** [JSON.stringify] of an array *)
JSON_stringify : value -> string;
}.

(** The value [JSON.parse (JSON.stringify v)] denotes: dates become their
    ISO string (null when invalid), non-finite numbers null, [-0] becomes
    [0], an [undefined] array element null, and an [undefined] property is
    left out. *)
Definition jsonify_num (n : float) : value :=
  match Prim2SF n with
  | S754_finite _ _ _ => VNum n
  | S754_zero _ => VNum 0%float
  | _ => VNull
  end.

Definition jsonify_date (iso : Z -> string) (d : Date) : value :=
  match d with
  | ValidDate t => VStr (iso t)
  | InvalidDate => VNull
  end.

(** The properties of an object that are written: those that are not
    [undefined], each with its value converted by [f]. *)
Definition jsonify_props (f : value -> value)
  : list (string * value) -> list (string * value) :=
  fix go (l : list (string * value)) : list (string * value) :=
    match l with
    | [] => []
    | (k, VUndef) :: r => go r
    | (k, x) :: r => (k, f x) :: go r
    end.

Fixpoint jsonify_with (iso : Z -> string) (v : value) : value :=
  match v with
  | VUndef => VNull
  | VNull => VNull
  | VBool b => VBool b
  | VNum n => jsonify_num n
  | VStr s => VStr s
  | VDate d => jsonify_date iso d
  | VArr items => VArr (map (jsonify_with iso) items)
  | VObj props => VObj (jsonify_props (jsonify_with iso) props)
  end.

Definition jsonify `{Platform} (v : value) : value :=
  jsonify_with Date_toISOString v.

(* ===================================================================== *)
(** * src/domain/types.ts *)
(* ===================================================================== *)

Module Domain.

Inductive DeliveryStatus : Type :=
| pending
| info_received
| in_transit
| out_for_delivery
| delivered
| exception
| failed_attempt
| expired
| unknown.

#[export] Instance DeliveryStatus_eq_dec : EqDecision DeliveryStatus.
Proof. solve_decision. Defined.

(** The string each member of the union type is at run time. *)
Definition status_name (s : DeliveryStatus) : string :=
  match s with
  | pending => "pending"
  | info_received => "info_received"
  | in_transit => "in_transit"
  | out_for_delivery => "out_for_delivery"
  | delivered => "delivered"
  | exception => "exception"
  | failed_attempt => "failed_attempt"
  | expired => "expired"
  | unknown => "unknown"
  end.

Definition all_statuses : list DeliveryStatus :=
  [pending; info_received; in_transit; out_for_delivery; delivered;
   exception; failed_attempt; expired; unknown].

Definition status_of_name (s : string) : option DeliveryStatus :=
  List.find (fun d => String.eqb (status_name d) s) all_statuses.

Module Carrier.
Record t : Type := mk {
  code : string;
  name : string;
  logo : option string;
  trackingUrl : option string;
}.
End Carrier.

Module TrackingEvent.
Record t : Type := mk {
  timestamp : Date;
  location : string;
  description : string;
  status : DeliveryStatus;
}.
End TrackingEvent.

Module Tracking.
Record t : Type := mk {
  id : string;
  trackingNumber : string;
  nickname : string;
  carrier : Carrier.t;
  status : DeliveryStatus;
  events : list TrackingEvent.t;
  estimatedDelivery : option Date;
  transitDays : option float;
  createdAt : Date;
  updatedAt : Date;
}.
End Tracking.

(** The argument object of [createTracking]. *)
Module CreateParams.
Record t : Type := mk {
  trackingNumber : string;
  nickname : option string;
  carrier : Carrier.t;
  status : option DeliveryStatus;
  events : option (list TrackingEvent.t);
  transitDays : option float;
}.
End CreateParams.

(** [a || b] on an optional string. *)
Definition or_str (a : option string) (b : string) : string :=
  match a with
  | Some s => if str_truthy s then s else b
  | None => b
  end.

(** [createTracking]; [uuid] is what [crypto.randomUUID()] returned and
    [now] what [new Date()] returned. *)
Definition createTracking (uuid : string) (now : Date) (params : CreateParams.t)
  : Tracking.t :=
  {| Tracking.id := uuid;
     Tracking.trackingNumber := CreateParams.trackingNumber params;
     Tracking.nickname :=
       or_str (CreateParams.nickname params)
         (CreateParams.trackingNumber params);
     Tracking.carrier := CreateParams.carrier params;
     Tracking.status := default pending (CreateParams.status params);
     Tracking.events := default [] (CreateParams.events params);
     Tracking.estimatedDelivery := None;
     Tracking.transitDays := CreateParams.transitDays params;
     Tracking.createdAt := now;
     Tracking.updatedAt := now |}.

Module MonthlyStats.
Record t : Type := mk {
  month : string;
  totalPackages : nat;
  delivered : nat;
  inTransit : nat;
}.
End MonthlyStats.

Module CourierDistribution.
Record t : Type := mk {
  carrierCode : string;
  carrierName : string;
  count : nat;
  percentage : float;
  avgTransitDays : option float;
}.
End CourierDistribution.

End Domain.
Export Domain.

(* ===================================================================== *)
(** * services/track123.service.ts: status mapping *)
(* ===================================================================== *)

Module StatusMapping.
Section WithPlatform.
Context `{Platform}.

(** The object literal [statusMap]. *)
Definition statusMap : gmap string DeliveryStatus :=
  list_to_map
    [("PENDING", pending);
     ("NO_FOUND", pending);
     ("INFO_RECEIVED", info_received);
     ("IN_TRANSIT", in_transit);
     ("OUT_FOR_DELIVERY", out_for_delivery);
     ("DELIVERED", delivered);
     ("EXCEPTION", exception);
     ("FAILED_ATTEMPT", failed_attempt);
     ("EXPIRED", expired)].

(** [statusMap[k]] also finds what the literal inherits from
    [Object.prototype].  Each of these names has a lower-case letter, which
    an upper-cased key never has ([upper_key_not_inherited] below), so the
    lookup of [mapTrack123Status] is decided by the own properties. *)
Definition Object_prototype_members : list string :=
  ["constructor"; "__defineGetter__"; "__defineSetter__"; "hasOwnProperty";
   "__lookupGetter__"; "__lookupSetter__"; "isPrototypeOf";
   "propertyIsEnumerable"; "toString"; "valueOf"; "__proto__";
   "toLocaleString"].

Definition mapTrack123Status (status : option string) : DeliveryStatus :=
  match status with
  | None => pending
  | Some s =>
      if str_truthy s
      then default unknown (statusMap !! toUpperCase s)
      else pending
  end.

End WithPlatform.

(** The normalizer as section 4.1 of the specification words it, on the
    upper-cased input. *)
Definition table_value (upper : string) : DeliveryStatus :=
  if String.eqb upper "PENDING" then pending
  else if String.eqb upper "NO_FOUND" then pending
  else if String.eqb upper "INFO_RECEIVED" then info_received
  else if String.eqb upper "IN_TRANSIT" then in_transit
  else if String.eqb upper "OUT_FOR_DELIVERY" then out_for_delivery
  else if String.eqb upper "DELIVERED" then delivered
  else if String.eqb upper "EXCEPTION" then exception
  else if String.eqb upper "FAILED_ATTEMPT" then failed_attempt
  else if String.eqb upper "EXPIRED" then expired
  else unknown.

Definition table_keys : list string :=
  ["PENDING"; "NO_FOUND"; "INFO_RECEIVED"; "IN_TRANSIT"; "OUT_FOR_DELIVERY";
   "DELIVERED"; "EXCEPTION"; "FAILED_ATTEMPT"; "EXPIRED"].

End StatusMapping.
Export StatusMapping.

(* ===================================================================== *)
(** * services/track123.service.ts: the gateway client *)
(* ===================================================================== *)

Module Track123.

(** ** Response types (Gateway v2.1) *)

Module TrackingDetail.
Record t : Type := mk {
  eventTime : string;
  eventDetail : string;
  location : option string;
  transitSubStatus : option string;
}.
End TrackingDetail.

Module LocalLogisticsInfo.
Record t : Type := mk {
  courierCode : string;
  courierNameEN : string;
  trackingDetails : option (list TrackingDetail.t);
}.
End LocalLogisticsInfo.

Module TrackingContent.
Record t : Type := mk {
  trackNo : string;
  transitStatus : string;
  transitDays : option float;
  localLogisticsInfo : option LocalLogisticsInfo.t;
}.
End TrackingContent.

Module Accepted.
Record t : Type := mk { content : option (list TrackingContent.t) }.
End Accepted.

Module QueryResponseData.
Record t : Type := mk { accepted : option Accepted.t }.
End QueryResponseData.

Module BaseResponse.
Record t (T : Type) : Type := mk {
  code : string;
  msg : option string;
  data : option T;
}.
Arguments mk {T} _ _ _.
Arguments code {T} _.
Arguments msg {T} _.
Arguments data {T} _.
End BaseResponse.

(** ** Effects: a trace of outbound calls, exceptions, and the two sources
    of fresh values [createTracking] reads *)

Inductive Error : Type := mkError (message : string).

Inductive Result (A : Type) : Type :=
| Ok (a : A)
| Throw (e : Error).
Arguments Ok {A} a.
Arguments Throw {A} e.

(** What leaves the process: a request (endpoint, method, the tracking
    numbers its body carries) or a timer. *)
Inductive Event : Type :=
| EvRequest (endpoint : string) (method : string) (trackNos : list string)
| EvTimeout (ms : Z).

(** What [fetch] followed by [response.json()] produced. *)
Inductive HttpResult (T : Type) : Type :=
| Rejected (message : string)
| Response (status : Z) (body : BaseResponse.t T).
Arguments Rejected {T} message.
Arguments Response {T} status body.

(** The environment of the service: the gateway's answer to each request
    given everything sent before, and the values of [crypto.randomUUID()]
    and [new Date()] at the n-th [createTracking]. *)
Record Gateway : Type := mkGateway {
  import_response : list Event -> string -> HttpResult unit;
  query_response : list Event -> list string -> HttpResult QueryResponseData.t;
  uuid_at : nat -> string;
  now_at : nat -> Date;
}.

Record World : Type := mkWorld {
  trace : list Event;
  created : nat;
}.

Definition M (A : Type) : Type := World -> Result A * World.

#[export] Instance M_ret : MRet M := fun A a w => (Ok a, w).
#[export] Instance M_bind : MBind M := fun A B f m w =>
  match m w with
  | (Ok a, w') => f a w'
  | (Throw e, w') => (Throw e, w')
  end.

Definition throw {A} (e : Error) : M A := fun w => (Throw e, w).

(** [try { body } catch (e) { handler e }] *)
Definition try_catch {A} (body : M A) (handler : Error -> M A) : M A :=
  fun w =>
    match body w with
    | (Ok a, w') => (Ok a, w')
    | (Throw e, w') => handler e w'
    end.

(** The world after one more outbound call. *)
Definition logged (ev : Event) (w : World) : World :=
  {| trace := trace w ++ [ev]; created := created w |}.

Definition emit (ev : Event) : M unit := fun w => (Ok tt, logged ev w).

(** The request [getTrackings] sends. *)
Definition query_event (trackingNumbers : list string) : Event :=
  EvRequest "/track/query" "POST" trackingNumbers.

(** The request [registerTracking] sends. *)
Definition import_event (trackingNumber : string) : Event :=
  EvRequest "/track/import" "POST" [trackingNumber].

Definition history : M (list Event) := fun w => (Ok (trace w), w).

Definition fresh : M nat :=
  fun w => (Ok (created w), {| trace := trace w; created := S (created w) |}).

Fixpoint mapM {A B} (f : A -> M B) (l : list A) : M (list B) :=
  match l with
  | [] => mret []
  | x :: r => y ← f x; ys ← mapM f r; mret (y :: ys)
  end.

Definition response_ok (status : Z) : bool :=
  ((200 <=? status) && (status <=? 299))%Z.

Section Service.
Context `{Platform} (G : Gateway).

(** [this.request]: the answer is looked up against the calls made so far,
    the call is recorded, and a rejected [fetch] or a non-2xx status
    throws. *)
Definition request {T} (answer : list Event -> HttpResult T) (ev : Event)
  : M (BaseResponse.t T) :=
  past ← history;
  _ ← emit ev;
  match answer past with
  | Rejected message => throw (mkError message)
  | Response status body =>
      if response_ok status then mret body
      else throw (mkError ("API request failed: " +:+ Z_toString status))
  end.

Definition registerTracking (trackingNumber : string) : M unit :=
  response ← request (fun past => import_response G past trackingNumber)
                     (import_event trackingNumber);
  if negb (String.eqb (BaseResponse.code response) "00000")
  then throw (mkError (or_str (BaseResponse.msg response)
                              "Failed to register tracking"))
  else mret tt.

(** The body of [mapToTracking], given what [crypto.randomUUID()] and
    [new Date()] return inside [createTracking]. *)
Definition mapToTracking_with (uuid : string) (now : Date)
  (data : TrackingContent.t) : Tracking.t :=
  let logistic := TrackingContent.localLogisticsInfo data in
  let carrier :=
    {| Carrier.code :=
         or_str (LocalLogisticsInfo.courierCode <$> logistic) "unknown";
       Carrier.name :=
         or_str (LocalLogisticsInfo.courierNameEN <$> logistic)
           (or_str (LocalLogisticsInfo.courierCode <$> logistic) "Unknown");
       Carrier.logo := None;
       Carrier.trackingUrl := None |} in
  let status := mapTrack123Status (Some (TrackingContent.transitStatus data)) in
  let events :=
    map (fun evt =>
           {| TrackingEvent.timestamp :=
                Date_new (VStr (TrackingDetail.eventTime evt));
              TrackingEvent.location :=
                or_str (TrackingDetail.location evt) "";
              TrackingEvent.description := TrackingDetail.eventDetail evt;
              TrackingEvent.status :=
                mapTrack123Status (TrackingDetail.transitSubStatus evt) |})
        (default [] (logistic ≫= LocalLogisticsInfo.trackingDetails)) in
  createTracking uuid now
    {| CreateParams.trackingNumber := TrackingContent.trackNo data;
       CreateParams.nickname := Some (TrackingContent.trackNo data);
       CreateParams.carrier := carrier;
       CreateParams.status := Some status;
       CreateParams.events := Some events;
       CreateParams.transitDays := TrackingContent.transitDays data |}.

Definition mapToTracking (data : TrackingContent.t) : M Tracking.t :=
  n ← fresh;
  mret (mapToTracking_with (uuid_at G n) (now_at G n) data).

(** [response.data?.accepted?.content] *)
Definition response_content (response : BaseResponse.t QueryResponseData.t)
  : option (list TrackingContent.t) :=
  accepted ← BaseResponse.data response ≫= QueryResponseData.accepted;
  Accepted.content accepted.

Definition getTrackings (trackingNumbers : list string) : M (list Tracking.t) :=
  response ← request (fun past => query_response G past trackingNumbers)
                     (query_event trackingNumbers);
  if negb (String.eqb (BaseResponse.code response) "00000") then mret []
  else
    match response_content response with
    | None => mret []
    | Some content => mapM mapToTracking content
    end.

(** [nickname ? { ...t, nickname } : t] *)
Definition with_nickname (nickname : option string) (t : Tracking.t)
  : Tracking.t :=
  match nickname with
  | Some n =>
      if str_truthy n then
        {| Tracking.id := Tracking.id t;
           Tracking.trackingNumber := Tracking.trackingNumber t;
           Tracking.nickname := n;
           Tracking.carrier := Tracking.carrier t;
           Tracking.status := Tracking.status t;
           Tracking.events := Tracking.events t;
           Tracking.estimatedDelivery := Tracking.estimatedDelivery t;
           Tracking.transitDays := Tracking.transitDays t;
           Tracking.createdAt := Tracking.createdAt t;
           Tracking.updatedAt := Tracking.updatedAt t |}
      else t
  | None => t
  end.

Definition instantTrack (trackingNumber : string) (nickname : option string)
  : M Tracking.t :=
  trackings ← getTrackings [trackingNumber];
  trackings ←
    (if (length trackings =? 0)%nat then
       try_catch
         (_ ← registerTracking trackingNumber;
          _ ← emit (EvTimeout 500);
          getTrackings [trackingNumber])
         (fun e => mret trackings)
     else mret trackings);
  match trackings with
  | t :: _ => mret (with_nickname nickname t)
  | [] => throw (mkError "Tracking info not found")
  end.

End Service.

(** ** Reading a trace *)

Definition is_query (ev : Event) : bool :=
  match ev with
  | EvRequest endpoint _ _ => String.eqb endpoint "/track/query"
  | _ => false
  end.

Definition is_registration (ev : Event) : bool :=
  match ev with
  | EvRequest endpoint _ _ => String.eqb endpoint "/track/import"
  | _ => false
  end.

Definition is_wait (ev : Event) : bool :=
  match ev with
  | EvTimeout _ => true
  | _ => false
  end.

(** The gateway "reports no match": [getTrackings] comes back empty. *)
Definition no_match (r : HttpResult QueryResponseData.t) : Prop :=
  match r with
  | Rejected _ => False
  | Response status body =>
      response_ok status = true /\
      (BaseResponse.code body <> "00000" \/
       response_content body = None \/
       response_content body = Some [])
  end.

(** The gateway "reports matches": a success code with non-empty content. *)
Definition matches (r : HttpResult QueryResponseData.t)
  (c : TrackingContent.t) (cs : list TrackingContent.t) : Prop :=
  match r with
  | Rejected _ => False
  | Response status body =>
      response_ok status = true /\
      BaseResponse.code body = "00000" /\
      response_content body = Some (c :: cs)
  end.

(** Registration went through: a 2xx answer carrying the success code. *)
Definition registered (r : HttpResult unit) : Prop :=
  match r with
  | Rejected _ => False
  | Response status body =>
      response_ok status = true /\ BaseResponse.code body = "00000"
  end.

(** Registration failed: [fetch] rejected, a non-2xx status, or a code other
    than the success sentinel. *)
Definition registration_failed (r : HttpResult unit) : Prop :=
  match r with
  | Rejected _ => True
  | Response status body =>
      response_ok status = false \/ BaseResponse.code body <> "00000"
  end.

End Track123.

(* ===================================================================== *)
(** * The resolver's result, as the specification words it *)
(* ===================================================================== *)

Module ResolverSpec.
Import Track123.
Section WithPlatform.
Context `{Platform}.

(** The normalizer on a raw status, by the table of section 4.1: pending
    when absent or empty, else the table's value on the upper-cased
    input. *)
Definition normalized_status (raw : option string) : DeliveryStatus :=
  match raw with
  | None => pending
  | Some s => if decide (s = "") then pending else table_value (toUpperCase s)
  end.

(** The carrier of a match: the courier code and English name of its
    logistics information.  A missing or empty code reads "unknown"; a
    missing or empty name reads as the code, and as "Unknown" when the
    code is missing or empty too. *)
Definition carrier_of (c : TrackingContent.t) (carrier : Carrier.t) : Prop :=
  let code :=
    default "" (LocalLogisticsInfo.courierCode
                  <$> TrackingContent.localLogisticsInfo c) in
  let name :=
    default "" (LocalLogisticsInfo.courierNameEN
                  <$> TrackingContent.localLogisticsInfo c) in
  Carrier.code carrier = (if decide (code = "") then "unknown" else code) /\
  Carrier.name carrier
  = (if decide (name = "")
     then if decide (code = "") then "Unknown" else code
     else name) /\
  Carrier.logo carrier = None /\
  Carrier.trackingUrl carrier = None.

(** The event a tracking detail becomes. *)
Definition event_of (detail : TrackingDetail.t) (e : TrackingEvent.t)
  : Prop :=
  TrackingEvent.timestamp e
  = Date_new (VStr (TrackingDetail.eventTime detail)) /\
  TrackingEvent.location e = default "" (TrackingDetail.location detail) /\
  TrackingEvent.description e = TrackingDetail.eventDetail detail /\
  TrackingEvent.status e
  = normalized_status (TrackingDetail.transitSubStatus detail).

(** [t] is the match [c] normalized into a Tracking created with id
    [uuid] at [now], under the nickname override [nickname]: every field,
    one by one.  The nickname is the override when one is supplied and not
    empty, and the tracking number otherwise. *)
Definition normalizes (uuid : string) (now : Date) (c : TrackingContent.t)
  (nickname : option string) (t : Tracking.t) : Prop :=
  Tracking.id t = uuid /\
  Tracking.trackingNumber t = TrackingContent.trackNo c /\
  Tracking.nickname t
  = match nickname with
    | Some n => if decide (n = "") then TrackingContent.trackNo c else n
    | None => TrackingContent.trackNo c
    end /\
  carrier_of c (Tracking.carrier t) /\
  Tracking.status t
  = normalized_status (Some (TrackingContent.transitStatus c)) /\
  Forall2 event_of
    (default [] (TrackingContent.localLogisticsInfo c
                   ≫= LocalLogisticsInfo.trackingDetails))
    (Tracking.events t) /\
  Tracking.estimatedDelivery t = None /\
  Tracking.transitDays t = TrackingContent.transitDays c /\
  Tracking.createdAt t = now /\
  Tracking.updatedAt t = now.

End WithPlatform.
End ResolverSpec.

(* ===================================================================== *)
(** * services/storage.service.ts: LocalStorageService *)
(* ===================================================================== *)

Module Storage.

Definition STORAGE_KEY : string := "package-stalker-trackings".

(** [localStorage]: a map from keys to strings. *)
Abbreviation LocalStorage := (gmap string string).

(** ** A [Tracking] as a run-time object, and back

    The service stores and returns plain objects; the TypeScript types are
    erased.  [Tracking_to_value] is the object a well-typed [Tracking] is,
    and [value_to_Tracking] reads an object at that type, field by field
    (an absent optional property and one holding [undefined] read the
    same). *)

Definition opt_value {A} (f : A -> value) (o : option A) : value :=
  match o with
  | Some a => f a
  | None => VUndef
  end.

Definition Carrier_to_value (c : Carrier.t) : value :=
  VObj [("code", VStr (Carrier.code c));
        ("name", VStr (Carrier.name c));
        ("logo", opt_value VStr (Carrier.logo c));
        ("trackingUrl", opt_value VStr (Carrier.trackingUrl c))].

Definition TrackingEvent_to_value (e : TrackingEvent.t) : value :=
  VObj [("timestamp", VDate (TrackingEvent.timestamp e));
        ("location", VStr (TrackingEvent.location e));
        ("description", VStr (TrackingEvent.description e));
        ("status", VStr (status_name (TrackingEvent.status e)))].

Definition Tracking_to_value (t : Tracking.t) : value :=
  VObj [("id", VStr (Tracking.id t));
        ("trackingNumber", VStr (Tracking.trackingNumber t));
        ("nickname", VStr (Tracking.nickname t));
        ("carrier", Carrier_to_value (Tracking.carrier t));
        ("status", VStr (status_name (Tracking.status t)));
        ("events", VArr (map TrackingEvent_to_value (Tracking.events t)));
        ("estimatedDelivery", opt_value VDate (Tracking.estimatedDelivery t));
        ("transitDays", opt_value VNum (Tracking.transitDays t));
        ("createdAt", VDate (Tracking.createdAt t));
        ("updatedAt", VDate (Tracking.updatedAt t))].

(** [v.name] on a value that is known not to be [undefined] or [null]. *)
Definition member (name : string) (v : value) : value :=
  default VUndef (get_prop name v).

Definition as_string (v : value) : option string :=
  match v with VStr s => Some s | _ => None end.

Definition as_date (v : value) : option Date :=
  match v with VDate d => Some d | _ => None end.

Definition as_status (v : value) : option DeliveryStatus :=
  match v with VStr s => status_of_name s | _ => None end.

Definition as_array (v : value) : option (list value) :=
  match v with VArr items => Some items | _ => None end.

Definition as_optional {A} (f : value -> option A) (v : value)
  : option (option A) :=
  match v with
  | VUndef => Some None
  | _ => Some <$> f v
  end.

Definition as_number (v : value) : option float :=
  match v with VNum n => Some n | _ => None end.

Definition value_to_Carrier (v : value) : option Carrier.t :=
  match v with
  | VObj _ =>
      code ← as_string (member "code" v);
      name ← as_string (member "name" v);
      logo ← as_optional as_string (member "logo" v);
      trackingUrl ← as_optional as_string (member "trackingUrl" v);
      Some (Carrier.mk code name logo trackingUrl)
  | _ => None
  end.

Definition value_to_TrackingEvent (v : value) : option TrackingEvent.t :=
  match v with
  | VObj _ =>
      timestamp ← as_date (member "timestamp" v);
      location ← as_string (member "location" v);
      description ← as_string (member "description" v);
      status ← as_status (member "status" v);
      Some (TrackingEvent.mk timestamp location description status)
  | _ => None
  end.

Definition value_to_Tracking (v : value) : option Tracking.t :=
  match v with
  | VObj _ =>
      id ← as_string (member "id" v);
      trackingNumber ← as_string (member "trackingNumber" v);
      nickname ← as_string (member "nickname" v);
      carrier ← value_to_Carrier (member "carrier" v);
      status ← as_status (member "status" v);
      items ← as_array (member "events" v);
      events ← mapM value_to_TrackingEvent items;
      estimatedDelivery ← as_optional as_date (member "estimatedDelivery" v);
      transitDays ← as_optional as_number (member "transitDays" v);
      createdAt ← as_date (member "createdAt" v);
      updatedAt ← as_date (member "updatedAt" v);
      Some (Tracking.mk id trackingNumber nickname carrier status events
              estimatedDelivery transitDays createdAt updatedAt)
  | _ => None
  end.

(** [array.findIndex(p)]: the first index whose element satisfies [p],
    or -1. *)
Fixpoint findIndex_from {A} (p : A -> bool) (l : list A) (i : Z) : Z :=
  match l with
  | [] => (-1)%Z
  | x :: r => if p x then i else findIndex_from p r (i + 1)%Z
  end.

Definition findIndex {A} (p : A -> bool) (l : list A) : Z :=
  findIndex_from p l 0%Z.

(** The tracking numbers of a stored collection, in order. *)
Definition numbers (trackings : list value) : list value :=
  map (member "trackingNumber") trackings.

(** The callback of [findIndex] in [saveTracking]. *)
Definition has_number (s : string) (t : value) : bool :=
  strict_equals (member "trackingNumber" t) (VStr s).

Section Service.
Context `{Platform}.

(** [rehydrateTracking]; [None] is the TypeError of reading a property of
    [undefined] or [null], or of calling [.map] on something that has no
    such method. *)
Definition rehydrateEvent (e : value) : option value :=
  timestamp ← get_prop "timestamp" e;
  location ← get_prop "location" e;
  description ← get_prop "description" e;
  status ← get_prop "status" e;
  Some (VObj [("timestamp", VDate (Date_new timestamp));
              ("location", location);
              ("description", description);
              ("status", status)]).

Definition rehydrateTracking (data : value) : option value :=
  raw_events ← get_prop "events" data;
  items ← as_array raw_events;
  events ← mapM rehydrateEvent items;
  id ← get_prop "id" data;
  trackingNumber ← get_prop "trackingNumber" data;
  nickname ← get_prop "nickname" data;
  carrier ← get_prop "carrier" data;
  status ← get_prop "status" data;
  estimatedDelivery ← get_prop "estimatedDelivery" data;
  createdAt ← get_prop "createdAt" data;
  updatedAt ← get_prop "updatedAt" data;
  Some (VObj [("id", id);
              ("trackingNumber", trackingNumber);
              ("nickname", nickname);
              ("carrier", carrier);
              ("status", status);
              ("events", VArr events);
              ("estimatedDelivery",
                if truthy estimatedDelivery
                then VDate (Date_new estimatedDelivery)
                else VUndef);
              ("createdAt", VDate (Date_new createdAt));
              ("updatedAt", VDate (Date_new updatedAt))]).

(** [getTrackings]: every exception raised inside the [try] block ends in
    the [catch], which returns the empty array. *)
Definition getTrackings (ls : LocalStorage) : list value :=
  match ls !! STORAGE_KEY with
  | None => []
  | Some data =>
      if negb (str_truthy data) then []
      else
        match JSON_parse data with
        | None => []
        | Some parsed =>
            match as_array parsed ≫= mapM rehydrateTracking with
            | None => []
            | Some trackings => trackings
            end
        end
  end.

Definition persist (ls : LocalStorage) (trackings : list value)
  : LocalStorage :=
  <[STORAGE_KEY := JSON_stringify (VArr trackings)]> ls.

(** The array [saveTracking] hands to [persist]. *)
Definition upsert (trackings : list value) (tracking : Tracking.t)
  : list value :=
  let existingIndex :=
    findIndex (has_number (Tracking.trackingNumber tracking)) trackings in
  if (0 <=? existingIndex)%Z
  then <[Z.to_nat existingIndex := Tracking_to_value tracking]> trackings
  else trackings ++ [Tracking_to_value tracking].

Definition saveTracking (ls : LocalStorage) (tracking : Tracking.t)
  : LocalStorage :=
  let trackings := getTrackings ls in
  persist ls (upsert trackings tracking).

(** What a property reads as once written and parsed. *)
Definition reparsed (v : value) : value :=
  match v with VUndef => VUndef | x => jsonify x end.

(** A date the codec carries: it is valid, its ISO string is not empty, and
    the [Date] constructor reads that string back to the same time value. *)
Definition survives (d : Date) : Prop :=
  exists t, d = ValidDate t /\
            str_truthy (Date_toISOString t) = true /\
            Date_new (VStr (Date_toISOString t)) = ValidDate t.

End Service.

Definition is_object (v : value) : bool :=
  match v with VObj _ => true | _ => false end.

(** An object [rehydrateTracking] accepts: its keys are distinct and its
    [events] is an array of objects. *)
Definition storable (v : value) : Prop :=
  exists props items,
    v = VObj props /\ NoDup (map fst props) /\
    assoc_get "events" props = Some (VArr items) /\
    forallb is_object items = true.

Definition is_string (v : value) : Prop := exists s, v = VStr s.

(** Every date a tracking holds. *)
Definition dates_of (t : Tracking.t) : list Date :=
  Tracking.createdAt t :: Tracking.updatedAt t ::
  (match Tracking.estimatedDelivery t with Some d => [d] | None => [] end ++
   map TrackingEvent.timestamp (Tracking.events t))%list.

(** A tracking without its [transitDays]. *)
Definition without_transitDays (t : Tracking.t) : Tracking.t :=
  {| Tracking.id := Tracking.id t;
     Tracking.trackingNumber := Tracking.trackingNumber t;
     Tracking.nickname := Tracking.nickname t;
     Tracking.carrier := Tracking.carrier t;
     Tracking.status := Tracking.status t;
     Tracking.events := Tracking.events t;
     Tracking.estimatedDelivery := Tracking.estimatedDelivery t;
     Tracking.transitDays := None;
     Tracking.createdAt := Tracking.createdAt t;
     Tracking.updatedAt := Tracking.updatedAt t |}.

End Storage.

(* ===================================================================== *)
(** * services/storage.service.ts: AnalyticsService *)
(* ===================================================================== *)

Module Analytics.

(** The value of the [counts] map for one carrier. *)
Module Entry.
Record t : Type := mk {
  name : string;
  count : nat;
  totalTransitDays : float;
  deliveredCount : nat;
}.
End Entry.

(** [tracking.transitDays || 0] *)
Definition transitDays_or_0 (tracking : Tracking.t) : float :=
  match Tracking.transitDays tracking with
  | Some n => if num_truthy n then n else 0%float
  | None => 0%float
  end.

Definition isDelivered (tracking : Tracking.t) : bool :=
  bool_decide (Tracking.status tracking = delivered).

(** [isDelivered && transitDays > 0] *)
Definition qualifies (tracking : Tracking.t) : bool :=
  isDelivered tracking && PrimFloat.ltb 0%float (transitDays_or_0 tracking).

(** The entry object of an existing carrier, mutated in place. *)
Definition bump (tracking : Tracking.t) (existing : Entry.t) : Entry.t :=
  {| Entry.name := Entry.name existing;
     Entry.count := S (Entry.count existing);
     Entry.totalTransitDays :=
       if qualifies tracking
       then PrimFloat.add (Entry.totalTransitDays existing)
                          (transitDays_or_0 tracking)
       else Entry.totalTransitDays existing;
     Entry.deliveredCount :=
       if qualifies tracking
       then S (Entry.deliveredCount existing)
       else Entry.deliveredCount existing |}.

Definition first_entry (tracking : Tracking.t) : Entry.t :=
  {| Entry.name := Carrier.name (Tracking.carrier tracking);
     Entry.count := 1;
     Entry.totalTransitDays :=
       if qualifies tracking then transitDays_or_0 tracking else 0%float;
     Entry.deliveredCount := if qualifies tracking then 1 else 0 |}.

(** A [Map] keeps its keys in insertion order: an association list whose
    entries are altered where they stand and added at the end. *)
Fixpoint alter_entry (f : Entry.t -> Entry.t) (k : string)
  (counts : list (string * Entry.t)) : list (string * Entry.t) :=
  match counts with
  | [] => []
  | (k', e) :: r =>
      if String.eqb k k' then (k', f e) :: r
      else (k', e) :: alter_entry f k r
  end.

(** One turn of the [for ... of] loop. *)
Definition tally (counts : list (string * Entry.t)) (tracking : Tracking.t)
  : list (string * Entry.t) :=
  let code := Carrier.code (Tracking.carrier tracking) in
  match assoc_get code counts with
  | Some _ => alter_entry (bump tracking) code counts
  | None => counts ++ [(code, first_entry tracking)]
  end.

Definition distribution_of (total : nat) (kv : string * Entry.t)
  : CourierDistribution.t :=
  let (code, data) := kv in
  {| CourierDistribution.carrierCode := code;
     CourierDistribution.carrierName := Entry.name data;
     CourierDistribution.count := Entry.count data;
     CourierDistribution.percentage :=
       Math_round (PrimFloat.mul
                     (PrimFloat.div (nat2F (Entry.count data)) (nat2F total))
                     100%float);
     CourierDistribution.avgTransitDays :=
       if (0 <? Entry.deliveredCount data)%nat
       then Some (Math_round
                    (PrimFloat.div (Entry.totalTransitDays data)
                                   (nat2F (Entry.deliveredCount data))))
       else None |}.

(** [getCourierDistribution], on the array [storage.getTrackings()]
    resolved to. *)
Definition getCourierDistribution (trackings : list Tracking.t)
  : list CourierDistribution.t :=
  if (length trackings =? 0)%nat then []
  else
    let counts := fold_left tally trackings [] in
    let total := length trackings in
    map (distribution_of total) counts.

Section WithPlatform.
Context `{Platform}.

Definition formatMonth (date : Date) : string :=
  num_toString (Date_getFullYear date) +:+ "-" +:+
  padStart 2 "0"
    (num_toString ((fun m => Z.of_nat m + 1)%Z <$> Date_getMonth date)).

(** [getCurrentMonth], with [now] what [new Date()] returned. *)
Definition getCurrentMonth (now : Date) : string := formatMonth now.

Definition in_month (targetMonth : string) (t : Tracking.t) : bool :=
  String.eqb (formatMonth (Tracking.createdAt t)) targetMonth.

Definition status_in (l : list DeliveryStatus) (t : Tracking.t) : bool :=
  bool_decide (Tracking.status t ∈ l).

(** [getMonthlyStats], on the array [storage.getTrackings()] resolved to. *)
Definition getMonthlyStats (trackings : list Tracking.t)
  (month : option string) (now : Date) : MonthlyStats.t :=
  let targetMonth := or_str month (getCurrentMonth now) in
  let monthlyTrackings := List.filter (in_month targetMonth) trackings in
  {| MonthlyStats.month := targetMonth;
     MonthlyStats.totalPackages := length monthlyTrackings;
     MonthlyStats.delivered :=
       length (List.filter isDelivered monthlyTrackings);
     MonthlyStats.inTransit :=
       length (List.filter (status_in [in_transit; out_for_delivery])
                 monthlyTrackings) |}.

End WithPlatform.
End Analytics.

(* ===================================================================== *)
(** * A reference host *)
(* ===================================================================== *)

(** A small, executable instance of [Platform], used to run the services on
    concrete data: ASCII upper-casing, the proleptic Gregorian calendar at a
    fixed offset from UTC, ISO-8601 date strings, and a JSON codec without
    white space whose numerals are the integers. *)
Module RefPlatform.

Local Open Scope Z_scope.

Definition msPerDay : Z := 86400000.

(** Year, month (1-12) and day of the month of a day number. *)
Definition civil_from_days (days : Z) : Z * Z * Z :=
  let z := days + 719468 in
  let era := z / 146097 in
  let doe := z mod 146097 in
  let yoe := (doe - doe / 1460 + doe / 36524 - doe / 146096) / 365 in
  let y := yoe + era * 400 in
  let doy := doe - (365 * yoe + yoe / 4 - yoe / 100) in
  let mp := (5 * doy + 2) / 153 in
  let d := doy - (153 * mp + 2) / 5 + 1 in
  let m := if mp <? 10 then mp + 3 else mp - 9 in
  (if m <=? 2 then y + 1 else y, m, d).

Definition days_from_civil (y m d : Z) : Z :=
  let y' := if m <=? 2 then y - 1 else y in
  let era := y' / 400 in
  let yoe := y' mod 400 in
  let doy := (153 * (if 2 <? m then m - 3 else m + 9) + 2) / 5 + d - 1 in
  let doe := yoe * 365 + yoe / 4 - yoe / 100 + doy in
  era * 146097 + doe - 719468.

Definition year_of (tza : Z) (d : Date) : option Z :=
  match d with
  | ValidDate t => Some (civil_from_days ((t + tza) / msPerDay)).1.1
  | InvalidDate => None
  end.

Definition month_of (tza : Z) (d : Date) : option nat :=
  match d with
  | ValidDate t =>
      Some (Z.to_nat ((civil_from_days ((t + tza) / msPerDay)).1.2 - 1))
  | InvalidDate => None
  end.

(** [n] in decimal, left-padded with zeros to [width] digits. *)
Definition digits (width : nat) (n : Z) : string :=
  padStart width "0" (Z_toString n).

Definition toISOString (t : Z) : string :=
  let '(y, m, d) := civil_from_days (t / msPerDay) in
  let ms := t mod msPerDay in
  let year :=
    if (0 <=? y) && (y <=? 9999) then digits 4 y
    else (if y <? 0 then "-" else "+") +:+ digits 6 (Z.abs y) in
  year +:+ "-" +:+ digits 2 m +:+ "-" +:+ digits 2 d +:+ "T" +:+
  digits 2 (ms / 3600000) +:+ ":" +:+ digits 2 (ms / 60000 mod 60) +:+ ":" +:+
  digits 2 (ms / 1000 mod 60) +:+ "." +:+ digits 3 (ms mod 1000) +:+ "Z".

Definition digit_value (c : ascii) : option Z :=
  let n := nat_of_ascii c in
  if ((48 <=? n) && (n <=? 57))%nat then Some (Z.of_nat n - 48) else None.

Fixpoint number_of (s : string) (acc : Z) : option Z :=
  match s with
  | EmptyString => Some acc
  | String c r => v ← digit_value c; number_of r (10 * acc + v)
  end.

Definition field (s : string) (start len : nat) : option Z :=
  let part := String.substring start len s in
  if (String.length part =? len)%nat then number_of part 0 else None.

(** The time value of a string in the format [toISOString] writes. *)
Definition parse_iso_from (s : string) (y : Z) (at_ : nat) : Date :=
  let time :=
    m ← field s (at_ + 1) 2;
    d ← field s (at_ + 4) 2;
    hh ← field s (at_ + 7) 2;
    mm ← field s (at_ + 10) 2;
    ss ← field s (at_ + 13) 2;
    ms ← field s (at_ + 16) 3;
    if String.eqb (String.substring at_ 1 s) "-"
       && String.eqb (String.substring (at_ + 3) 1 s) "-"
       && String.eqb (String.substring (at_ + 6) 1 s) "T"
       && String.eqb (String.substring (at_ + 9) 1 s) ":"
       && String.eqb (String.substring (at_ + 12) 1 s) ":"
       && String.eqb (String.substring (at_ + 15) 1 s) "."
       && String.eqb (String.substring (at_ + 19) 20 s) "Z"
    then Some (days_from_civil y m d * msPerDay
               + hh * 3600000 + mm * 60000 + ss * 1000 + ms)
    else None in
  match time with
  | Some t => ValidDate t
  | None => InvalidDate
  end.

Definition parse_iso (s : string) : Date :=
  match s with
  | String "+" r =>
      match field r 0 6 with
      | Some y => parse_iso_from r y 6
      | None => InvalidDate
      end
  | String "-" r =>
      match field r 0 6 with
      | Some y => parse_iso_from r (- y) 6
      | None => InvalidDate
      end
  | _ =>
      match field s 0 4 with
      | Some y => parse_iso_from s y 4
      | None => InvalidDate
      end
  end.

(** The integer a number is, when it is one. *)
Definition integral (x : float) : option Z :=
  match Prim2SF x with
  | S754_zero _ => Some 0
  | S754_finite s m e =>
      let n := if s then Z.neg m else Z.pos m in
      if 0 <=? e then Some (n * 2 ^ e)
      else if n mod 2 ^ (- e) =? 0 then Some (n / 2 ^ (- e)) else None
  | _ => None
  end.

(** [new Date(v)] on the primitive values; objects and arrays are not
    read. *)
Definition new_Date (v : value) : Date :=
  match v with
  | VStr s => parse_iso s
  | VNum n =>
      match integral n with
      | Some t =>
          if Z.abs t <=? 8640000000000000 then ValidDate t else InvalidDate
      | None => InvalidDate
      end
  | VNull => ValidDate 0
  | VBool b => ValidDate (if b then 1 else 0)
  | VDate d => d
  | VUndef | VArr _ | VObj _ => InvalidDate
  end.

(** ** JSON text *)

Definition quote : ascii := ascii_of_nat 34.
Definition backslash : ascii := ascii_of_nat 92.

Fixpoint escape (s : string) : string :=
  match s with
  | EmptyString => EmptyString
  | String c r =>
      if (Ascii.eqb c quote || Ascii.eqb c backslash)%bool
      then String backslash (String c (escape r))
      else String c (escape r)
  end.

Definition quoted (s : string) : string :=
  String quote (escape s +:+ String quote EmptyString).

Fixpoint join (sep : string) (l : list string) : string :=
  match l with
  | [] => ""
  | [x] => x
  | x :: r => x +:+ sep +:+ join sep r
  end.

Fixpoint text (v : value) : string :=
  match v with
  | VUndef | VNull | VDate _ => "null"
  | VBool true => "true"
  | VBool false => "false"
  | VNum n =>
      match integral n with
      | Some z => Z_toString z
      | None => "null"
      end
  | VStr s => quoted s
  | VArr items => "[" +:+ join "," (map text items) +:+ "]"
  | VObj props =>
      "{" +:+
      join "," ((fix go (l : list (string * value)) : list string :=
                   match l with
                   | [] => []
                   | (k, x) :: r => (quoted k +:+ ":" +:+ text x) :: go r
                   end) props)
      +:+ "}"
  end.

Fixpoint read_chars (s : list ascii) : option (string * list ascii) :=
  match s with
  | [] => None
  | c :: r =>
      if Ascii.eqb c quote then Some (EmptyString, r)
      else if Ascii.eqb c backslash then
        match r with
        | e :: r' => '(str, rest) ← read_chars r'; Some (String e str, rest)
        | [] => None
        end
      else '(str, rest) ← read_chars r; Some (String c str, rest)
  end.

Fixpoint read_digits (s : list ascii) (acc : Z) : Z * list ascii :=
  match s with
  | c :: r =>
      match digit_value c with
      | Some v => read_digits r (10 * acc + v)
      | None => (acc, s)
      end
  | [] => (acc, s)
  end.

Definition read_number (s : list ascii) : option (value * list ascii) :=
  match s with
  | "-"%char :: c :: r =>
      _ ← digit_value c;
      let '(n, rest) := read_digits (c :: r) 0 in Some (VNum (Z2F (- n)), rest)
  | c :: r =>
      _ ← digit_value c;
      let '(n, rest) := read_digits (c :: r) 0 in Some (VNum (Z2F n), rest)
  | [] => None
  end.

Fixpoint read_value (fuel : nat) (s : list ascii)
  : option (value * list ascii) :=
  match fuel with
  | O => None
  | S fuel' =>
      let read_items :=
        fix items (n : nat) (s : list ascii) (acc : list value)
          : option (value * list ascii) :=
          match n with
          | O => None
          | S n' =>
              '(v, r) ← read_value fuel' s;
              match r with
              | ","%char :: r' => items n' r' (v :: acc)
              | "]"%char :: r' => Some (VArr (rev (v :: acc)), r')
              | _ => None
              end
          end in
      let read_props :=
        fix props (n : nat) (s : list ascii) (acc : list (string * value))
          : option (value * list ascii) :=
          match n with
          | O => None
          | S n' =>
              match s with
              | c :: s' =>
                  if Ascii.eqb c quote then
                    '(k, r) ← read_chars s';
                    match r with
                    | ":"%char :: r' =>
                        '(v, r'') ← read_value fuel' r';
                        match r'' with
                        | ","%char :: r3 => props n' r3 ((k, v) :: acc)
                        | "}"%char :: r3 =>
                            Some (VObj (rev ((k, v) :: acc)), r3)
                        | _ => None
                        end
                    | _ => None
                    end
                  else None
              | [] => None
              end
          end in
      match s with
      | "n"%char :: "u"%char :: "l"%char :: "l"%char :: r => Some (VNull, r)
      | "t"%char :: "r"%char :: "u"%char :: "e"%char :: r =>
          Some (VBool true, r)
      | "f"%char :: "a"%char :: "l"%char :: "s"%char :: "e"%char :: r =>
          Some (VBool false, r)
      | "["%char :: "]"%char :: r => Some (VArr [], r)
      | "["%char :: r => read_items (length r) r []
      | "{"%char :: "}"%char :: r => Some (VObj [], r)
      | "{"%char :: r => read_props (length r) r []
      | c :: r =>
          if Ascii.eqb c quote
          then '(str, rest) ← read_chars r; Some (VStr str, rest)
          else read_number s
      | [] => None
      end
  end.

Definition parse (s : string) : option value :=
  let chars := list_ascii_of_string s in
  match read_value (S (length chars)) chars with
  | Some (v, []) => Some v
  | _ => None
  end.

(** The host at [tza] milliseconds east of UTC. *)
Definition host (tza : Z) : Platform :=
  {| toUpperCase := ascii_upper;
     Date_getFullYear := year_of tza;
     Date_getMonth := month_of tza;
     Date_new := new_Date;
     Date_toISOString := toISOString;
     JSON_parse := parse;
     JSON_stringify := fun v => text (jsonify_with toISOString v) |}.

End RefPlatform.

(* ===================================================================== *)
(** * The aggregator: the specification's words, and the loop in closed
      form *)
(* ===================================================================== *)

Module AggregatorSpec.
Import Analytics.

Definition carrier_code (t : Tracking.t) : string :=
  Carrier.code (Tracking.carrier t).

(** The members of a carrier's group, in snapshot order. *)
Definition group (code : string) (trackings : list Tracking.t)
  : list Tracking.t :=
  List.filter (fun t => String.eqb (carrier_code t) code) trackings.

(** The distinct elements of a list, each at its first occurrence. *)
Fixpoint first_occurrences (l : list string) : list string :=
  match l with
  | [] => []
  | x :: r =>
      x :: List.filter (fun y => negb (String.eqb y x)) (first_occurrences r)
  end.

Definition sum (l : list float) : float := fold_left PrimFloat.add l 0%float.

(** The average the loop leaves for a carrier, from the members its
    [isDelivered && transitDays > 0] test let through. *)
Definition rounded_mean (qualifying : list Tracking.t) : option float :=
  match qualifying with
  | [] => None
  | _ :: _ =>
      Some (Math_round
              (PrimFloat.div (sum (map transitDays_or_0 qualifying))
                             (nat2F (length qualifying))))
  end.

(** The entry the code returns for one carrier, in closed form: what the
    loop and the final [map] compute, with the code's own test and
    arithmetic. *)
Definition distribution (trackings : list Tracking.t) (code : string)
  : option CourierDistribution.t :=
  match group code trackings with
  | [] => None
  | (first :: _) as members =>
      Some {| CourierDistribution.carrierCode := code;
              CourierDistribution.carrierName :=
                Carrier.name (Tracking.carrier first);
              CourierDistribution.count := length members;
              CourierDistribution.percentage :=
                Math_round
                  (PrimFloat.mul
                     (PrimFloat.div (nat2F (length members))
                                    (nat2F (length trackings)))
                     100%float);
              CourierDistribution.avgTransitDays :=
                rounded_mean (List.filter qualifies members) |}
  end.

Definition courierDistribution (trackings : list Tracking.t)
  : list CourierDistribution.t :=
  omap (distribution trackings)
    (first_occurrences (map carrier_code trackings)).

(** What the worked example of the specification reads off an entry. *)
Definition summary (d : CourierDistribution.t)
  : string * nat * float * option float :=
  (CourierDistribution.carrierCode d, CourierDistribution.count d,
   CourierDistribution.percentage d, CourierDistribution.avgTransitDays d).

(** The [counts] entry a carrier has after the loop ran over [trackings]. *)
Definition entry (trackings : list Tracking.t) (code : string)
  : option Entry.t :=
  match group code trackings with
  | [] => None
  | (first :: _) as members =>
      Some {| Entry.name := Carrier.name (Tracking.carrier first);
              Entry.count := length members;
              Entry.totalTransitDays :=
                sum (map transitDays_or_0 (List.filter qualifies members));
              Entry.deliveredCount := length (List.filter qualifies members) |}
  end.

(** ** The distribution, as the specification words it *)










Section WithPlatform.
Context `{Platform}.

(** The key of calendar month [month] (1 to 12) of [year], as
    [formatMonth] writes it. *)
Definition month_key (year : Z) (month : nat) : string :=
  Z_toString year +:+ "-" +:+ padStart 2 "0" (Z_toString (Z.of_nat month)).

(** [createdAt] falls in calendar month [month] (1 to 12) of [year]. *)
Definition created_in (year : Z) (month : nat) (t : Tracking.t) : bool :=
  match Date_getFullYear (Tracking.createdAt t),
        Date_getMonth (Tracking.createdAt t) with
  | Some y, Some m => (y =? year)%Z && (S m =? month)%nat
  | _, _ => false
  end.

Definition monthlyStats (trackings : list Tracking.t) (year : Z) (month : nat)
  : MonthlyStats.t :=
  let selected := List.filter (created_in year month) trackings in
  {| MonthlyStats.month := month_key year month;
     MonthlyStats.totalPackages := length selected;
     MonthlyStats.delivered :=
       length (List.filter
                 (fun t => bool_decide (Tracking.status t = delivered))
                   selected);
     MonthlyStats.inTransit :=
       length (List.filter
                 (fun t => bool_decide (Tracking.status t = in_transit \/
                                        Tracking.status t = out_for_delivery))
                 selected) |}.

End WithPlatform.

(** A proof-side reader of decimal numerals. *)
Definition Z_ofString (s : string) : option Z :=
  Z.of_int <$> NilZero.int_of_string s.

Definition is_digit (c : ascii) : bool :=
  let n := nat_of_ascii c in (48 <=? n)%nat && (n <=? 57)%nat.

Definition not_dash (c : ascii) : bool := negb (Ascii.eqb c "-").

End AggregatorSpec.

(* ===================================================================== *)
(** * Sample data *)
(* ===================================================================== *)

Module Samples.

(** The host used in the examples: UTC+7. *)
Definition bangkok : Platform := RefPlatform.host 25200000.

Definition kerry : Carrier.t := Carrier.mk "kerry" "Kerry Express" None None.
Definition flash : Carrier.t := Carrier.mk "flash" "Flash Express" None None.

(** 2026-01-22T07:45:24.000Z *)
Definition jan22 : Date := ValidDate 1769067924000.
(** 2026-01-31T18:30:00.000Z, which is 1 February in Bangkok *)
Definition jan31_late : Date := ValidDate 1769884200000.
(** 2026-01-05T03:00:00.000Z *)
Definition jan05 : Date := ValidDate 1767582000000.

Definition arrived : TrackingEvent.t :=
  TrackingEvent.mk jan22 "Bangkok" "Arrived at sorting hub" in_transit.

Definition parcel (id number : string) (carrier : Carrier.t)
  (status : DeliveryStatus) (days : option float) (created : Date)
  : Tracking.t :=
  Tracking.mk id number number carrier status [arrived] None days created
    created.

Definition parcel1 := parcel "id-1" "TH0001" kerry delivered (Some 2%float)
  jan22.
Definition parcel2 := parcel "id-2" "TH0002" kerry delivered (Some 4%float)
  jan22.
Definition parcel3 := parcel "id-3" "TH0003" flash in_transit (Some 0%float)
  jan22.
Definition parcel4 := parcel "id-4" "TH0004" flash out_for_delivery None jan05.
Definition parcel5 := parcel "id-5" "TH0005" flash pending None jan05.
(** Created within days of the others, but in the next calendar month. *)
Definition parcel6 := parcel "id-6" "TH0006" kerry delivered (Some 3%float)
  jan31_late.
(** [parcel1] tracked again, now with an estimated delivery date. *)
Definition parcel1_again : Tracking.t :=
  Tracking.mk "id-7" "TH0001" "gift" kerry out_for_delivery [arrived]
    (Some jan31_late) (Some 1%float) jan22 jan31_late.

(** A snapshot of forty trackings with distinct numbers: twenty-three of
    Kerry, then seventeen of Flash. *)
Definition numbered (carrier : Carrier.t) (i : nat) : Tracking.t :=
  parcel ("id-" +:+ Z_toString (Z.of_nat i))
    ("TH" +:+ Z_toString (Z.of_nat i)) carrier in_transit None jan22.


(** One tracking of Flash and seven of Kerry. *)
Definition eight : list Tracking.t :=
  (map (numbered flash) (seq 0 1) ++ map (numbered kerry) (seq 1 7))%list.


(** ** Gateways *)

Import Track123.

Definition TH0001 : TrackingContent.t :=
  {| TrackingContent.trackNo := "TH0001";
     TrackingContent.transitStatus := "DELIVERED";
     TrackingContent.transitDays := Some 2%float;
     TrackingContent.localLogisticsInfo :=
       Some {| LocalLogisticsInfo.courierCode := "kerry";
               LocalLogisticsInfo.courierNameEN := "Kerry Express";
               LocalLogisticsInfo.trackingDetails :=
                 Some [ {| TrackingDetail.eventTime :=
                             "2026-01-22T07:45:24.000Z";
                           TrackingDetail.eventDetail := "Delivered";
                           TrackingDetail.location := Some "Bangkok";
                           TrackingDetail.transitSubStatus :=
                             Some "Delivered" |} ] |} |}.

Definition success (content : list TrackingContent.t)
  : HttpResult QueryResponseData.t :=
  Response 200
    (BaseResponse.mk "00000" None
       (Some (QueryResponseData.mk (Some (Accepted.mk (Some content)))))).

Definition accepted : HttpResult unit :=
  Response 200 (BaseResponse.mk "00000" None None).

Definition refused : HttpResult unit :=
  Response 200 (BaseResponse.mk "A0400" (Some "Invalid tracking number") None).

Definition uuid (n : nat) : string := "uuid-" +:+ Z_toString (Z.of_nat n).

(** A gateway that already tracks TH0001. *)
Definition knows : Gateway :=
  {| import_response := fun _ _ => accepted;
     query_response := fun _ _ => success [TH0001];
     uuid_at := uuid;
     now_at := fun _ => jan22 |}.

(** A gateway that accepts registrations but never finds the parcel. *)
Definition never_finds : Gateway :=
  {| import_response := fun _ _ => accepted;
     query_response := fun _ _ => success [];
     uuid_at := uuid;
     now_at := fun _ => jan22 |}.

(** A gateway that does not know the parcel and refuses to register it. *)
Definition refuses : Gateway :=
  {| import_response := fun _ _ => refused;
     query_response := fun _ _ => success [];
     uuid_at := uuid;
     now_at := fun _ => jan22 |}.

(** A gateway that finds the parcel once it has been registered. *)
Definition finds_once_registered : Gateway :=
  {| import_response := fun _ _ => accepted;
     query_response := fun past _ =>
       if existsb is_registration past then success [TH0001] else success [];
     uuid_at := uuid;
     now_at := fun _ => jan22 |}.

Definition start : World := {| trace := []; created := 0 |}.

End Samples.

(* ===================================================================== *)
(** * services/storage.service.ts: the rest of LocalStorageService *)
(* ===================================================================== *)

Module Repository.
Import Storage.

(** The ids of a stored collection, in order. *)
Definition ids (trackings : list value) : list value :=
  map (member "id") trackings.

(** The callback [t => t.id === id]. *)
Definition has_id (id : string) (t : value) : bool :=
  strict_equals (member "id" t) (VStr id).

(** The array [deleteTracking] hands to [persist]. *)
Definition without_id (trackings : list value) (id : string) : list value :=
  List.filter (fun t => negb (has_id id t)) trackings.

Section Service.
Context `{Platform}.

(** [trackings.find(...) || null]; [None] is null. *)
Definition getTrackingById (ls : LocalStorage) (id : string) : option value :=
  match List.find (has_id id) (getTrackings ls) with
  | Some t => if truthy t then Some t else None
  | None => None
  end.

Definition deleteTracking (ls : LocalStorage) (id : string) : LocalStorage :=
  let trackings := getTrackings ls in
  persist ls (without_id trackings id).

(** [updateTracking]: the store afterwards, or the error thrown before
    anything is written. *)
Definition updateTracking (ls : LocalStorage) (tracking : Tracking.t)
  : Track123.Result LocalStorage :=
  let trackings := getTrackings ls in
  let index := findIndex (has_id (Tracking.id tracking)) trackings in
  if (index <? 0)%Z
  then Track123.Throw
         (Track123.mkError ("Tracking not found: " +:+ Tracking.id tracking))
  else Track123.Ok
         (persist ls (<[Z.to_nat index := Tracking_to_value tracking]>
                        trackings)).

End Service.

(** A stored row [rehydrateTracking] throws on: it is [null] or
    [undefined], its [events] has no [map], or one of its events is [null]
    or [undefined]. *)
Definition malformed (item : value) : Prop :=
  item = VNull \/ item = VUndef \/
  as_array (member "events" item) = None \/
  exists events,
    as_array (member "events" item) = Some events /\
    (VNull ∈ events \/ VUndef ∈ events).

End Repository.

(* ===================================================================== *)
(** * services/storage.service.ts: the rest of AnalyticsService *)
(* ===================================================================== *)

Module AnalyticsService.
Section WithPlatform.
Context `{Platform}.

(** [getTotalPackagesThisMonth], on the array [storage.getTrackings()]
    resolved to, with [now] what [new Date()] returned. *)
Definition getTotalPackagesThisMonth (trackings : list Tracking.t)
  (now : Date) : nat :=
  let stats := Analytics.getMonthlyStats trackings None now in
  MonthlyStats.totalPackages stats.

End WithPlatform.
End AnalyticsService.

(* ===================================================================== *)
(** * services/track123.service.ts: the carrier list, the mock and the
      factory *)
(* ===================================================================== *)

Module Carriers.
Import Track123.

Module CarrierData.
Record t : Type := mk {
  courierCode : string;
  courierNameCN : string;
  courierNameEN : string;
  courierHomePage : option string;
}.
End CarrierData.

(** The request [getCarriers] sends: it has no body. *)
Definition carriers_event : Event := EvRequest "/courier/list" "GET" [].

(** The callback of [response.data.map]. *)
Definition toCarrier (c : CarrierData.t) : Carrier.t :=
  {| Carrier.code := CarrierData.courierCode c;
     Carrier.name :=
       or_str (Some (CarrierData.courierNameEN c))
         (or_str (Some (CarrierData.courierNameCN c))
                 (CarrierData.courierCode c));
     Carrier.logo := None;
     Carrier.trackingUrl := CarrierData.courierHomePage c |}.

(** [getCarriers]; [carriers_response] is the gateway's answer to the
    request given everything sent before. *)
Definition getCarriers
  (carriers_response : list Event -> HttpResult (list CarrierData.t))
  : M (list Carrier.t) :=
  response ← request carriers_response carriers_event;
  if negb (String.eqb (BaseResponse.code response) "00000") then mret []
  else
    match BaseResponse.data response with
    | None => mret []
    | Some data => mret (map toCarrier data)
    end.

End Carriers.

Module Factory.
Import Track123.

(** The two classes [createTrackingService] returns an instance of. *)
Inductive TrackingService : Type :=
| Track123Service (apiKey : string)
| MockTrack123Service.

(** [new Track123Service(apiKey)] *)
Definition new_Track123Service (apiKey : string) : Result TrackingService :=
  if negb (str_truthy apiKey)
  then Throw (mkError "Track123 API key is required")
  else Ok (Track123Service apiKey).

(** [createTrackingService(apiKey?)] *)
Definition createTrackingService (apiKey : option string)
  : Result TrackingService :=
  match apiKey with
  | Some key =>
      if str_truthy key then new_Track123Service key
      else Ok MockTrack123Service
  | None => Ok MockTrack123Service
  end.

(** What [MockTrack123Service.instantTrack] passes to [createTracking]. *)
Definition mock_params (trackingNumber : string) : CreateParams.t :=
  {| CreateParams.trackingNumber := trackingNumber;
     CreateParams.nickname := None;
     CreateParams.carrier := Carrier.mk "mock" "Mock Express" None None;
     CreateParams.status := Some in_transit;
     CreateParams.events := Some [];
     CreateParams.transitDays := None |}.

(** [trackingService.instantTrack(trackingNumber)] on either class. *)
Definition instantTrack `{Platform} (G : Gateway) (service : TrackingService)
  (trackingNumber : string) : M Tracking.t :=
  match service with
  | Track123Service _ => Track123.instantTrack G trackingNumber None
  | MockTrack123Service =>
      n ← fresh;
      mret (createTracking (uuid_at G n) (now_at G n)
              (mock_params trackingNumber))
  end.

End Factory.

(* ===================================================================== *)
(** * App.tsx: tracking a number from the home page *)
(* ===================================================================== *)

Module App.
Import Track123.

Inductive NavPage : Type :=
| page_home
| page_list
| page_dashboard.

(** The four [useState] cells of [App]. *)
Record State : Type := mkState {
  currentPage : NavPage;
  trackings : list value;
  isLoading : bool;
  error : option string;
}.

Section Handlers.
Context `{Platform} (G : Gateway) (trackingService : Factory.TrackingService).

(** [localStorage.setItem(key, value)] on the store [ls] either stores the
    value or throws (the quota is exceeded, storage is disabled) and stores
    nothing; [setItem_throws ls key value] is the message of the exception
    in that case.  The exception is a [DOMException], which is an
    [Error]. *)
Context (setItem_throws : Storage.LocalStorage -> string -> string
                          -> option string).

(** [loadTrackings]: [setTrackings(await storageService.getTrackings())] *)
Definition loadTrackings (ls : Storage.LocalStorage) (s : State) : State :=
  {| currentPage := currentPage s;
     trackings := Storage.getTrackings ls;
     isLoading := isLoading s;
     error := error s |}.

(** [handleTrack]: the state [App] ends in, [localStorage] and the calls
    made, once the handler has run to its end.  The [try] block holds
    [instantTrack], [saveTracking] (which throws when its [setItem] does),
    [loadTrackings] and the change of page. *)
Definition handleTrack (trackingNumber : string) (s : State)
  (ls : Storage.LocalStorage) (w : World)
  : State * Storage.LocalStorage * World :=
  let s := {| currentPage := currentPage s;
              trackings := trackings s;
              isLoading := true;
              error := None |} in
  match Factory.instantTrack G trackingService trackingNumber w with
  | (Ok result, w) =>
      let text :=
        JSON_stringify
          (VArr (Storage.upsert (Storage.getTrackings ls) result)) in
      match setItem_throws ls Storage.STORAGE_KEY text with
      | Some message =>
          ({| currentPage := currentPage s;
              trackings := trackings s;
              isLoading := false;
              error := Some message |}, ls, w)
      | None =>
          let ls := Storage.saveTracking ls result in
          let s := loadTrackings ls s in
          ({| currentPage := page_list;
              trackings := trackings s;
              isLoading := false;
              error := error s |}, ls, w)
      end
  | (Throw (mkError message), w) =>
      ({| currentPage := currentPage s;
          trackings := trackings s;
          isLoading := false;
          error := Some message |}, ls, w)
  end.

(** [handleDelete]: the state [App] ends in and [localStorage]. *)
Definition handleDelete (id : string) (s : State)
  (ls : Storage.LocalStorage) : State * Storage.LocalStorage :=
  let ls := Repository.deleteTracking ls id in
  (loadTrackings ls s, ls).

End Handlers.
End App.

(* ===================================================================== *)
(** * components: what the cards, the timeline and the dashboard compute *)
(* ===================================================================== *)

Module Components.

(** TrackingCard: [tracking.events[tracking.events.length - 1]]; [None] is
    [undefined]. *)
Definition latestEvent (tracking : Tracking.t) : option TrackingEvent.t :=
  last (Tracking.events tracking).

(** InsightDashboard: [courierDist.reduce((a, b) => a.count > b.count ? a : b)]
    on a non-empty array, [null] ([None]) on an empty one. *)
Definition topCourier (courierDist : list CourierDistribution.t)
  : option CourierDistribution.t :=
  match courierDist with
  | [] => None
  | first :: rest =>
      Some (fold_left
              (fun a b =>
                 if (CourierDistribution.count b <?
                     CourierDistribution.count a)%nat
                 then a else b)
              rest first)
  end.

(** [Array.prototype.sort] is stable.  With a comparator that orders its
    arguments consistently the outcome is the one stable arrangement,
    whichever algorithm the engine runs; [insert] places an element before
    the first one the comparator does not put ahead of it. *)
Fixpoint insert {A} (compare : A -> A -> Z) (x : A) (l : list A) : list A :=
  match l with
  | [] => [x]
  | y :: r =>
      if (compare x y <=? 0)%Z then x :: y :: r
      else y :: insert compare x r
  end.

Fixpoint Array_sort {A} (compare : A -> A -> Z) (l : list A) : list A :=
  match l with
  | [] => []
  | x :: r => insert compare x (Array_sort compare r)
  end.

(** [date.getTime()]; [None] is NaN. *)
Definition getTime (d : Date) : option Z :=
  match d with
  | ValidDate t => Some t
  | InvalidDate => None
  end.

Definition has_time (e : TrackingEvent.t) : bool :=
  bool_decide (is_Some (getTime (TrackingEvent.timestamp e))).

(** Timeline: [(a, b) => b.timestamp.getTime() - a.timestamp.getTime()];
    [None] is NaN.  The difference of two time values has the sign of the
    difference of the integers they are. *)
Definition newest_first (a b : TrackingEvent.t) : option Z :=
  tb ← getTime (TrackingEvent.timestamp b);
  ta ← getTime (TrackingEvent.timestamp a);
  Some (tb - ta)%Z.

(** Timeline: [[...events].sort(...)]; the sort reads a NaN from the
    comparator as 0.  With an invalid timestamp among the events the
    comparator need not order them consistently, and the order may then be
    left to the engine; no result is given for such a list: [None]. *)
Definition sortedEvents (events : list TrackingEvent.t)
  : option (list TrackingEvent.t) :=
  if forallb has_time events
  then Some (Array_sort (fun a b => default 0%Z (newest_first a b)) events)
  else None.

End Components.

(* ===================================================================== *)
(** * The status normalizer *)
(* ===================================================================== *)

Section StatusFacts.
Context `{Platform}.

Lemma statusMap_table (k : string) :
  default unknown (statusMap !! k) = table_value k.
Proof.
  unfold table_value.
  repeat match goal with
  | |- context [String.eqb k ?lit] =>
      destruct (String.eqb_spec k lit) as [-> | ?]; [reflexivity |]
  end.
  unfold statusMap.
  rewrite (not_elem_of_list_to_map_1 _ k); [reflexivity |].
  cbn [fmap list_fmap fst]. rewrite !elem_of_cons, elem_of_nil. tauto.
Qed.

Lemma table_value_unknown (k : string) :
  k ∉ table_keys -> table_value k = unknown.
Proof.
  unfold table_keys, table_value. rewrite !elem_of_cons, elem_of_nil.
  intros Hk.
  repeat match goal with
  | |- context [String.eqb k ?lit] =>
      destruct (String.eqb_spec k lit) as [-> | ?]; [exfalso; tauto |]
  end.
  reflexivity.
Qed.

Lemma str_truthy_nonempty (s : string) : s <> "" -> str_truthy s = true.
Proof. destruct s; [congruence | reflexivity]. Qed.

Lemma ascii_upper_keeps_key (s : string) :
  ascii_upper s ∈ table_keys -> s <> "".
Proof.
  intros Hin ->. revert Hin. unfold table_keys. cbn [ascii_upper].
  rewrite !elem_of_cons, elem_of_nil. intuition discriminate.
Qed.

(** No member of [Object.prototype] is the upper-case form of a string. *)
Lemma upper_key_not_inherited (s : string) :
  string_forallb (fun c => negb (is_lower c)) (toUpperCase s) = true ->
  toUpperCase s ∉ Object_prototype_members.
Proof.
  intros Hup Hin. unfold Object_prototype_members in Hin.
  rewrite !elem_of_cons, elem_of_nil in Hin.
  repeat destruct Hin as [Hin | Hin]; try contradiction;
    rewrite Hin in Hup; vm_compute in Hup; discriminate.
Qed.

End StatusFacts.

Lemma upper_char_not_lower (c : ascii) : is_lower (upper_char c) = false.
Proof.
  destruct c as [[] [] [] [] [] [] [] []]; vm_compute; reflexivity.
Qed.

Lemma ascii_upper_no_lower (s : string) :
  string_forallb (fun c => negb (is_lower c)) (ascii_upper s) = true.
Proof.
  induction s as [| c r IH]; [reflexivity |].
  cbn [ascii_upper string_forallb].
  rewrite upper_char_not_lower, IH. reflexivity.
Qed.

(** C4. The normalizer is total and pure: absent and empty input give
    [pending]; a non-empty input is decided by its upper-case form alone,
    which gives the table's value when it is one of the nine keys and
    [unknown] otherwise; hence an input in any letter case whose ASCII
    upper-casing is a key gets that key's value; and the lookup never
    reaches a member inherited from [Object.prototype], so the result is
    always a [DeliveryStatus]. *)
Theorem mapTrack123Status_spec `{Platform} :
  (forall s,
     string_forallb (fun c => negb (is_lower c)) (toUpperCase s) = true) ->
  (forall s,
     string_forallb is_ascii s = true -> toUpperCase s = ascii_upper s) ->
  mapTrack123Status None = pending /\
  mapTrack123Status (Some "") = pending /\
  (forall s, s <> "" ->
     mapTrack123Status (Some s) = table_value (toUpperCase s)) /\
  (forall s, s <> "" -> toUpperCase s ∉ table_keys ->
     mapTrack123Status (Some s) = unknown) /\
  (forall s, string_forallb is_ascii s = true -> ascii_upper s ∈ table_keys ->
     mapTrack123Status (Some s) = table_value (ascii_upper s)) /\
  (forall s, toUpperCase s ∉ Object_prototype_members).
Proof.
  intros Hno_lower Hascii.
  assert (Hmain : forall s, s <> "" ->
            mapTrack123Status (Some s) = table_value (toUpperCase s)).
  { intros s Hs. unfold mapTrack123Status.
    rewrite (str_truthy_nonempty s Hs). apply statusMap_table. }
  repeat split.
  - exact Hmain.
  - intros s Hs Hk. rewrite (Hmain s Hs). apply table_value_unknown, Hk.
  - intros s Has Hk. rewrite (Hmain s (ascii_upper_keeps_key s Hk)).
    rewrite (Hascii s Has). reflexivity.
  - intros s. apply upper_key_not_inherited, Hno_lower.
Qed.

(** The table, entry by entry, on the reference host and in mixed case. *)
Lemma mapTrack123Status_witness :
  let P := RefPlatform.host 0 in
  @mapTrack123Status P None = pending /\
  @mapTrack123Status P (Some "") = pending /\
  (forall s, s <> "" ->
     @mapTrack123Status P (Some s) = table_value (@toUpperCase P s)) /\
  (forall s, s <> "" -> @toUpperCase P s ∉ table_keys ->
     @mapTrack123Status P (Some s) = unknown) /\
  (forall s, string_forallb is_ascii s = true -> ascii_upper s ∈ table_keys ->
     @mapTrack123Status P (Some s) = table_value (ascii_upper s)) /\
  (forall s, @toUpperCase P s ∉ Object_prototype_members).
Proof.
  apply (@mapTrack123Status_spec (RefPlatform.host 0)).
  - exact ascii_upper_no_lower.
  - intros s _. reflexivity.
Defined.

Example mapTrack123Status_examples :
  let P := RefPlatform.host 0 in
  map (@mapTrack123Status P)
      [Some "PENDING"; Some "no_found"; Some "Info_Received"; Some "in_transit";
       Some "OUT_for_DELIVERY"; Some "Delivered"; Some "exception";
       Some "Failed_Attempt"; Some "eXpIrEd"; Some "garbage"; Some ""; None]
  = [pending; pending; info_received; in_transit; out_for_delivery; delivered;
     exception; failed_attempt; expired; unknown; pending; pending].
Proof. vm_compute. reflexivity. Qed.

(* ===================================================================== *)
(** * The resolver *)
(* ===================================================================== *)

Section ResolverFacts.
Import Track123.
Context `{Platform} (G : Gateway).

Lemma bind_ok {A B} (m : M A) (f : A -> M B) w a w' :
  m w = (Ok a, w') -> (m ≫= f) w = f a w'.
Proof. intros Hm. unfold mbind, M_bind. rewrite Hm. reflexivity. Qed.

Lemma bind_throw {A B} (m : M A) (f : A -> M B) w e w' :
  m w = (Throw e, w') -> (m ≫= f) w = (Throw e, w').
Proof. intros Hm. unfold mbind, M_bind. rewrite Hm. reflexivity. Qed.

Lemma request_ok {T} (answer : list Event -> HttpResult T) ev w status body :
  answer (trace w) = Response status body -> response_ok status = true ->
  request answer ev w = (Ok body, logged ev w).
Proof.
  intros Hanswer Hok. unfold request, history, emit, mbind, M_bind, mret, M_ret.
  rewrite Hanswer, Hok. reflexivity.
Qed.

Lemma request_fails {T} (answer : list Event -> HttpResult T) ev w :
  match answer (trace w) with
  | Rejected _ => True
  | Response status _ => response_ok status = false
  end ->
  exists e, request answer ev w = (Throw e, logged ev w).
Proof.
  intros Hanswer. unfold request, history, emit, mbind, M_bind, throw.
  destruct (answer (trace w)) as [message | status body].
  - eauto.
  - rewrite Hanswer. eauto.
Qed.


Lemma or_str_some (a b : string) :
  or_str (Some a) b = if decide (a = "") then b else a.
Proof. destruct a; reflexivity. Qed.

Lemma mapTrack123Status_normalized (raw : option string) :
  mapTrack123Status raw = ResolverSpec.normalized_status raw.
Proof.
  unfold mapTrack123Status, ResolverSpec.normalized_status.
  destruct raw as [[| ch s] |]; [reflexivity | | reflexivity].
  cbn [str_truthy]. apply statusMap_table.
Qed.

(** What [mapToTracking] builds, and what the nickname override keeps of
    it: every field, by the words of the specification. *)
Lemma with_nickname_normalizes uuid now c nickname :
  ResolverSpec.normalizes uuid now c nickname
    (with_nickname nickname (mapToTracking_with uuid now c)).
Proof.
  assert (Hfirst : ResolverSpec.normalizes uuid now c None
                     (mapToTracking_with uuid now c)).
  { unfold ResolverSpec.normalizes, mapToTracking_with, createTracking.
    cbn [Tracking.id Tracking.trackingNumber Tracking.nickname
         Tracking.carrier Tracking.status Tracking.events
         Tracking.estimatedDelivery Tracking.transitDays Tracking.createdAt
         Tracking.updatedAt CreateParams.trackingNumber CreateParams.nickname
         CreateParams.carrier CreateParams.status CreateParams.events
         CreateParams.transitDays default from_option id].
    split; [reflexivity |]. split; [reflexivity |].
    split; [rewrite or_str_some; destruct (decide _) as [-> | _];
            reflexivity |].
    split.
    { unfold ResolverSpec.carrier_of. cbn [Carrier.code Carrier.name
        Carrier.logo Carrier.trackingUrl].
      destruct (TrackingContent.localLogisticsInfo c) as [logistic |];
        cbn [fmap option_fmap option_map default from_option id];
        [| repeat split; reflexivity].
      rewrite !or_str_some.
      destruct (decide (LocalLogisticsInfo.courierCode logistic = ""));
        repeat split; reflexivity. }
    split; [apply mapTrack123Status_normalized |].
    split; [| repeat split; reflexivity].
    induction (default [] (TrackingContent.localLogisticsInfo c
                             ≫= LocalLogisticsInfo.trackingDetails))
      as [| detail details IH]; constructor; [| exact IH].
    unfold ResolverSpec.event_of.
    cbn [TrackingEvent.timestamp TrackingEvent.location
         TrackingEvent.description TrackingEvent.status].
    split; [reflexivity |]. split; [| split; [reflexivity |
      apply mapTrack123Status_normalized]].
    destruct (TrackingDetail.location detail) as [[| ch s] |]; reflexivity. }
  destruct nickname as [[| ch n] |]; cbn [with_nickname str_truthy];
    [exact Hfirst | | exact Hfirst].
  destruct Hfirst as (Hid & Hnumber & _ & Hrest).
  unfold ResolverSpec.normalizes.
  cbn [Tracking.id Tracking.trackingNumber Tracking.nickname
       Tracking.carrier Tracking.status Tracking.events
       Tracking.estimatedDelivery Tracking.transitDays Tracking.createdAt
       Tracking.updatedAt].
  split; [exact Hid |]. split; [exact Hnumber |]. split; [| exact Hrest].
  reflexivity.
Qed.

Lemma getTrackings_no_match tns w :
  no_match (query_response G (trace w) tns) ->
  getTrackings G tns w = (Ok [], logged (query_event tns) w).
Proof.
  unfold no_match, getTrackings. intros Hno.
  destruct (query_response G (trace w) tns) as [| status body] eqn:Hq;
    [contradiction |].
  destruct Hno as [Hok Hbody].
  erewrite bind_ok;
    [| apply (request_ok (fun past => query_response G past tns) _ _ _ _ Hq
          Hok)].
  destruct (String.eqb_spec (BaseResponse.code body) "00000") as
    [Hcode | Hcode];
    cbn [negb]; [| reflexivity].
  destruct Hbody as [Hne | [-> | ->]]; [congruence | reflexivity | reflexivity].
Qed.

Lemma mapToTracking_run c w :
  mapToTracking G c w
  = (Ok (mapToTracking_with (uuid_at G (created w)) (now_at G (created w)) c),
     {| trace := trace w; created := S (created w) |}).
Proof. reflexivity. Qed.

Lemma mapM_mapToTracking l w :
  exists ts,
    mapM (mapToTracking G) l w
    = (Ok ts, {| trace := trace w; created := created w + length l |}) /\
    length ts = length l /\
    head ts = mapToTracking_with (uuid_at G (created w)) (now_at G (created w))
      <$> head l.
Proof.
  revert w. induction l as [| c cs IH]; intros w.
  - exists []. cbn. rewrite Nat.add_0_r. destruct w; auto.
  - destruct (IH {| trace := trace w; created := S (created w) |}) as
      (ts & Hrun & Hlen & _).
    exists (mapToTracking_with (uuid_at G (created w)) (now_at G (created w)) c
        :: ts).
    split; [| split; [cbn; congruence | reflexivity]].
    cbn [mapM]. erewrite bind_ok; [| apply mapToTracking_run].
    erewrite bind_ok; [| exact Hrun].
    unfold mret, M_ret. cbn [trace created length]. do 2 f_equal. lia.
Qed.

Lemma getTrackings_matches tns w c cs :
  matches (query_response G (trace w) tns) c cs ->
  exists ts,
    getTrackings G tns w
    = (Ok (mapToTracking_with (uuid_at G (created w)) (now_at G (created w)) c
          :: ts),
       {| trace := trace w ++ [query_event tns];
          created := created w + S (length cs) |}).
Proof.
  unfold matches, getTrackings. intros Hm.
  destruct (query_response G (trace w) tns) as [| status body] eqn:Hq;
    [contradiction |].
  destruct Hm as (Hok & Hcode & Hcontent).
  erewrite bind_ok;
    [| apply (request_ok (fun past => query_response G past tns) _ _ _ _ Hq
          Hok)].
  rewrite Hcode, Hcontent, String.eqb_refl. cbn [negb].
  destruct (mapM_mapToTracking (c :: cs) (logged (query_event tns) w))
    as (ts & Hrun & Hlen & Hhead).
  rewrite Hrun. destruct ts as [| t ts]; [discriminate |].
  cbn in Hhead. injection Hhead as ->. exists ts. reflexivity.
Qed.

Lemma registerTracking_ok tn w :
  registered (import_response G (trace w) tn) ->
  registerTracking G tn w = (Ok tt, logged (import_event tn) w).
Proof.
  unfold registered, registerTracking. intros Hreg.
  destruct (import_response G (trace w) tn) as [| status body] eqn:Hq;
    [contradiction |].
  destruct Hreg as [Hok Hcode].
  erewrite bind_ok;
    [| apply (request_ok (fun past => import_response G past tn) _ _ _ _ Hq
          Hok)].
  rewrite Hcode. reflexivity.
Qed.

Lemma registerTracking_fails tn w :
  registration_failed (import_response G (trace w) tn) ->
  exists e, registerTracking G tn w = (Throw e, logged (import_event tn) w).
Proof.
  unfold registration_failed, registerTracking. intros Hfail.
  destruct (import_response G (trace w) tn) as [message | status body] eqn:Hq.
  - destruct (request_fails (fun past => import_response G past tn)
        (import_event tn) w) as [e He].
    { rewrite Hq. exact I. }
    exists e. apply bind_throw, He.
  - destruct (response_ok status) eqn:Hok.
    + destruct Hfail as [? | Hcode]; [discriminate |].
      erewrite bind_ok;
        [| apply (request_ok (fun past => import_response G past tn) _ _ _ _ Hq
              Hok)].
      destruct (String.eqb_spec (BaseResponse.code body) "00000");
        [contradiction |].
      cbn [negb]. eexists. reflexivity.
    + destruct (request_fails (fun past => import_response G past tn)
          (import_event tn) w) as [e He].
      { rewrite Hq. exact Hok. }
      exists e. apply bind_throw, He.
Qed.

Lemma getTrackings_throws tns w :
  match query_response G (trace w) tns with
  | Rejected _ => True
  | Response status _ => response_ok status = false
  end ->
  exists e, getTrackings G tns w = (Throw e, logged (query_event tns) w).
Proof.
  intros Hq.
  destruct (request_fails (fun past => query_response G past tns)
              (query_event tns) w Hq) as [e He].
  exists e. unfold getTrackings. apply bind_throw, He.
Qed.

(** X26. Unknown at first, found once registered: when the first query
    reports no match, the registration goes through and the second query
    reports matches, instantTrack returns the first match of the second
    query normalized into a Tracking, field by field: id, tracking number,
    carrier with its fallbacks, status and events through the normalizer,
    transit days and dates, and as nickname the override when one is
    supplied and not empty, the tracking number otherwise.  It does so
    after exactly one registration, one 500 ms wait and one re-query. *)
Lemma instantTrack_found_after_registration w tn nickname c cs :
  no_match (query_response G (trace w) [tn]) ->
  registered (import_response G (trace w ++ [query_event [tn]]) tn) ->
  matches (query_response G
             (trace w ++ [query_event [tn]; import_event tn; EvTimeout 500])
               [tn])
          c cs ->
  exists t w',
    instantTrack G tn nickname w = (Ok t, w') /\
    ResolverSpec.normalizes (uuid_at G (created w)) (now_at G (created w)) c
      nickname t /\
    t = with_nickname nickname
          (mapToTracking_with (uuid_at G (created w)) (now_at G (created w))
             c) /\
    trace w' = (trace w ++ [query_event [tn]; import_event tn; EvTimeout 500;
                           query_event [tn]])%list.
Proof.
  intros Hfirst Hreg Hsecond.
  set (w3 := logged (EvTimeout 500)
               (logged (import_event tn) (logged (query_event [tn]) w))).
  destruct (getTrackings_matches [tn] w3 c cs) as (ts & Hrun).
  { subst w3. cbn [trace logged]. rewrite <- !app_assoc. exact Hsecond. }
  eexists _, _. unfold instantTrack.
  erewrite bind_ok; [| apply getTrackings_no_match, Hfirst].
  cbn [length Nat.eqb].
  erewrite bind_ok.
  2:{ unfold try_catch. erewrite bind_ok; [| apply registerTracking_ok, Hreg].
      erewrite bind_ok; [| reflexivity].
      fold w3. rewrite Hrun. reflexivity. }
  unfold mret, M_ret. split; [reflexivity |].
  split; [apply with_nickname_normalizes |]. split; [reflexivity |].
  subst w3. cbn [trace logged]. rewrite <- !app_assoc. reflexivity.
Qed.

(** The [catch] also takes a re-query that throws: the resolver then fails
    with the not-found error, not with the error of the request. *)
Lemma instantTrack_requery_throws w tn nickname :
  no_match (query_response G (trace w) [tn]) ->
  registered (import_response G (trace w ++ [query_event [tn]]) tn) ->
  match query_response G
          (trace w ++ [query_event [tn]; import_event tn; EvTimeout 500]) [tn]
  with
  | Rejected _ => True
  | Response status _ => response_ok status = false
  end ->
  exists w',
    instantTrack G tn nickname w =
      (Throw (mkError "Tracking info not found"), w').
Proof.
  intros Hfirst Hreg Hsecond.
  set (w3 := logged (EvTimeout 500)
               (logged (import_event tn) (logged (query_event [tn]) w))).
  destruct (getTrackings_throws [tn] w3) as [e He].
  { subst w3. cbn [trace logged]. rewrite <- !app_assoc. exact Hsecond. }
  eexists. unfold instantTrack.
  erewrite bind_ok; [| apply getTrackings_no_match, Hfirst].
  cbn [length Nat.eqb].
  erewrite bind_ok.
  2:{ unfold try_catch. erewrite bind_ok; [| apply registerTracking_ok, Hreg].
      erewrite bind_ok; [| reflexivity].
      fold w3. rewrite He. reflexivity. }
  reflexivity.
Qed.

(** A first query that throws is not caught. *)
Lemma instantTrack_first_query_throws w tn nickname :
  match query_response G (trace w) [tn] with
  | Rejected _ => True
  | Response status _ => response_ok status = false
  end ->
  exists e, instantTrack G tn nickname w =
    (Throw e, logged (query_event [tn]) w).
Proof.
  intros Hq. destruct (getTrackings_throws [tn] w Hq) as [e He].
  exists e. unfold instantTrack. apply bind_throw, He.
Qed.

(** C7. When the first query returns one or more matches, [instantTrack]
    returns the first of them normalized into a Tracking, and the result is
    pinned field by field: its id is the fresh UUID, its tracking number
    the match's [trackNo], its carrier the match's courier code and English
    name with their fallbacks, its status and the status of each event the
    normalizer's value, one event per tracking detail in order, the match's
    [transitDays], no estimated delivery, both dates the current one; its
    nickname is the override when one is supplied and not empty, and the
    tracking number when none is supplied or the one supplied is empty.
    This after exactly one request, the query: the registration is never
    called. *)
Theorem instantTrack_known w tn nickname c cs :
  matches (query_response G (trace w) [tn]) c cs ->
  let first :=
    mapToTracking_with (uuid_at G (created w)) (now_at G (created w)) c in
  exists t w',
    instantTrack G tn nickname w = (Ok t, w') /\
    ResolverSpec.normalizes (uuid_at G (created w)) (now_at G (created w)) c
      nickname t /\
    t = with_nickname nickname first /\
    trace w' = (trace w ++ [query_event [tn]])%list /\
    List.filter is_registration (drop (length (trace w)) (trace w')) = [] /\
    (forall n, nickname = Some n -> n <> "" -> Tracking.nickname t = n) /\
    (nickname = None \/ nickname = Some "" -> t = first) /\
    Tracking.trackingNumber t = TrackingContent.trackNo c /\
    Tracking.status t
    = mapTrack123Status (Some (TrackingContent.transitStatus c)).
Proof.
  intros Hm first.
  destruct (getTrackings_matches [tn] w c cs Hm) as (ts & Hrun).
  pose proof (with_nickname_normalizes (uuid_at G (created w))
                (now_at G (created w)) c nickname) as Hnorm.
  fold first in Hnorm.
  exists (with_nickname nickname first). eexists. unfold instantTrack.
  erewrite bind_ok; [| exact Hrun]. cbn [length Nat.eqb].
  unfold mbind at 1, M_bind, mret, M_ret.
  split; [reflexivity |]. cbn [trace].
  split; [exact Hnorm |].
  split; [reflexivity |].
  split; [reflexivity |].
  split; [rewrite drop_app_length; reflexivity |].
  destruct Hnorm as (_ & Hnumber & Hnick & _ & Hstatus & _).
  split; [| split; [| split]].
  - intros n -> Hn. rewrite Hnick. destruct (decide (n = "")); congruence.
  - intros [-> | ->]; reflexivity.
  - exact Hnumber.
  - rewrite Hstatus. symmetry. apply mapTrack123Status_normalized.
Qed.

(** C6. When the gateway reports no match on the first query and again on
    the re-query that follows the registration, [instantTrack] fails with
    the not-found error, having sent the query, the registration, waited
    500 ms and sent the query once more, and nothing after that. *)
Theorem instantTrack_not_found w tn nickname :
  let query := query_event [tn] in
  let registration := import_event tn in
  no_match (query_response G (trace w) [tn]) ->
  registered (import_response G (trace w ++ [query]) tn) ->
  no_match
    (query_response G (trace w ++ [query; registration; EvTimeout 500]) [tn]) ->
  exists w',
    instantTrack G tn nickname w
    = (Throw (mkError "Tracking info not found"), w') /\
    trace w'
    = (trace w ++ [query; registration; EvTimeout 500; query])%list /\
    length (List.filter is_query (drop (length (trace w)) (trace w'))) = 2.
Proof.
  intros query registration Hfirst Hreg Hsecond. eexists.
  unfold instantTrack.
  erewrite bind_ok; [| apply getTrackings_no_match, Hfirst].
  cbn [length Nat.eqb].
  erewrite bind_ok.
  2:{ unfold try_catch.
      erewrite bind_ok; [| apply registerTracking_ok, Hreg].
      erewrite bind_ok; [| reflexivity].
      rewrite getTrackings_no_match; [reflexivity |].
      cbn [trace logged]. rewrite <- !app_assoc. exact Hsecond. }
  unfold throw. split; [reflexivity |].
  cbn [trace logged]. rewrite <- !app_assoc. cbn [app].
  split; [reflexivity |]. rewrite drop_app_length. reflexivity.
Qed.

(** C1, amended. When the first query returns no match and the registration
    fails (a rejected request, a non-2xx status, or a code other than the
    success sentinel), the failure is not propagated: [instantTrack] skips
    the wait and the re-query and fails with the not-found error, having
    sent the query and the registration only. *)
Theorem instantTrack_registration_fails w tn nickname :
  no_match (query_response G (trace w) [tn]) ->
  registration_failed
    (import_response G (trace w ++ [query_event [tn]]) tn) ->
  exists w',
    instantTrack G tn nickname w
    = (Throw (mkError "Tracking info not found"), w') /\
    trace w' = (trace w ++ [query_event [tn]; import_event tn])%list.
Proof.
  intros Hfirst Hfail.
  destruct (registerTracking_fails tn (logged (query_event [tn]) w) Hfail)
    as [e He].
  eexists. unfold instantTrack.
  erewrite bind_ok; [| apply getTrackings_no_match, Hfirst].
  cbn [length Nat.eqb].
  erewrite bind_ok.
  2:{ unfold try_catch. erewrite bind_throw; [| exact He]. reflexivity. }
  unfold throw. split; [reflexivity |].
  cbn [trace logged]. rewrite <- !app_assoc. reflexivity.
Qed.

End ResolverFacts.

Section ResolverExamples.
Import Track123 Samples.

Lemma instantTrack_known_witness :
  exists t w',
    @instantTrack bangkok knows "TH0001" (Some "gift") start = (Ok t, w') /\
    trace w' = [query_event ["TH0001"]] /\
    Tracking.id t = "uuid-0" /\
    Tracking.trackingNumber t = "TH0001" /\
    Tracking.nickname t = "gift" /\
    Carrier.code (Tracking.carrier t) = "kerry" /\
    Carrier.name (Tracking.carrier t) = "Kerry Express" /\
    Tracking.status t = delivered /\
    length (Tracking.events t) = 1 /\
    Tracking.transitDays t = Some 2%float /\
    Tracking.createdAt t = jan22.
Proof.
  destruct (@instantTrack_known bangkok knows start "TH0001" (Some "gift")
              TH0001 [])
    as (t & w' & Hrun & Hnorm & _ & Htrace & _).
  - vm_compute. auto.
  - destruct Hnorm as (Hid & Hnumber & Hnick & (Hcode & Hname & _) & Hstatus
                       & Hevents & _ & Hdays & Hcreated & _).
    exists t, w'.
    split; [exact Hrun |]. split; [exact Htrace |].
    split; [exact Hid |]. split; [exact Hnumber |]. split; [exact Hnick |].
    split; [exact Hcode |]. split; [exact Hname |]. split; [exact Hstatus |].
    split; [symmetry; exact (Forall2_length _ _ _ Hevents) |].
    split; [exact Hdays | exact Hcreated].
Defined.

Lemma instantTrack_not_found_witness :
  exists w',
    @instantTrack bangkok never_finds "TH0001" None start
    = (Throw (mkError "Tracking info not found"), w') /\
    trace w'
    = [query_event ["TH0001"]; import_event "TH0001"; EvTimeout 500;
       query_event ["TH0001"]].
Proof.
  destruct (@instantTrack_not_found bangkok never_finds start "TH0001" None)
    as (w' & Hrun & Htrace & _).
  - vm_compute. auto.
  - vm_compute. auto.
  - vm_compute. auto.
  - exists w'. split; [exact Hrun | exact Htrace].
Defined.

(** C1, as the specification states it, fails: a gateway that does not know
    the parcel and refuses the registration is asked once and never again,
    and no timer is set. *)
Lemma instantTrack_requery_counterexample :
  let run := @instantTrack bangkok refuses "TH0001" None start in
  no_match (query_response refuses [] ["TH0001"]) /\
  registration_failed
    (import_response refuses [query_event ["TH0001"]] "TH0001") /\
  ~ (EvTimeout 500 ∈ trace run.2 /\
     length (List.filter is_query (trace run.2)) = 2).
Proof.
  split; [vm_compute; auto |].
  split; [vm_compute; right; discriminate |].
  vm_compute. intros [_ Hcount]. discriminate.
Qed.

Lemma instantTrack_registration_fails_witness :
  exists w',
    @instantTrack bangkok refuses "TH0001" None start
    = (Throw (mkError "Tracking info not found"), w') /\
    trace w' = [query_event ["TH0001"]; import_event "TH0001"].
Proof.
  apply (@instantTrack_registration_fails bangkok refuses start "TH0001"
           None).
  - vm_compute. auto.
  - vm_compute. right. discriminate.
Defined.

(** Unknown at first and found once registered. *)
Example instantTrack_finds_once_registered :
  exists t w',
    @instantTrack bangkok finds_once_registered "TH0001" None start
    = (Ok t, w') /\
    Tracking.trackingNumber t = "TH0001" /\
    Tracking.status t = delivered /\
    trace w'
    = [query_event ["TH0001"]; import_event "TH0001"; EvTimeout 500;
       query_event ["TH0001"]].
Proof. eexists _, _. vm_compute. auto. Qed.

End ResolverExamples.

(* ===================================================================== *)
(** * The repository: reads *)
(* ===================================================================== *)

Section ReadFacts.
Import Storage.
Context `{Platform}.

(** C10. A read finds nothing to raise: when the key is absent from the
    backing store, or holds text that [JSON.parse] rejects, [getTrackings]
    returns the empty array. *)
Theorem getTrackings_absent_or_unparsable (ls : LocalStorage) :
  (ls !! STORAGE_KEY = None \/
   exists data, ls !! STORAGE_KEY = Some data /\ JSON_parse data = None) ->
  getTrackings ls = [].
Proof.
  intros [Habsent | (data & Hdata & Hparse)]; unfold getTrackings.
  - rewrite Habsent. reflexivity.
  - rewrite Hdata, Hparse. destruct (negb (str_truthy data)); reflexivity.
Qed.

(** The other ways the [try] block can end in the [catch]: an empty string
    under the key, a document that is not an array, and an element whose
    rehydration raises. *)
Lemma getTrackings_empty_text (ls : LocalStorage) :
  ls !! STORAGE_KEY = Some "" -> getTrackings ls = [].
Proof. intros Hls. unfold getTrackings. rewrite Hls. reflexivity. Qed.

Lemma getTrackings_not_array (ls : LocalStorage) data parsed :
  ls !! STORAGE_KEY = Some data ->
  JSON_parse data = Some parsed ->
  as_array parsed = None ->
  getTrackings ls = [].
Proof.
  intros Hls Hparse Harr. unfold getTrackings.
  rewrite Hls, Hparse, Harr. destruct (negb (str_truthy data)); reflexivity.
Qed.

Lemma getTrackings_rehydrate_raises (ls : LocalStorage) data items :
  ls !! STORAGE_KEY = Some data ->
  JSON_parse data = Some (VArr items) ->
  mapM rehydrateTracking items = None ->
  getTrackings ls = [].
Proof.
  intros Hls Hparse Hre. unfold getTrackings.
  rewrite Hls, Hparse. cbn [as_array mbind option_bind]. rewrite Hre.
  destruct (negb (str_truthy data)); reflexivity.
Qed.

End ReadFacts.

Lemma getTrackings_absent_or_unparsable_witness :
  @Storage.getTrackings Samples.bangkok ∅ = [] /\
  @Storage.getTrackings Samples.bangkok
     {[ Storage.STORAGE_KEY := "[{not json" ]} = [].
Proof.
  split.
  - apply (@getTrackings_absent_or_unparsable Samples.bangkok ∅).
    left. reflexivity.
  - apply (@getTrackings_absent_or_unparsable Samples.bangkok
             {[ Storage.STORAGE_KEY := "[{not json" ]}).
    right. exists "[{not json". split; vm_compute; reflexivity.
Defined.

(** Rows that parse but do not rehydrate empty the whole read. *)
Example getTrackings_null_row :
  @Storage.getTrackings Samples.bangkok
     {[ Storage.STORAGE_KEY := "[null]" ]} = [].
Proof. vm_compute. reflexivity. Qed.

(* ===================================================================== *)
(** * The repository: through JSON and back *)
(* ===================================================================== *)

Section RoundTrip.
Import Storage.
Context `{Platform}.

Lemma status_of_name_name s : status_of_name (status_name s) = Some s.
Proof. destruct s; reflexivity. Qed.

Lemma rehydrateEvent_roundtrip e :
  survives (TrackingEvent.timestamp e) ->
  exists v, rehydrateEvent (jsonify (TrackingEvent_to_value e)) = Some v /\
            value_to_TrackingEvent v = Some e.
Proof.
  intros (t & Ht & _ & Hnew). destruct e as [ts loc desc st]. cbn in Ht.
  subst ts.
  eexists. split.
  - cbn. reflexivity.
  - cbn -[status_of_name status_name]. rewrite Hnew.
    cbn -[status_of_name status_name]. rewrite status_of_name_name. reflexivity.
Qed.

Lemma rehydrateEvents_roundtrip es :
  Forall survives (map TrackingEvent.timestamp es) ->
  exists vs,
    mapM rehydrateEvent (map jsonify (map TrackingEvent_to_value es))
    = Some vs /\
    mapM value_to_TrackingEvent vs = Some es.
Proof.
  induction es as [| e es IH]; cbn [map]; intros Hall.
  - exists []. split; reflexivity.
  - apply Forall_cons in Hall as [He Hes].
    destruct (rehydrateEvent_roundtrip e He) as (v & Hv & Hv').
    destruct (IH Hes) as (vs & Hvs & Hvs').
    exists (v :: vs). split.
    + cbn [mapM]. rewrite Hv. cbn [mbind option_bind]. rewrite Hvs. reflexivity.
    + cbn [mapM]. rewrite Hv'. cbn [mbind option_bind]. rewrite Hvs'.
      reflexivity.
Qed.

Lemma value_to_Carrier_jsonify c :
  value_to_Carrier (jsonify (Carrier_to_value c)) = Some c.
Proof. destruct c as [code name [logo |] [url |]]; reflexivity. Qed.

Lemma jsonify_Tracking_to_value t :
  jsonify (Tracking_to_value t)
  = VObj ([("id", VStr (Tracking.id t));
           ("trackingNumber", VStr (Tracking.trackingNumber t));
           ("nickname", VStr (Tracking.nickname t));
           ("carrier", jsonify (Carrier_to_value (Tracking.carrier t)));
           ("status", VStr (status_name (Tracking.status t)));
           ("events", VArr
               (map jsonify (map TrackingEvent_to_value (Tracking.events t))))]
          ++ match Tracking.estimatedDelivery t with
             | Some d => [("estimatedDelivery", jsonify (VDate d))]
             | None => []
             end
          ++ match Tracking.transitDays t with
             | Some n => [("transitDays", jsonify (VNum n))]
             | None => []
             end
          ++ [("createdAt", jsonify (VDate (Tracking.createdAt t)));
              ("updatedAt", jsonify (VDate (Tracking.updatedAt t)))])%list.
Proof.
  destruct t as
    [id number nick carrier status events [d |] [n |] created updated];
    reflexivity.
Qed.

Lemma rehydrateTracking_roundtrip t :
  Forall survives (dates_of t) ->
  exists v, rehydrateTracking (jsonify (Tracking_to_value t)) = Some v /\
            value_to_Tracking v = Some (without_transitDays t).
Proof.
  rewrite jsonify_Tracking_to_value.
  destruct t as [id number nick carrier status events ed days created updated].
  unfold dates_of, without_transitDays.
  cbn [Tracking.id Tracking.trackingNumber Tracking.nickname Tracking.carrier
       Tracking.status Tracking.events Tracking.estimatedDelivery
       Tracking.transitDays Tracking.createdAt Tracking.updatedAt].
  intros Hall.
  apply Forall_cons in Hall as [(tc & -> & _ & Hc) Hall].
  apply Forall_cons in Hall as [(tu & -> & _ & Hu) Hall].
  apply Forall_app in Hall as [Hed Hes].
  destruct (rehydrateEvents_roundtrip events Hes) as (vs & Hvs & Hvs').
  pose proof (value_to_Carrier_jsonify carrier) as Hcar.
  pose proof (status_of_name_name status) as Hst.
  set (cv := jsonify (Carrier_to_value carrier)) in *.
  set (evs := map jsonify (map TrackingEvent_to_value events)) in *.
  set (sv := status_name status) in *.
  clearbody cv evs sv.
  destruct ed as [d |].
  - apply Forall_cons in Hed as [(te & -> & Hne & He) _].
    destruct days as [n |].
    all: eexists; split;
      [ cbn -[status_of_name value_to_Carrier]; rewrite Hvs;
        cbn -[status_of_name value_to_Carrier]; rewrite ?Hne; reflexivity
      | cbn -[status_of_name value_to_Carrier];
        rewrite Hcar, Hc, Hu, He, Hst;
        cbn -[status_of_name value_to_Carrier];
        rewrite Hvs'; reflexivity ].
  - destruct days as [n |].
    all: eexists; split;
      [ cbn -[status_of_name value_to_Carrier]; rewrite Hvs;
        cbn -[status_of_name value_to_Carrier]; reflexivity
      | cbn -[status_of_name value_to_Carrier];
        rewrite Hcar, Hc, Hu, Hst;
        cbn -[status_of_name value_to_Carrier];
        rewrite Hvs'; reflexivity ].
Qed.

(** Whatever was stored, what [rehydrateTracking] returns has no
    [transitDays]. *)
Lemma rehydrateTracking_drops_transitDays data v :
  rehydrateTracking data = Some v -> member "transitDays" v = VUndef.
Proof.
  unfold rehydrateTracking. intros Hv.
  repeat match type of Hv with
  | (?m ≫= _) = Some _ =>
      destruct m; cbn [mbind option_bind] in Hv; [| discriminate]
  end.
  injection Hv as <-. reflexivity.
Qed.

Lemma getTrackings_rehydrated ls v :
  v ∈ getTrackings ls -> exists data, rehydrateTracking data = Some v.
Proof.
  unfold getTrackings.
  destruct (ls !! STORAGE_KEY) as [data |]; [| intros Hin; inversion Hin].
  destruct (negb (str_truthy data)); [intros Hin; inversion Hin |].
  destruct (JSON_parse data) as [parsed |]; [| intros Hin; inversion Hin].
  destruct (as_array parsed) as [items |]; cbn [mbind option_bind];
    [| intros Hin; inversion Hin].
  destruct (mapM rehydrateTracking items) as [vs |] eqn:Hvs;
    [| intros Hin; inversion Hin].
  apply mapM_Some in Hvs. intros Hin.
  apply list_elem_of_lookup in Hin as [i Hi].
  destruct (Forall2_lookup_r _ _ _ _ _ Hvs Hi) as (d & _ & Hd). eauto.
Qed.

(** A tracking read from the store never has [transitDays]. *)
Lemma stored_transitDays_absent ls v t :
  v ∈ getTrackings ls -> value_to_Tracking v = Some t ->
  Tracking.transitDays t = None.
Proof.
  intros Hin Ht. destruct (getTrackings_rehydrated ls v Hin) as [data Hdata].
  pose proof (rehydrateTracking_drops_transitDays data v Hdata) as Hdrop.
  unfold value_to_Tracking in Ht. destruct v; try discriminate.
  rewrite Hdrop in Ht.
  change (as_optional as_number VUndef) with (Some (@None float)) in Ht.
  repeat match type of Ht with
  | (?m ≫= _) = Some _ =>
      destruct m; cbn [mbind option_bind] in Ht; [| discriminate]
  end.
  injection Ht as <-. reflexivity.
Qed.
(** Saving into an empty store and reading back: every field but
    [transitDays] returns, provided the codec carries the array and the
    dates. *)
Lemma saveTracking_then_getTrackings (ls : LocalStorage) (t : Tracking.t) :
  getTrackings ls = [] ->
  let text := JSON_stringify (VArr [Tracking_to_value t]) in
  str_truthy text = true ->
  JSON_parse text = Some (jsonify (VArr [Tracking_to_value t])) ->
  Forall survives (dates_of t) ->
  value_to_Tracking <$> getTrackings (saveTracking ls t)
  = [Some (without_transitDays t)].
Proof.
  intros Hempty text Htext Hparse Hdates.
  destruct (rehydrateTracking_roundtrip t Hdates) as (v & Hv & Hv').
  unfold saveTracking. rewrite Hempty.
  change (upsert [] t) with [Tracking_to_value t].
  unfold persist, getTrackings. rewrite lookup_insert_eq. fold text.
  rewrite Htext, Hparse. cbn [negb].
  change (jsonify (VArr [Tracking_to_value t]))
    with (VArr [jsonify (Tracking_to_value t)]).
  cbn [as_array mbind option_bind mapM]. rewrite Hv.
  cbn [mbind option_bind fmap option_fmap option_map mret option_ret list_fmap].
  rewrite Hv'. reflexivity.
Qed.

Lemma assoc_get_fresh {A} k (l : list (string * A)) :
  k ∉ map fst l -> assoc_get k l = None.
Proof.
  induction l as [| [k' x] r IH]; cbn; [reflexivity |].
  rewrite not_elem_of_cons. intros [Hne Hr].
  destruct (String.eqb_spec k k'); [congruence | apply IH, Hr].
Qed.

Lemma assoc_get_jsonify_props f k props :
  NoDup (map fst props) ->
  assoc_get k (jsonify_props f props)
  = match assoc_get k props with
    | Some VUndef | None => None
    | Some x => Some (f x)
    end.
Proof.
  induction props as [| [k' x] r IH]; intros Hnodup; [reflexivity |].
  cbn [map fst] in Hnodup. apply NoDup_cons in Hnodup as [Hfresh Hnodup].
  specialize (IH Hnodup). cbn [assoc_get].
  destruct (String.eqb_spec k k') as [-> | Hne].
  - destruct x; cbn [jsonify_props assoc_get]; rewrite ?String.eqb_refl; try
      reflexivity.
    rewrite IH, (assoc_get_fresh k' r Hfresh). reflexivity.
  - destruct x; cbn [jsonify_props assoc_get];
      try (destruct (String.eqb_spec k k'); [congruence |]); exact IH.
Qed.

Lemma member_jsonify props name :
  NoDup (map fst props) ->
  member name (jsonify (VObj props)) = reparsed (member name (VObj props)).
Proof.
  intros Hnodup. unfold member, jsonify. cbn [jsonify_with get_prop].
  rewrite (assoc_get_jsonify_props _ _ _ Hnodup).
  destruct (assoc_get name props) as [[] |]; reflexivity.
Qed.

Lemma rehydrateEvent_object props :
  exists v, rehydrateEvent (VObj props) = Some v /\ is_object v = true.
Proof. eexists. split; reflexivity. Qed.

Lemma rehydrateEvents_objects items :
  forallb is_object items = true ->
  exists vs, mapM rehydrateEvent items = Some vs /\ forallb is_object vs = true.
Proof.
  induction items as [| e r IH]; cbn [forallb]; intros Hall.
  - exists []. split; reflexivity.
  - apply andb_true_iff in Hall as [He Hr].
    destruct (IH Hr) as (vs & Hvs & Hobj).
    destruct e; try discriminate.
    destruct (rehydrateEvent_object props) as (v & Hv & Hvobj).
    exists (v :: vs). split.
    + cbn [mapM]. rewrite Hv. cbn [mbind option_bind]. rewrite Hvs. reflexivity.
    + cbn [forallb]. rewrite Hvobj, Hobj. reflexivity.
Qed.

Lemma rehydrateTracking_object props items :
  assoc_get "events" props = Some (VArr items) ->
  forallb is_object items = true ->
  exists v, rehydrateTracking (VObj props) = Some v /\
            storable v /\
            member "trackingNumber" v = member "trackingNumber" (VObj props).
Proof.
  intros Hevents Hobj.
  destruct (rehydrateEvents_objects items Hobj) as (vs & Hvs & Hvobj).
  eexists. split; [| split].
  - unfold rehydrateTracking. cbn [get_prop]. rewrite Hevents.
    cbn -[mapM rehydrateEvent]. rewrite Hvs. reflexivity.
  - eexists _, vs. split; [reflexivity |].
    split; [| split; [reflexivity | exact Hvobj]].
    apply (bool_decide_unpack _). vm_compute. exact I.
  - reflexivity.
Qed.

Lemma rehydrateTracking_storable data v :
  rehydrateTracking data = Some v -> storable v.
Proof.
  unfold rehydrateTracking. intros Hv.
  destruct (get_prop "events" data) as [raw |]; cbn [mbind option_bind] in Hv;
    [| discriminate].
  destruct (as_array raw) as [items |]; cbn [mbind option_bind] in Hv;
    [| discriminate].
  destruct (mapM rehydrateEvent items) as [vs |] eqn:Hvs; cbn
    [mbind option_bind] in Hv; [| discriminate].
  assert (Hobj : forallb is_object vs = true).
  { clear Hv. revert vs Hvs. induction items as [| e r IH]; intros vs Hvs.
    - cbn in Hvs. injection Hvs as <-. reflexivity.
    - cbn [mapM] in Hvs.
      destruct (rehydrateEvent e) as [v' |] eqn:He; cbn [mbind option_bind] in
        Hvs; [| discriminate].
      destruct (mapM rehydrateEvent r) as [vs' |]; cbn [mbind option_bind] in
        Hvs; [| discriminate].
      injection Hvs as <-. cbn [forallb]. rewrite (IH vs' eq_refl), andb_true_r.
      unfold rehydrateEvent in He.
      repeat match type of He with
      | (?m ≫= _) = Some _ => destruct m; cbn [mbind option_bind] in He;
        [| discriminate]
      end.
      injection He as <-. reflexivity. }
  repeat match type of Hv with
  | (?m ≫= _) = Some _ => destruct m; cbn [mbind option_bind] in Hv;
    [| discriminate]
  end.
  injection Hv as <-.
  eexists _, vs. split; [reflexivity |].
  split; [| split; [reflexivity | exact Hobj]].
  apply (bool_decide_unpack _). vm_compute. exact I.
Qed.

Lemma Tracking_to_value_storable t : storable (Tracking_to_value t).
Proof.
  eexists _, _. split; [reflexivity |]. split; [| split; [reflexivity |]].
  - apply (bool_decide_unpack _). vm_compute. exact I.
  - induction (Tracking.events t) as [| e r IH]; [reflexivity | exact IH].
Qed.

Lemma forallb_is_object_jsonify items :
  forallb is_object items = true -> forallb is_object (map jsonify items) =
    true.
Proof.
  induction items as [| e r IH]; cbn [forallb map]; [reflexivity |].
  intros Hall. apply andb_true_iff in Hall as [He Hr].
  rewrite (IH Hr), andb_true_r. destruct e; try discriminate. reflexivity.
Qed.

Lemma rehydrateTracking_jsonify v :
  storable v ->
  exists v', rehydrateTracking (jsonify v) = Some v' /\
             storable v' /\
             member "trackingNumber" v' = reparsed (member "trackingNumber" v).
Proof.
  intros (props & items & -> & Hnodup & Hevents & Hobj).
  destruct (rehydrateTracking_object
              (jsonify_props jsonify props) (map jsonify items))
    as (v' & Hv' & Hst & Hnum).
  - rewrite (assoc_get_jsonify_props _ _ _ Hnodup), Hevents. reflexivity.
  - apply forallb_is_object_jsonify, Hobj.
  - exists v'. split; [exact Hv' |]. split; [exact Hst |].
    rewrite Hnum. apply (member_jsonify props "trackingNumber" Hnodup).
Qed.

Lemma mapM_rehydrateTracking_jsonify vs :
  Forall storable vs ->
  exists vs', mapM rehydrateTracking (map jsonify vs) = Some vs' /\
              numbers vs' = map reparsed (numbers vs).
Proof.
  induction 1 as [| v vs Hv _ (vs' & Hvs' & Hnum)].
  - exists []. split; reflexivity.
  - destruct (rehydrateTracking_jsonify v Hv) as (v' & Hv' & _ & Hn).
    exists (v' :: vs'). split.
    + cbn [map mapM]. rewrite Hv'. cbn [mbind option_bind]. rewrite Hvs'.
      reflexivity.
    + unfold numbers in *. cbn [map]. rewrite Hn, Hnum. reflexivity.
Qed.

Lemma getTrackings_storable ls : Forall storable (getTrackings ls).
Proof.
  unfold getTrackings.
  destruct (ls !! STORAGE_KEY) as [data |]; [| constructor].
  destruct (negb (str_truthy data)); [constructor |].
  destruct (JSON_parse data) as [parsed |]; [| constructor].
  destruct (as_array parsed) as [items |]; cbn [mbind option_bind];
    [| constructor].
  destruct (mapM rehydrateTracking items) as [vs |] eqn:Hvs; [| constructor].
  revert vs Hvs. induction items as [| e r IH]; intros vs Hvs.
  - cbn in Hvs. injection Hvs as <-. constructor.
  - cbn [mapM] in Hvs.
    destruct (rehydrateTracking e) as [v |] eqn:He; cbn [mbind option_bind] in
      Hvs; [| discriminate].
    destruct (mapM rehydrateTracking r) as [vs' |]; cbn [mbind option_bind] in
      Hvs; [| discriminate].
    injection Hvs as <-.
    constructor; [eapply rehydrateTracking_storable, He | apply IH;
        reflexivity].
Qed.

Lemma upsert_storable vs t : Forall storable vs -> Forall storable
  (upsert vs t).
Proof.
  intros Hvs. unfold upsert.
  destruct (0 <=? findIndex (has_number (Tracking.trackingNumber t)) vs)%Z.
  - apply Forall_insert; [exact Hvs | apply Tracking_to_value_storable].
  - apply Forall_app. split; [exact Hvs |].
    constructor; [apply Tracking_to_value_storable | constructor].
Qed.

(** Reading back what [saveTracking] wrote: the tracking numbers are those
    written, as JSON carries them. *)
Lemma saveTracking_then_numbers (ls : LocalStorage) (t : Tracking.t) :
  let new := upsert (getTrackings ls) t in
  let text := JSON_stringify (VArr new) in
  str_truthy text = true ->
  JSON_parse text = Some (jsonify (VArr new)) ->
  numbers (getTrackings (saveTracking ls t)) = map reparsed (numbers new).
Proof.
  intros new text Htext Hparse.
  destruct (mapM_rehydrateTracking_jsonify new) as (vs' & Hvs' & Hnum).
  { apply upsert_storable, getTrackings_storable. }
  unfold saveTracking. fold new. unfold persist, getTrackings.
  rewrite lookup_insert_eq. fold text. rewrite Htext, Hparse. cbn [negb].
  change (jsonify (VArr new)) with (VArr (map jsonify new)).
  cbn [as_array mbind option_bind]. rewrite Hvs'. exact Hnum.
Qed.
End RoundTrip.

(** C2, on the code: a tracking saved with [transitDays] is read back
    without it, so the record read is not the record saved.  Every other
    field, including the dates of the events and [estimatedDelivery],
    returns. *)
Theorem saveTracking_round_trip_loses_transitDays :
  let P := Samples.bangkok in
  let saved := Samples.parcel1_again in
  let read := @Storage.getTrackings P (@Storage.saveTracking P ∅ saved) in
  Tracking.transitDays saved = Some 1%float /\
  Storage.value_to_Tracking <$> read =
    [Some (Storage.without_transitDays saved)] /\
  Storage.value_to_Tracking <$> read <> [Some saved].
Proof.
  intros P saved read.
  split; [reflexivity |].
  assert (Hread : Storage.value_to_Tracking <$> read
                  = [Some (Storage.without_transitDays saved)]).
  { vm_compute. reflexivity. }
  split; [exact Hread |].
  rewrite Hread. intros Heq.
  apply (f_equal (fun l => match l with
                           | [Some t] => Tracking.transitDays t
                           | _ => None
                           end)) in Heq.
  discriminate Heq.
Qed.

(* ===================================================================== *)
(** * The repository: save *)
(* ===================================================================== *)

Section SaveFacts.
Import Storage.
Context `{Platform}.

Lemma has_number_spec (s : string) (t : value) :
  has_number s t = true <-> member "trackingNumber" t = VStr s.
Proof.
  unfold has_number.
  destruct (member "trackingNumber" t); cbn [strict_equals];
    try (split; [discriminate | congruence]).
  rewrite String.eqb_eq. split; congruence.
Qed.

Lemma findIndex_from_found {A} (p : A -> bool) (l : list A) (i : Z) :
  (0 <= i)%Z -> (0 <= findIndex_from p l i)%Z ->
  exists x, l !! Z.to_nat (findIndex_from p l i - i) = Some x /\
            p x = true /\
            (i <= findIndex_from p l i)%Z.
Proof.
  revert i. induction l as [| y r IH]; intros i Hi Hfound; cbn in *; [lia |].
  destruct (p y) eqn:Hp.
  - exists y. replace (i - i)%Z with 0%Z by lia. cbn. auto with lia.
  - destruct (IH (i + 1)%Z ltac:(lia) Hfound) as (x & Hx & Hpx & Hle).
    exists x. repeat split; [| assumption | lia].
    replace (Z.to_nat (findIndex_from p r (i + 1) - i))
      with (S (Z.to_nat (findIndex_from p r (i + 1) - (i + 1)))) by lia.
    exact Hx.
Qed.

Lemma findIndex_from_missing {A} (p : A -> bool) (l : list A) (i : Z) :
  (0 <= i)%Z -> (findIndex_from p l i < 0)%Z ->
  Forall (fun x => p x = false) l.
Proof.
  revert i. induction l as [| y r IH]; intros i Hi Hnone; cbn in *;
    [constructor |].
  destruct (p y) eqn:Hp; [lia |].
  constructor; [assumption |]. apply (IH (i + 1)%Z); lia.
Qed.

Lemma reparsed_strings (l : list value) :
  Forall is_string l -> map reparsed l = l.
Proof.
  induction 1 as [| v l [s ->] _ IH]; [reflexivity |].
  cbn [map]. rewrite IH. reflexivity.
Qed.

(** C9. Saving keeps tracking numbers unique.  Let [old] be the stored
    collection as [saveTracking] reads it, with pairwise distinct tracking
    numbers, and [new] the collection it writes back under the key.  If the
    saved tracking's number occurs in [old], [new] is [old] with that one
    record replaced where it stood, so the size is unchanged; otherwise
    [new] is [old] with the record added at the end.  Either way the
    tracking numbers of [new] are pairwise distinct, and so are those of
    the collection read back afterwards, when the stored numbers are
    strings and the JSON codec carries the written array. *)
Theorem saveTracking_keeps_numbers_unique (ls : LocalStorage)
  (tracking : Tracking.t) :
  let old := getTrackings ls in
  let new := upsert old tracking in
  let number := VStr (Tracking.trackingNumber tracking) in
  let text := JSON_stringify (VArr new) in
  NoDup (numbers old) ->
  saveTracking ls tracking !! STORAGE_KEY = Some text /\
  (number ∈ numbers old ->
     length new = length old /\
     exists i previous,
       old !! i = Some previous /\
       member "trackingNumber" previous = number /\
       new = <[i := Tracking_to_value tracking]> old) /\
  (number ∉ numbers old ->
     new = (old ++ [Tracking_to_value tracking])%list) /\
  NoDup (numbers new) /\
  (Forall is_string (numbers old) ->
   str_truthy text = true ->
   JSON_parse text = Some (jsonify (VArr new)) ->
   numbers (getTrackings (saveTracking ls tracking))
   = numbers new).
Proof.
  intros old new number text Hnodup.
  split.
  { unfold saveTracking, persist. apply lookup_insert_eq. }
  assert (Hreread :
    Forall is_string (numbers old) ->
    Forall is_string (numbers new) ->
    str_truthy text = true ->
    JSON_parse text = Some (jsonify (VArr new)) ->
    numbers (getTrackings (saveTracking ls tracking))
    = numbers new).
  { intros _ Hstrings Htext Hparse.
    rewrite (saveTracking_then_numbers ls tracking Htext Hparse).
    apply reparsed_strings, Hstrings. }
  subst new. unfold upsert, findIndex in *.
  set (p := has_number (Tracking.trackingNumber tracking)) in *.
  destruct (Z.leb_spec 0 (findIndex_from p old 0)) as [Hfound | Hnone].
  - destruct (findIndex_from_found p old 0 ltac:(lia) Hfound)
      as (previous & Hlookup & Hp & _).
    rewrite Z.sub_0_r in Hlookup.
    apply has_number_spec in Hp.
    assert (Hsame : numbers
                      (<[Z.to_nat (findIndex_from p old 0)
                         := Tracking_to_value tracking]> old)
                    = numbers old).
    { unfold numbers. rewrite list_fmap_insert.
      apply list_insert_id. rewrite list_lookup_fmap, Hlookup. cbn.
      rewrite Hp. reflexivity. }
    split; [| split; [| split]].
    + intros _. split; [apply length_insert |]. eauto.
    + intros Hnot. exfalso. apply Hnot. unfold numbers.
      apply list_elem_of_fmap. exists previous.
      split; [rewrite Hp; reflexivity |].
      eapply list_elem_of_lookup_2, Hlookup.
    + rewrite Hsame. exact Hnodup.
    + intros Hstrings. apply Hreread; [exact Hstrings |].
      rewrite Hsame. exact Hstrings.
  - pose proof (findIndex_from_missing p old 0 ltac:(lia) Hnone) as Hall.
    assert (Hfresh : number ∉ numbers old).
    { unfold numbers. intros Hin.
      apply list_elem_of_fmap in Hin as (x & Hx & Hin).
      rewrite Forall_forall in Hall. specialize (Hall x Hin).
      subst number. symmetry in Hx. apply has_number_spec in Hx.
      subst p. congruence. }
    split; [| split; [| split]].
    + intros Hin. contradiction.
    + intros _. reflexivity.
    + unfold numbers. rewrite fmap_app. apply NoDup_app.
      split; [exact Hnodup | split].
      * intros x Hx Hx'. cbn in Hx'. apply list_elem_of_singleton in Hx'.
        subst x. apply Hfresh, Hx.
      * cbn. apply NoDup_singleton.
    + intros Hstrings. apply Hreread; [exact Hstrings |].
      unfold numbers in *. rewrite fmap_app. apply Forall_app.
      split; [exact Hstrings |].
      constructor; [eexists; reflexivity | constructor].
Qed.

End SaveFacts.

Lemma saveTracking_keeps_numbers_unique_witness :
  let P := Samples.bangkok in
  let ls := @Storage.saveTracking P
              (@Storage.saveTracking P ∅ Samples.parcel1) Samples.parcel2 in
  let old := @Storage.getTrackings P ls in
  let new := Storage.upsert old Samples.parcel1_again in
  length old = 2 /\ length new = 2 /\ NoDup (Storage.numbers new) /\
  Storage.numbers
    (@Storage.getTrackings P (@Storage.saveTracking P ls Samples.parcel1_again))
  = [VStr "TH0001"; VStr "TH0002"].
Proof.
  intros P ls old new.
  assert (Hold : Storage.numbers old = [VStr "TH0001"; VStr "TH0002"])
    by (vm_compute; reflexivity).
  assert (Hnew : Storage.numbers new = [VStr "TH0001"; VStr "TH0002"])
    by (vm_compute; reflexivity).
  destruct (@saveTracking_keeps_numbers_unique P ls Samples.parcel1_again)
    as (_ & Hreplace & _ & Hnodup & Hread).
  - fold old. rewrite Hold. apply NoDup_cons. split.
    + rewrite list_elem_of_singleton. discriminate.
    + apply NoDup_singleton.
  - split; [vm_compute; reflexivity |].
    split; [| split; [exact Hnodup |]].
    + apply Hreplace. fold old. rewrite Hold. apply elem_of_cons. left.
      reflexivity.
    + fold old new in Hread. rewrite Hread, Hnew; [reflexivity | | |].
      * fold old. rewrite Hold. repeat constructor; eexists; reflexivity.
      * vm_compute. reflexivity.
      * vm_compute. reflexivity.
Defined.

(* ===================================================================== *)
(** * The aggregator: courier distribution *)
(* ===================================================================== *)

Section DistributionFacts.
Import Analytics AggregatorSpec.

Lemma float_zero_add (x : float) : PrimFloat.ltb 0%float x = true ->
  PrimFloat.add 0%float x = x.
Proof.
  intros Hpos. apply Prim2SF_inj. rewrite add_spec.
  rewrite ltb_spec in Hpos.
  change (Prim2SF 0%float) with (S754_zero false) in *.
  unfold SF64add.
  destruct (Prim2SF x) as [s | s | | s m e]; cbn in *; try reflexivity; try
    discriminate.
Qed.

Lemma sum_snoc l x : AggregatorSpec.sum (l ++ [x])%list = PrimFloat.add
  (AggregatorSpec.sum l) x.
Proof. unfold AggregatorSpec.sum. rewrite fold_left_app. reflexivity. Qed.

Lemma assoc_get_alter (f : Entry.t -> Entry.t) k c counts :
  assoc_get c (alter_entry f k counts) =
  if String.eqb c k then f <$> assoc_get k counts else assoc_get c counts.
Proof.
  induction counts as [| [k' e] r IH]; cbn.
  - destruct (String.eqb c k); reflexivity.
  - destruct (String.eqb_spec k k') as [-> | Hk]; cbn.
    + destruct (String.eqb_spec c k') as [-> | Hc]; cbn; [reflexivity|].
      reflexivity.
    + destruct (String.eqb_spec c k') as [-> | Hc]; cbn.
      * destruct (String.eqb_spec k' k); [congruence | reflexivity].
      * exact IH.
Qed.

Lemma keys_alter (f : Entry.t -> Entry.t) k counts :
  map fst (alter_entry f k counts) = map fst counts.
Proof.
  induction counts as [| [k' e] r IH]; cbn; [reflexivity|].
  destruct (String.eqb k k'); cbn; [reflexivity | f_equal; exact IH].
Qed.

Lemma assoc_get_snoc {A} c k (e : A) counts :
  assoc_get c (counts ++ [(k, e)])%list =
  match assoc_get c counts with
  | Some x => Some x
  | None => if String.eqb c k then Some e else None
  end.
Proof.
  induction counts as [| [k' e'] r IH]; cbn; [reflexivity|].
  destruct (String.eqb c k'); [reflexivity | exact IH].
Qed.

Lemma group_snoc c l t :
  group c (l ++ [t])%list =
    (group c l ++ (if String.eqb (carrier_code t) c then [t] else []))%list.
Proof. unfold group. rewrite List.filter_app. cbn. destruct
  (String.eqb (carrier_code t) c); reflexivity. Qed.

Lemma first_occurrences_elem l x : x ∈ first_occurrences l <-> x ∈ l.
Proof.
  induction l as [| y r IH]; cbn; [reflexivity|].
  rewrite !elem_of_cons, <- IH. 
  rewrite list_elem_of_In, List.filter_In, <- list_elem_of_In.
  destruct (String.eqb_spec x y); cbn; intuition congruence.
Qed.

Lemma first_occurrences_snoc l x :
  first_occurrences (l ++ [x])%list =
  if bool_decide (x ∈ l) then first_occurrences l else
    (first_occurrences l ++ [x])%list.
Proof.
  induction l as [| y r IH]; cbn.
  - reflexivity.
  - rewrite IH. 
    destruct (bool_decide_reflect (x ∈ r)) as [Hin | Hnin].
    + rewrite bool_decide_eq_true_2 by (apply elem_of_cons; auto). reflexivity.
    + destruct (String.eqb_spec x y) as [-> | Hne].
      * rewrite bool_decide_eq_true_2 by (apply elem_of_cons; auto).
        rewrite List.filter_app. cbn. rewrite String.eqb_refl. cbn.
        rewrite app_nil_r. reflexivity.
      * rewrite bool_decide_eq_false_2 by (rewrite elem_of_cons; intuition).
        rewrite List.filter_app. cbn.
        destruct (String.eqb_spec x y); [congruence|]. cbn. reflexivity.
Qed.

Lemma entry_none l c : entry l c = None <-> group c l = [].
Proof. unfold entry. destruct (group c l); split; congruence. Qed.

Lemma group_nil l c : group c l = [] <-> c ∉ map carrier_code l.
Proof.
  unfold group. induction l as [| t r IH]; cbn.
  - split; [intros _; apply not_elem_of_nil | reflexivity].
  - rewrite not_elem_of_cons, <- IH.
    destruct (String.eqb_spec (carrier_code t) c) as [Heq | Hne].
    + split; [discriminate | intros [Hc _]; congruence].
    + split; [intros Hg; split; [congruence | exact Hg] | intros [_ Hg]; exact
          Hg].
Qed.

Lemma qualifies_positive t : qualifies t = true -> PrimFloat.ltb 0%float
  (transitDays_or_0 t) = true.
Proof. unfold qualifies. intros Hq. apply andb_true_iff in Hq. tauto. Qed.

Lemma tally_invariant l :
  map fst (fold_left tally l []) = first_occurrences (map carrier_code l) /\
  forall c, assoc_get c (fold_left tally l []) = entry l c.
Proof.
  induction l as [| t l [IHkeys IHget]] using rev_ind.
  - split; [reflexivity | intros c; reflexivity].
  - rewrite fold_left_app. cbn [fold_left].
    set (counts := fold_left tally l []) in *.
    unfold tally. fold (carrier_code t).
    rewrite map_app. cbn [map]. rewrite first_occurrences_snoc.
    rewrite (IHget (carrier_code t)).
    destruct (entry l (carrier_code t)) as [e |] eqn:He.
    + assert (Hin : carrier_code t ∈ map carrier_code l).
      { destruct (decide (carrier_code t ∈ map carrier_code l)) as [? | Hn];
          [assumption |].
        apply group_nil, entry_none in Hn. congruence. }
      rewrite bool_decide_eq_true_2 by exact Hin.
      split; [rewrite keys_alter; exact IHkeys |].
      intros c. rewrite assoc_get_alter, !IHget.
      unfold entry in *. rewrite group_snoc. rewrite (String.eqb_sym c).
      destruct (String.eqb_spec (carrier_code t) c) as [<- | Hne].
      * destruct (group (carrier_code t) l) as [| first rest] eqn:Hg;
          [discriminate |].
        injection He as <-. cbn [fmap option_fmap option_map].
        change ((first :: rest) ++ [t])%list with (first :: (rest ++ [t]))%list.
        cbv beta iota. rewrite !(app_comm_cons rest [t] first).
        rewrite List.filter_app, map_app, !length_app. cbn [List.filter].
        unfold bump.
        cbn [Entry.name Entry.count Entry.totalTransitDays
            Entry.deliveredCount].
        destruct (qualifies t); cbn [map length app].
        -- rewrite sum_snoc. do 2 f_equal; lia.
        -- rewrite !app_nil_r. do 2 f_equal; lia.
      * rewrite app_nil_r. reflexivity.
    + assert (Hnin : carrier_code t ∉ map carrier_code l).
      { apply group_nil, entry_none, He. }
      rewrite bool_decide_eq_false_2 by exact Hnin.
      split; [rewrite map_app, IHkeys; reflexivity |].
      intros c. rewrite assoc_get_snoc, !IHget.
      unfold entry in *. rewrite group_snoc. rewrite (String.eqb_sym c).
      destruct (String.eqb_spec (carrier_code t) c) as [<- | Hne].
      * destruct (group (carrier_code t) l) as [| first rest] eqn:Hg;
          [| discriminate].
        cbn [app List.filter]. unfold first_entry.
        destruct (qualifies t) eqn:Hq; cbn [map length]; [| reflexivity].
        unfold AggregatorSpec.sum. cbn [fold_left].
        rewrite (float_zero_add _ (qualifies_positive t Hq)). reflexivity.
      * rewrite app_nil_r. destruct (group c l); reflexivity.
Qed.

Lemma NoDup_first_occurrences l : NoDup (first_occurrences l).
Proof.
  induction l as [| x r IH]; cbn; constructor.
  - rewrite list_elem_of_In, List.filter_In. intros [_ Hx].
    rewrite String.eqb_refl in Hx. discriminate.
  - apply NoDup_ListNoDup, List.NoDup_filter, NoDup_ListNoDup, IH.
Qed.

Lemma assoc_get_elem {A} k (e : A) counts : assoc_get k counts = Some e -> k ∈
  map fst counts.
Proof.
  induction counts as [| [k' e'] r IH]; cbn; [discriminate |].
  destruct (String.eqb_spec k k') as [-> | Hne]; intros Hget.
  - apply elem_of_cons; auto.
  - apply elem_of_cons; right. apply IH, Hget.
Qed.

Lemma map_counts_omap {A B} (g : string * A -> B) (g' : string -> option B)
  counts :
  NoDup (map fst counts) ->
  (forall k e, assoc_get k counts = Some e -> g' k = Some (g (k, e))) ->
  map g counts = omap g' (map fst counts).
Proof.
  induction counts as [| [k e] r IH]; intros Hnodup Hget; [reflexivity |].
  cbn [map fst omap list_omap]. cbn in Hnodup.
  apply NoDup_cons in Hnodup as [Hk Hnodup].
  rewrite (Hget k e) by (cbn; rewrite String.eqb_refl; reflexivity).
  cbn. f_equal. apply IH; [exact Hnodup |].
  intros k' e' Hget'. apply Hget. cbn.
  destruct (String.eqb_spec k' k) as [-> | Hne]; [| exact Hget'].
  exfalso. apply Hk. eapply assoc_get_elem, Hget'.
Qed.

Lemma distribution_of_entry l k e :
  entry l k = Some e -> distribution l k = Some
    (distribution_of (length l) (k, e)).
Proof.
  unfold entry, distribution, distribution_of.
  destruct (group k l) as [| first rest]; [discriminate |].
  set (members := first :: rest). set (q := List.filter qualifies members).
  intros [= <-].
  cbn [Entry.name Entry.count Entry.totalTransitDays Entry.deliveredCount].
  do 2 f_equal. unfold rounded_mean.
  destruct q; reflexivity.
Qed.

Lemma getCourierDistribution_courierDistribution l :
  getCourierDistribution l = courierDistribution l.
Proof.
  unfold getCourierDistribution, courierDistribution.
  destruct l as [| t r]; [reflexivity |].
  cbn [length Nat.eqb].
  destruct (tally_invariant (t :: r)) as [Hkeys Hget].
  rewrite <- Hkeys. apply map_counts_omap.
  - rewrite Hkeys. apply NoDup_first_occurrences.
  - intros k e Hk. apply distribution_of_entry. rewrite <- Hget. exact Hk.
Qed.

Lemma qualifies_needs_transitDays t :
  Tracking.transitDays t = None -> qualifies t = false.
Proof.
  intros Ht. unfold qualifies, transitDays_or_0. rewrite Ht.
  apply andb_false_r.
Qed.

(** Without [transitDays] no carrier gets an average. *)
Lemma getCourierDistribution_no_average trackings :
  Forall (fun t => Tracking.transitDays t = None) trackings ->
  Forall (fun d => CourierDistribution.avgTransitDays d = None)
         (getCourierDistribution trackings).
Proof.
  intros Hnone. rewrite getCourierDistribution_courierDistribution.
  unfold courierDistribution. apply Forall_forall. intros d Hd.
  apply list_elem_of_omap in Hd as (code & _ & Hd).
  assert (Hq : List.filter qualifies (group code trackings) = []).
  { clear Hd. unfold group.
    induction Hnone as [| t l Ht _ IH]; [reflexivity |].
    cbn [List.filter].
    destruct (String.eqb (carrier_code t) code); [| exact IH].
    cbn [List.filter]. rewrite (qualifies_needs_transitDays t Ht). exact IH. }
  unfold distribution in Hd.
  destruct (group code trackings) as [| first rest]; [discriminate |].
  injection Hd as <-.
  change (rounded_mean (List.filter qualifies (first :: rest)) = None).
  rewrite Hq. reflexivity.
Qed.
(** C8. On an empty snapshot [getCourierDistribution] returns the empty
    list: nothing is raised and no entry, hence no NaN percentage, is
    produced. *)
Theorem getCourierDistribution_empty :
  getCourierDistribution [] = [] /\
  Forall (fun d => is_nan (CourierDistribution.percentage d) = false)
         (getCourierDistribution []).
Proof. split; [reflexivity | constructor]. Qed.

(** ** The code against the specification's words *)












End DistributionFacts.



(** A tie can also go up: one tracking of eight is 12.5 percent and gives
    13.  No rule that takes every tie the same way gives both results. *)
Example getCourierDistribution_tie_up :
  map (fun d => (CourierDistribution.carrierCode d,
                 CourierDistribution.count d,
                 CourierDistribution.percentage d))
      (Analytics.getCourierDistribution Samples.eight)
  = [("flash", 1, 13%float); ("kerry", 7, 88%float)].
Proof. vm_compute. reflexivity. Qed.

(** The same three trackings taken through [LocalStorageService]: the
    snapshot read back has no [transitDays], so carrier A gets no average. *)
Example getCourierDistribution_of_stored_snapshot :
  let P := Samples.bangkok in
  let ls :=
    @Storage.saveTracking P
      (@Storage.saveTracking P
         (@Storage.saveTracking P ∅ Samples.parcel1) Samples.parcel2)
      Samples.parcel3 in
  let snapshot := omap Storage.value_to_Tracking (@Storage.getTrackings P ls) in
  length snapshot = 3 /\
  map AggregatorSpec.summary (Analytics.getCourierDistribution snapshot)
  = [("kerry", 2, 67%float, None); ("flash", 1, 33%float, None)].
Proof. vm_compute. split; reflexivity. Qed.

(** Binary64 artefacts are part of the result: 29 trackings out of 200 are
    14.5 percent, but [(29 / 200) * 100] is 14.499999999999998 and rounds
    to 14. *)
Example percentage_29_of_200 :
  Math_round (PrimFloat.mul (PrimFloat.div (nat2F 29) (nat2F 200)) 100%float)
  = 14%float.
Proof. vm_compute. reflexivity. Qed.

(* ===================================================================== *)
(** * The aggregator: monthly statistics *)
(* ===================================================================== *)

Section MonthStrings.
Import Analytics AggregatorSpec.

Lemma to_int_not_nil z : Z.to_int z <> Decimal.Pos Decimal.Nil /\ Z.to_int z <>
  Decimal.Neg Decimal.Nil.
Proof.
  destruct z as [| p | p]; cbn; split; try discriminate;
    intros [= Hp]; exact (Unsigned.to_uint_nonnil p Hp).
Qed.

Lemma Z_ofString_toString z : Z_ofString (Z_toString z) = Some z.
Proof.
  unfold Z_ofString, Z_toString.
  destruct (to_int_not_nil z) as [Hp Hn].
  rewrite (NilZero.isi _ Hp Hn). cbn. rewrite DecimalZ.of_to. reflexivity.
Qed.

Lemma Z_toString_inj a b : Z_toString a = Z_toString b -> a = b.
Proof.
  intros Heq. apply (f_equal Z_ofString) in Heq.
  rewrite !Z_ofString_toString in Heq. congruence.
Qed.

(* digits only *)

Lemma string_of_uint_digits d : string_forallb is_digit
  (NilEmpty.string_of_uint d) = true.
Proof. induction d; cbn; try reflexivity; rewrite IHd; reflexivity. Qed.

Lemma Z_toString_digits z : (0 <= z)%Z -> string_forallb is_digit (Z_toString z)
  = true.
Proof.
  intros Hz. unfold Z_toString. destruct z as [| p | p]; [reflexivity | | lia].
  cbn. unfold NilZero.string_of_uint.
  destruct (Pos.to_uint p) eqn:Hp; try apply string_of_uint_digits.
  reflexivity.
Qed.

Lemma Z_toString_nonempty z : Z_toString z <> "".
Proof.
  intros Heq. pose proof (Z_ofString_toString z) as Hz. rewrite Heq in Hz.
  discriminate.
Qed.

Lemma Z_ofString_lead0 s z : (0 <= z)%Z -> Z_ofString s = Some z -> s <> "" ->
  string_forallb is_digit s = true ->
  Z_ofString (String "0" s) = Some z.
Proof.
  intros Hz Hs Hne Hd. unfold Z_ofString in *.
  destruct s as [| c r]; [congruence |].
  cbn [NilZero.int_of_string] in *.
  assert (Hc : Ascii.eqb c "-" = false).
  { cbn in Hd. apply andb_true_iff in Hd as [Hd _].
    destruct (Ascii.eqb_spec c "-") as [-> | ?]; [discriminate | reflexivity]. }
  rewrite Hc in Hs. change (Ascii.eqb "0" "-") with false. cbv iota.
  unfold NilZero.uint_of_string in *. cbn [NilEmpty.uint_of_string] in *.
  destruct (uint_of_char c (NilEmpty.uint_of_string r)) as [u |];
    [| discriminate].
  cbn in *. exact Hs.
Qed.

Lemma append_nil s : "" +:+ s = s.
Proof. reflexivity. Qed.

Lemma append_cons c r s : String c r +:+ s = String c (r +:+ s).
Proof. reflexivity. Qed.

Lemma string_forallb_app p a b :
  string_forallb p (a +:+ b) = string_forallb p a && string_forallb p b.
Proof.
  induction a as [| c r IH]; [reflexivity |].
  rewrite append_cons. cbn [string_forallb]. rewrite IH, andb_assoc.
  reflexivity.
Qed.

Lemma string_forallb_impl (p q : ascii -> bool) s :
  (forall c, p c = true -> q c = true) -> string_forallb p s = true ->
    string_forallb q s = true.
Proof.
  intros Hpq. induction s as [| c r IH]; cbn; [reflexivity |].
  intros Hs. apply andb_true_iff in Hs as [Hc Hr]. rewrite (Hpq c Hc), (IH Hr).
  reflexivity.
Qed.

Lemma digit_not_dash c : is_digit c = true -> not_dash c = true.
Proof.
  unfold not_dash.
  destruct (Ascii.eqb_spec c "-") as [-> | _]; [discriminate | reflexivity].
Qed.

Lemma split_at_last_dash X Y C D :
  string_forallb not_dash C = true -> string_forallb not_dash D = true ->
  X +:+ String "-" C = Y +:+ String "-" D -> X = Y /\ C = D.
Proof.
  intros HC HD. revert Y.
  induction X as [| x X IH]; intros [| y Y];
    rewrite ?append_nil, ?append_cons; intros Heq.
  - injection Heq as ->. auto.
  - injection Heq as _ ->. rewrite string_forallb_app in HC. cbn in HC.
    rewrite andb_false_r in HC. discriminate.
  - injection Heq as _ <-. rewrite string_forallb_app in HD. cbn in HD.
    rewrite andb_false_r in HD. discriminate.
  - injection Heq as -> Heq. destruct (IH Y Heq) as [-> ->]. auto.
Qed.

Lemma padStart_2 s :
  s <> "" ->
  padStart 2 "0" s = s \/ (padStart 2 "0" s = String "0" s).
Proof.
  intros Hs. unfold padStart.
  destruct s as [| c1 [| c2 r]]; [congruence | right | left]; reflexivity.
Qed.

Lemma padStart_number z :
  (0 <= z)%Z ->
  Z_ofString (padStart 2 "0" (Z_toString z)) = Some z /\
  string_forallb not_dash (padStart 2 "0" (Z_toString z)) = true.
Proof.
  intros Hz.
  pose proof (Z_toString_digits z Hz) as Hd.
  destruct (padStart_2 (Z_toString z) (Z_toString_nonempty z)) as [-> | ->].
  - split; [apply Z_ofString_toString |].
    eapply string_forallb_impl; [apply digit_not_dash | exact Hd].
  - split.
    + apply Z_ofString_lead0; auto using Z_ofString_toString,
        Z_toString_nonempty.
    + cbn. eapply string_forallb_impl; [apply digit_not_dash | exact Hd].
Qed.

End MonthStrings.

Section MonthFacts.
Import Analytics AggregatorSpec.
Context `{Platform}.

Lemma formatMonth_key d y m :
  formatMonth d = month_key y m <->
  Date_getFullYear d = Some y /\ Date_getMonth d = Some (Nat.pred m) /\
    (1 <= m)%nat.
Proof.
  unfold formatMonth, month_key.
  change ("-" +:+ ?x) with (String "-" x).
  split.
  - intros Heq.
    destruct (padStart_number (Z.of_nat m) ltac:(lia)) as [Hparse Hnd].
    assert (Hnd' : string_forallb not_dash
              (padStart 2 "0"
                  (num_toString
                      ((fun m => Z.of_nat m + 1)%Z <$> Date_getMonth d))) =
                        true).
    { destruct (Date_getMonth d) as [k |]; cbn
        [fmap option_fmap option_map num_toString]; [| reflexivity].
      apply padStart_number. lia. }
    destruct (split_at_last_dash _ _ _ _ Hnd' Hnd Heq) as [Hy Hm].
    destruct (Date_getFullYear d) as [y' |]; cbn [num_toString] in Hy.
    + apply Z_toString_inj in Hy as ->.
      destruct (Date_getMonth d) as [k |]; cbn
        [fmap option_fmap option_map num_toString] in Hm.
      * apply (f_equal Z_ofString) in Hm.
        rewrite (proj1 (padStart_number (Z.of_nat k + 1) ltac:(lia))), Hparse in
          Hm.
        injection Hm as Hm. repeat split; [f_equal; lia | lia].
      * apply (f_equal Z_ofString) in Hm. rewrite Hparse in Hm. discriminate.
    + apply (f_equal Z_ofString) in Hy. rewrite Z_ofString_toString in Hy.
      discriminate.
  - intros (-> & -> & Hm). cbn [fmap option_fmap option_map num_toString].
    replace (Z.of_nat (Nat.pred m) + 1)%Z with (Z.of_nat m) by lia. reflexivity.
Qed.

Lemma in_month_created_in y m t :
  (1 <= m)%nat -> in_month (month_key y m) t = created_in y m t.
Proof.
  intros Hm. unfold in_month, created_in.
  destruct (String.eqb_spec (formatMonth (Tracking.createdAt t))
      (month_key y m)) as [Heq | Hne].
  - apply formatMonth_key in Heq as (-> & -> & _).
    rewrite Z.eqb_refl. cbn [andb]. symmetry. apply Nat.eqb_eq. lia.
  - destruct (Date_getFullYear (Tracking.createdAt t)) as [y' |] eqn:Hy;
      [| reflexivity].
    destruct (Date_getMonth (Tracking.createdAt t)) as [k |] eqn:Hk;
      [| reflexivity].
    destruct (Z.eqb_spec y' y) as [-> | ?]; [| reflexivity].
    destruct (Nat.eqb_spec (S k) m) as [<- | ?]; [| reflexivity].
    exfalso. apply Hne, formatMonth_key. rewrite Hy, Hk. cbn. auto with lia.
Qed.
End MonthFacts.

Section StatsFacts.
Import Analytics AggregatorSpec.
Context `{Platform}.

Lemma filter_length_perm {A} (p : A -> bool) l l' :
  l ≡ₚ l' -> length (List.filter p l) = length (List.filter p l').
Proof.
  induction 1 as [| x l l' _ IH | x y l | l l' l'' _ IH1 _ IH2]; cbn.
  - reflexivity.
  - destruct (p x); cbn; congruence.
  - destruct (p x), (p y); reflexivity.
  - congruence.
Qed.

Lemma filter_filter_length_perm {A} (p q : A -> bool) l l' :
  l ≡ₚ l' ->
  length (List.filter q (List.filter p l))
  = length (List.filter q (List.filter p l')).
Proof.
  intros Hperm. apply filter_length_perm.
  induction Hperm as [| x l l' _ IH | x y l | l l' l'' _ IH1 _ IH2]; cbn.
  - reflexivity.
  - destruct (p x); [constructor |]; exact IH.
  - destruct (p x), (p y); try reflexivity. apply Permutation_swap.
  - etransitivity; eassumption.
Qed.

Lemma getMonthlyStats_perm l l' month now :
  l ≡ₚ l' -> getMonthlyStats l month now = getMonthlyStats l' month now.
Proof.
  intros Hperm. unfold getMonthlyStats.
  rewrite (filter_length_perm _ l l' Hperm).
  rewrite (filter_filter_length_perm _ isDelivered l l' Hperm).
  rewrite (filter_filter_length_perm _
      (status_in [in_transit; out_for_delivery]) l l' Hperm).
  reflexivity.
Qed.

Lemma month_key_truthy y m : str_truthy (month_key y m) = true.
Proof.
  unfold month_key. destruct (Z_toString y) eqn:Hy.
  - exfalso. exact (Z_toString_nonempty y Hy).
  - reflexivity.
Qed.

(** C5. [getMonthlyStats] selects the trackings whose [createdAt] falls in
    the target calendar year and month, and counts them, those delivered,
    and those in transit or out for delivery; without a target it takes the
    month of the current date.  In particular, four trackings created in
    the target month with statuses delivered, in_transit, out_for_delivery
    and pending, in any order, give totalPackages 4, delivered 1,
    inTransit 2. *)
Theorem getMonthlyStats_correct :
  (forall trackings year month now,
     (1 <= month)%nat ->
     getMonthlyStats trackings (Some (month_key year month)) now
     = monthlyStats trackings year month) /\
  (forall trackings now,
     getMonthlyStats trackings None now
     = getMonthlyStats trackings (Some (getCurrentMonth now)) now) /\
  (forall t1 t2 t3 t4 l target now,
     target <> "" ->
     l ≡ₚ [t1; t2; t3; t4] ->
     formatMonth (Tracking.createdAt t1) = target ->
     formatMonth (Tracking.createdAt t2) = target ->
     formatMonth (Tracking.createdAt t3) = target ->
     formatMonth (Tracking.createdAt t4) = target ->
     Tracking.status t1 = delivered ->
     Tracking.status t2 = in_transit ->
     Tracking.status t3 = out_for_delivery ->
     Tracking.status t4 = pending ->
     getMonthlyStats l (Some target) now
     = {| MonthlyStats.month := target;
          MonthlyStats.totalPackages := 4;
          MonthlyStats.delivered := 1;
          MonthlyStats.inTransit := 2 |}).
Proof.
  split; [| split].
  - intros trackings year month now Hm.
    unfold getMonthlyStats, monthlyStats, or_str.
    rewrite month_key_truthy.
    rewrite (List.filter_ext _ _
        (fun t => in_month_created_in year month t Hm)).
    f_equal. f_equal. apply List.filter_ext. intros t.
    unfold status_in.
    apply bool_decide_ext. rewrite !elem_of_cons, elem_of_nil. tauto.
  - intros trackings now. unfold getMonthlyStats, or_str.
    destruct (str_truthy (getCurrentMonth now)); reflexivity.
  - intros t1 t2 t3 t4 l target now Htarget Hperm H1 H2 H3 H4 Hs1 Hs2 Hs3 Hs4.
    rewrite (getMonthlyStats_perm _ _ _ _ Hperm).
    unfold getMonthlyStats, or_str, in_month.
    rewrite (str_truthy_nonempty target Htarget).
    cbn [List.filter]. rewrite H1, H2, H3, H4, String.eqb_refl.
    unfold isDelivered, status_in. cbn [List.filter].
    rewrite Hs1, Hs2, Hs3, Hs4. vm_compute. reflexivity.
Qed.

End StatsFacts.

Lemma getMonthlyStats_correct_witness :
  @Analytics.getMonthlyStats Samples.bangkok
     [Samples.parcel5; Samples.parcel4; Samples.parcel3; Samples.parcel1]
     (Some "2026-01") Samples.jan31_late
  = {| MonthlyStats.month := "2026-01";
       MonthlyStats.totalPackages := 4;
       MonthlyStats.delivered := 1;
       MonthlyStats.inTransit := 2 |}.
Proof.
  apply (proj2 (proj2 (@getMonthlyStats_correct Samples.bangkok))
           Samples.parcel1 Samples.parcel3 Samples.parcel4 Samples.parcel5);
    try (vm_compute; reflexivity).
  - discriminate.
  - exact (Permutation_rev [Samples.parcel5; Samples.parcel4; Samples.parcel3;
                            Samples.parcel1]).
Defined.

(** The selection is by calendar month, not by distance in time: a tracking
    created nine days after another, on the first day of the next month in
    local time, is not counted with it. *)
Example getMonthlyStats_calendar_month :
  @Analytics.getMonthlyStats Samples.bangkok
     [Samples.parcel1; Samples.parcel3; Samples.parcel6]
     (Some (AggregatorSpec.month_key 2026 1)) Samples.jan22
  = {| MonthlyStats.month := "2026-01";
       MonthlyStats.totalPackages := 2;
       MonthlyStats.delivered := 1;
       MonthlyStats.inTransit := 1 |}.
Proof. vm_compute. reflexivity. Qed.

(* ===================================================================== *)
(** * The repository: lookup, delete and update *)
(* ===================================================================== *)

Section RepositoryFacts.
Import Storage Repository.
Context `{Platform}.

Lemma has_id_spec (id : string) (t : value) :
  has_id id t = true <-> member "id" t = VStr id.
Proof.
  unfold has_id.
  destruct (member "id" t); cbn [strict_equals];
    try (split; [discriminate | congruence]).
  rewrite String.eqb_eq. split; congruence.
Qed.

Lemma has_id_false (id : string) (t : value) :
  has_id id t = false <-> member "id" t <> VStr id.
Proof.
  rewrite <- has_id_spec. destruct (has_id id t); split; congruence.
Qed.

Lemma findIndex_from_first {A} (p : A -> bool) (l : list A) (i : Z) :
  (0 <= i)%Z -> (0 <= findIndex_from p l i)%Z ->
  forall j x, (j < Z.to_nat (findIndex_from p l i - i))%nat ->
              l !! j = Some x -> p x = false.
Proof.
  revert i. induction l as [| y r IH]; intros i Hi Hfound j x Hj Hx;
    cbn in *; [discriminate |].
  destruct (p y) eqn:Hp; [lia |].
  destruct j as [| j]; cbn in Hx; [congruence |].
  apply (IH (i + 1)%Z ltac:(lia) Hfound j x); [| exact Hx].
  destruct (findIndex_from_found p r (i + 1)%Z ltac:(lia) Hfound)
    as (_ & _ & _ & Hle).
  lia.
Qed.

Lemma findIndex_from_some {A} (p : A -> bool) (l : list A) (i : Z) x :
  (0 <= i)%Z -> x ∈ l -> p x = true -> (0 <= findIndex_from p l i)%Z.
Proof.
  intros Hi Hin Hp. revert i Hi.
  induction Hin as [x r | x y r _ IH]; intros i Hi; cbn.
  - rewrite Hp. exact Hi.
  - destruct (p y); [exact Hi | apply IH; first [exact Hp | lia]].
Qed.

Lemma ids_insert (trackings : list value) i previous v :
  trackings !! i = Some previous ->
  member "id" v = member "id" previous ->
  ids (<[i := v]> trackings) = ids trackings.
Proof.
  intros Hi Hsame. unfold ids.
  rewrite list_fmap_insert, Hsame.
  apply list_insert_id. rewrite list_lookup_fmap, Hi. reflexivity.
Qed.

(** X1. updateTracking throws "Tracking not found: <id>" exactly when no
    stored record has the tracking's id, and then writes nothing.  Otherwise
    it replaces, where it stands, the first record with that id and leaves
    the rest alone: the size of the collection and the sequence of its ids
    are unchanged. *)
Theorem updateTracking_replaces_or_throws (ls : LocalStorage)
  (tracking : Tracking.t) :
  let old := getTrackings ls in
  let id := VStr (Tracking.id tracking) in
  (id ∉ ids old ->
     updateTracking ls tracking
     = Track123.Throw
         (Track123.mkError ("Tracking not found: " +:+ Tracking.id tracking)))
  /\
  (id ∈ ids old ->
     exists i previous,
       old !! i = Some previous /\
       member "id" previous = id /\
       (forall j earlier, (j < i)%nat -> old !! j = Some earlier ->
                          member "id" earlier <> id) /\
       updateTracking ls tracking
       = Track123.Ok
           (persist ls (<[i := Tracking_to_value tracking]> old)) /\
       length (<[i := Tracking_to_value tracking]> old) = length old /\
       ids (<[i := Tracking_to_value tracking]> old) = ids old).
Proof.
  intros old id. unfold updateTracking. fold old. unfold findIndex.
  set (p := has_id (Tracking.id tracking)).
  split.
  - intros Hfresh.
    destruct (Z.ltb_spec (findIndex_from p old 0) 0) as [_ | Hfound];
      [reflexivity |].
    destruct (findIndex_from_found p old 0 ltac:(lia) Hfound)
      as (x & Hx & Hp & _).
    exfalso. apply Hfresh. apply has_id_spec in Hp. fold id in Hp.
    rewrite <- Hp. unfold ids. apply list_elem_of_fmap_2.
    eapply list_elem_of_lookup_2, Hx.
  - intros Hin. unfold ids in Hin.
    apply list_elem_of_fmap in Hin as (x & Hid & Hx).
    assert (Hfound : (0 <= findIndex_from p old 0)%Z).
    { apply (findIndex_from_some p old 0 x); [lia | exact Hx |].
      apply has_id_spec. symmetry. exact Hid. }
    destruct (Z.ltb_spec (findIndex_from p old 0) 0) as [Hneg | _]; [lia |].
    destruct (findIndex_from_found p old 0 ltac:(lia) Hfound)
      as (previous & Hlookup & Hp & _).
    pose proof (findIndex_from_first p old 0 ltac:(lia) Hfound) as Hfirst.
    rewrite Z.sub_0_r in Hlookup, Hfirst.
    apply has_id_spec in Hp. fold id in Hp.
    exists (Z.to_nat (findIndex_from p old 0)), previous.
    split; [exact Hlookup |]. split; [exact Hp |].
    split; [| split; [reflexivity |]; split].
    + intros j earlier Hj Hearlier. apply has_id_false.
      apply (Hfirst j earlier Hj Hearlier).
    + apply length_insert.
    + apply (ids_insert old _ previous); [exact Hlookup |].
      rewrite Hp. reflexivity.
Qed.

(** X2. deleteTracking writes back, under the storage key and nowhere
    else, the stored records whose id differs from the one given, in their
    order: every record with that id is gone (not only the first), every
    other record stays, and for an id no record has the collection is
    written back as it was read. *)
Theorem deleteTracking_keeps_the_rest (ls : LocalStorage) (id : string) :
  let old := getTrackings ls in
  let kept := without_id old id in
  deleteTracking ls id !! STORAGE_KEY = Some (JSON_stringify (VArr kept)) /\
  (forall key, key <> STORAGE_KEY -> deleteTracking ls id !! key = ls !! key) /\
  Forall (fun t => member "id" t <> VStr id) kept /\
  kept `sublist_of` old /\
  (forall t, t ∈ old -> member "id" t <> VStr id -> t ∈ kept) /\
  (VStr id ∉ ids old -> kept = old).
Proof.
  intros old kept. unfold deleteTracking, persist. fold old kept.
  split; [apply lookup_insert_eq |].
  split; [intros key Hkey; apply lookup_insert_ne; congruence |].
  subst kept. unfold without_id.
  split; [| split; [| split]].
  - apply Forall_forall. intros t Ht.
    apply list_elem_of_In, filter_In in Ht as [_ Ht].
    apply has_id_false. apply negb_true_iff, Ht.
  - clear. induction old as [| t r IH]; cbn; [constructor |].
    destruct (negb (has_id id t)); [apply sublist_skip | apply sublist_cons];
      exact IH.
  - intros t Ht Hid. apply list_elem_of_In, filter_In.
    split; [apply list_elem_of_In, Ht |].
    apply negb_true_iff, has_id_false, Hid.
  - intros Hfresh. clear -Hfresh. induction old as [| t r IH]; [reflexivity |].
    cbn. unfold ids in Hfresh. cbn in Hfresh.
    apply not_elem_of_cons in Hfresh as [Hne Hr].
    assert (Ht : has_id id t = false) by (apply has_id_false; congruence).
    rewrite Ht. cbn. f_equal. apply IH, Hr.
Qed.

Lemma rehydrateTracking_keeps_id data v :
  rehydrateTracking data = Some v -> member "id" v = member "id" data.
Proof.
  unfold rehydrateTracking. intros Hv.
  destruct data; cbn [get_prop mbind option_bind as_array] in Hv;
    try discriminate Hv.
  repeat match type of Hv with
  | (?m ≫= _) = Some _ =>
      destruct m; cbn [mbind option_bind] in Hv; [| discriminate]
  end.
  injection Hv as <-. reflexivity.
Qed.

Lemma rehydrateTracking_jsonify_id v v' :
  storable v -> rehydrateTracking (jsonify v) = Some v' ->
  member "id" v' = reparsed (member "id" v) /\ truthy v' = true.
Proof.
  intros (props & items & -> & Hnodup & _ & _) Hv'. split.
  - rewrite (rehydrateTracking_keeps_id _ _ Hv').
    apply (member_jsonify props "id" Hnodup).
  - destruct (rehydrateTracking_storable _ _ Hv') as (props' & _ & -> & _).
    reflexivity.
Qed.

(** Reading back what [persist] wrote: record by record, what
    [rehydrateTracking] makes of the JSON image. *)
Lemma persist_then_getTrackings (ls : LocalStorage) (new : list value) :
  let text := JSON_stringify (VArr new) in
  Forall storable new ->
  str_truthy text = true ->
  JSON_parse text = Some (jsonify (VArr new)) ->
  Forall2 (fun v v' => rehydrateTracking (jsonify v) = Some v')
    new (getTrackings (persist ls new)).
Proof.
  intros text Hnew Htext Hparse.
  destruct (mapM_rehydrateTracking_jsonify new Hnew) as (vs' & Hvs' & _).
  unfold persist, getTrackings.
  rewrite lookup_insert_eq. fold text. rewrite Htext, Hparse. cbn [negb].
  change (jsonify (VArr new)) with (VArr (map jsonify new)).
  cbn [as_array mbind option_bind]. rewrite Hvs'.
  apply mapM_Some_1 in Hvs'. apply Forall2_fmap_l in Hvs'. exact Hvs'.
Qed.

Lemma reread_ids (new read : list value) :
  Forall storable new ->
  Forall2 (fun v v' => rehydrateTracking (jsonify v) = Some v') new read ->
  ids read = map reparsed (ids new).
Proof.
  intros Hnew Hread. induction Hread as [| v v' new read Hv _ IH];
    [reflexivity |].
  apply Forall_cons in Hnew as [Hst Hnew].
  unfold ids in *. cbn [map].
  rewrite (proj1 (rehydrateTracking_jsonify_id v v' Hst Hv)), (IH Hnew).
  reflexivity.
Qed.

Lemma has_id_ids (id : string) (l : list value) :
  map (has_id id) l = map (fun v => strict_equals v (VStr id)) (ids l).
Proof. unfold ids, has_id. rewrite map_map. reflexivity. Qed.

Lemma find_has_id_none (id : string) (l : list value) :
  VStr id ∉ ids l -> List.find (has_id id) l = None.
Proof.
  induction l as [| t r IH]; [reflexivity |].
  unfold ids. cbn [map List.find]. rewrite not_elem_of_cons. intros [Hne Hr].
  assert (Ht : has_id id t = false) by (apply has_id_false; congruence).
  rewrite Ht. apply IH, Hr.
Qed.

Lemma ids_without_id (l : list value) (id : string) :
  ids (without_id l id)
  = List.filter (fun v => negb (strict_equals v (VStr id))) (ids l).
Proof.
  unfold ids, without_id, has_id.
  induction l as [| t r IH]; [reflexivity |].
  cbn [List.filter map].
  destruct (strict_equals (member "id" t) (VStr id)); cbn [negb map];
    rewrite IH; reflexivity.
Qed.

Lemma without_id_storable (l : list value) (id : string) :
  Forall storable l -> Forall storable (without_id l id).
Proof.
  intros Hl. apply Forall_forall. intros t Ht.
  apply list_elem_of_In, filter_In in Ht as [Ht _].
  apply list_elem_of_In in Ht. revert t Ht. apply Forall_forall, Hl.
Qed.

(** X3. After deleteTracking(id), getTrackingById(id) is null, and the ids
    read back are the stored ids without that one, in order; this when the
    stored ids are strings and the JSON codec carries the written array. *)
Theorem deleteTracking_then_getTrackingById (ls : LocalStorage)
  (id : string) :
  let old := getTrackings ls in
  let kept := without_id old id in
  let text := JSON_stringify (VArr kept) in
  Forall is_string (ids old) ->
  str_truthy text = true ->
  JSON_parse text = Some (jsonify (VArr kept)) ->
  getTrackingById (deleteTracking ls id) id = None /\
  ids (getTrackings (deleteTracking ls id))
  = List.filter (fun v => negb (strict_equals v (VStr id))) (ids old).
Proof.
  intros old kept text Hstrings Htext Hparse.
  assert (Hkept : Forall storable kept).
  { apply without_id_storable, getTrackings_storable. }
  pose proof (persist_then_getTrackings ls kept Hkept Htext Hparse) as Hread.
  apply (reread_ids _ _ Hkept) in Hread.
  unfold deleteTracking, getTrackingById. fold old kept.
  assert (Hids : ids (getTrackings (persist ls kept))
                 = List.filter (fun v => negb (strict_equals v (VStr id)))
                     (ids old)).
  { rewrite Hread. subst kept. rewrite ids_without_id.
    apply reparsed_strings.
    apply Forall_forall. intros v Hv.
    apply list_elem_of_In, filter_In in Hv as [Hv _].
    apply list_elem_of_In in Hv. revert v Hv. apply Forall_forall, Hstrings. }
  split; [| exact Hids].
  rewrite find_has_id_none; [reflexivity |].
  rewrite Hids. intros Hin.
  apply list_elem_of_In, filter_In in Hin as [_ Hin].
  cbn [strict_equals] in Hin. rewrite String.eqb_refl in Hin. discriminate.
Qed.

Lemma find_lookup {A} (p : A -> bool) (l : list A) (i : nat) (x : A) :
  l !! i = Some x -> p x = true ->
  (forall j y, (j < i)%nat -> l !! j = Some y -> p y = false) ->
  List.find p l = Some x.
Proof.
  revert i. induction l as [| z r IH]; intros i Hi Hp Hfirst;
    [discriminate |].
  destruct i as [| i]; cbn in Hi.
  - injection Hi as ->. cbn. rewrite Hp. reflexivity.
  - cbn. rewrite (Hfirst 0%nat z ltac:(lia) eq_refl).
    apply (IH i Hi Hp). intros j y Hj Hy.
    apply (Hfirst (S j) y); [lia | exact Hy].
Qed.

Lemma upsert_lookup (old : list value) (t : Tracking.t) :
  exists i, upsert old t !! i = Some (Tracking_to_value t) /\
            forall j, j <> i -> upsert old t !! j = old !! j.
Proof.
  unfold upsert, findIndex.
  set (p := has_number (Tracking.trackingNumber t)).
  destruct (Z.leb_spec 0 (findIndex_from p old 0)) as [Hfound | Hnone].
  - destruct (findIndex_from_found p old 0 ltac:(lia) Hfound)
      as (previous & Hlookup & _ & _).
    rewrite Z.sub_0_r in Hlookup.
    exists (Z.to_nat (findIndex_from p old 0)). split.
    + apply list_lookup_insert_eq. eapply lookup_lt_Some, Hlookup.
    + intros j Hj. apply list_lookup_insert_ne. congruence.
  - exists (length old). split.
    + rewrite lookup_app_r, Nat.sub_diag by lia. reflexivity.
    + intros j Hj. destruct (Nat.lt_ge_cases j (length old)) as [Hlt | Hge].
      * apply lookup_app_l, Hlt.
      * rewrite lookup_app_r by lia.
        rewrite (lookup_ge_None_2 old j Hge).
        destruct (j - length old)%nat eqn:Hd; [lia | reflexivity].
Qed.

Lemma reread_find (new read : list value) (tracking : Tracking.t) (i : nat) :
  Forall storable new ->
  Forall2 (fun v v' => rehydrateTracking (jsonify v) = Some v') new read ->
  new !! i = Some (Tracking_to_value tracking) ->
  (forall j y, (j < i)%nat -> new !! j = Some y ->
               reparsed (member "id" y) <> VStr (Tracking.id tracking)) ->
  Forall survives (dates_of tracking) ->
  exists v,
    List.find (has_id (Tracking.id tracking)) read = Some v /\
    truthy v = true /\
    value_to_Tracking v = Some (without_transitDays tracking).
Proof.
  intros Hnew Hread Hi Hfirst Hdates.
  destruct (Forall2_lookup_l _ _ _ _ _ Hread Hi) as (v & Hv & Hrehydrate).
  destruct (rehydrateTracking_roundtrip tracking Hdates) as (v0 & Hv0 & Hview).
  assert (v0 = v) by congruence. subst v0.
  destruct (rehydrateTracking_jsonify_id _ _
              (Tracking_to_value_storable tracking) Hrehydrate)
    as [Hid Htruthy].
  exists v. split; [| split; [exact Htruthy | exact Hview]].
  apply (find_lookup _ _ i v Hv).
  - apply has_id_spec. rewrite Hid. reflexivity.
  - intros j y' Hj Hy'.
    destruct (Forall2_lookup_r _ _ _ _ _ Hread Hy') as (y & Hy & Hry).
    assert (Hst : storable y) by (eapply Forall_lookup_1; eassumption).
    apply has_id_false.
    rewrite (proj1 (rehydrateTracking_jsonify_id y y' Hst Hry)).
    apply (Hfirst j y Hj Hy).
Qed.

Lemma old_id_differs (old : list value) (id : string) (j : nat) (y : value) :
  Forall is_string (ids old) ->
  old !! j = Some y ->
  member "id" y <> VStr id ->
  reparsed (member "id" y) <> VStr id.
Proof.
  intros Hstrings Hy Hne.
  assert (Hin : member "id" y ∈ ids old).
  { unfold ids. apply list_elem_of_fmap_2. eapply list_elem_of_lookup_2, Hy. }
  destruct (proj1 (Forall_forall _ _) Hstrings _ Hin) as [s Hs].
  rewrite Hs in *. exact Hne.
Qed.

(** X4. Saving a tracking whose id no stored record has, then looking it
    up by id, returns the saved record, every field but [transitDays],
    whether the save replaced a record with the same tracking number or
    added one; this when the stored ids are strings and the codec carries
    the written array and the dates. *)
Theorem saveTracking_then_getTrackingById (ls : LocalStorage)
  (tracking : Tracking.t) :
  let old := getTrackings ls in
  let new := upsert old tracking in
  let text := JSON_stringify (VArr new) in
  Forall is_string (ids old) ->
  VStr (Tracking.id tracking) ∉ ids old ->
  Forall survives (dates_of tracking) ->
  str_truthy text = true ->
  JSON_parse text = Some (jsonify (VArr new)) ->
  exists v,
    getTrackingById (saveTracking ls tracking) (Tracking.id tracking) = Some v
    /\ value_to_Tracking v = Some (without_transitDays tracking).
Proof.
  intros old new text Hstrings Hfresh Hdates Htext Hparse.
  assert (Hnew : Forall storable new).
  { apply upsert_storable, getTrackings_storable. }
  pose proof (persist_then_getTrackings ls new Hnew Htext Hparse) as Hread.
  destruct (upsert_lookup old tracking) as (i & Hi & Hother). fold new in Hi,
    Hother.
  destruct (reread_find new _ tracking i Hnew Hread Hi) as
    (v & Hfind & Htruthy & Hview); [| exact Hdates |].
  - intros j y Hj Hy. rewrite Hother in Hy by lia.
    apply (old_id_differs old _ j y Hstrings Hy).
    intros Heq. apply Hfresh. rewrite <- Heq. unfold ids.
    apply list_elem_of_fmap_2. eapply list_elem_of_lookup_2, Hy.
  - exists v. split; [| exact Hview].
    unfold getTrackingById, saveTracking. fold old new.
    rewrite Hfind, Htruthy. reflexivity.
Qed.

(** X5. Updating a stored tracking and looking it up by id returns the
    record given to updateTracking, every field but [transitDays], and the
    ids read back are those stored before; this when the stored ids are
    strings and the codec carries the written array and the dates. *)
Theorem updateTracking_then_getTrackingById (ls : LocalStorage)
  (tracking : Tracking.t) :
  let old := getTrackings ls in
  let index := findIndex (has_id (Tracking.id tracking)) old in
  let new := <[Z.to_nat index := Tracking_to_value tracking]> old in
  let text := JSON_stringify (VArr new) in
  VStr (Tracking.id tracking) ∈ ids old ->
  Forall is_string (ids old) ->
  Forall survives (dates_of tracking) ->
  str_truthy text = true ->
  JSON_parse text = Some (jsonify (VArr new)) ->
  exists ls' v,
    updateTracking ls tracking = Track123.Ok ls' /\
    getTrackingById ls' (Tracking.id tracking) = Some v /\
    value_to_Tracking v = Some (without_transitDays tracking) /\
    ids (getTrackings ls') = ids old.
Proof.
  intros old index new text Hin Hstrings Hdates Htext Hparse.
  set (p := has_id (Tracking.id tracking)) in *.
  assert (Hfound : (0 <= index)%Z).
  { unfold ids in Hin. apply list_elem_of_fmap in Hin as (x & Hid & Hx).
    apply (findIndex_from_some p old 0 x); [lia | exact Hx |].
    apply has_id_spec. symmetry. exact Hid. }
  destruct (findIndex_from_found p old 0 ltac:(lia) Hfound)
    as (previous & Hlookup & Hp & _).
  pose proof (findIndex_from_first p old 0 ltac:(lia) Hfound) as Hfirst.
  rewrite Z.sub_0_r in Hlookup, Hfirst. fold (findIndex p old) in Hlookup,
    Hfirst. fold index in Hlookup, Hfirst.
  apply has_id_spec in Hp.
  assert (Hnew : Forall storable new).
  { apply Forall_insert; [apply getTrackings_storable |
                          apply Tracking_to_value_storable]. }
  pose proof (persist_then_getTrackings ls new Hnew Htext Hparse) as Hread.
  assert (Hi : new !! Z.to_nat index = Some (Tracking_to_value tracking)).
  { apply list_lookup_insert_eq. eapply lookup_lt_Some, Hlookup. }
  destruct (reread_find new _ tracking _ Hnew Hread Hi) as
    (v & Hfind & Htruthy & Hview); [| exact Hdates |].
  { intros j y Hj Hy. unfold new in Hy.
    rewrite list_lookup_insert_ne in Hy by lia.
    apply (old_id_differs old _ j y Hstrings Hy).
    apply has_id_false, (Hfirst j y Hj Hy). }
  exists (persist ls new), v.
  split; [| split; [| split; [exact Hview |]]].
  - unfold updateTracking. fold old p index new.
    destruct (Z.ltb_spec index 0); [lia | reflexivity].
  - unfold getTrackingById. rewrite Hfind, Htruthy. reflexivity.
  - rewrite (reread_ids new _ Hnew Hread).
    assert (Hids : ids new = ids old).
    { apply (ids_insert old _ previous _ Hlookup). rewrite Hp. reflexivity. }
    rewrite Hids. apply reparsed_strings, Hstrings.
Qed.

End RepositoryFacts.

(* ===================================================================== *)
(** * The repository: malformed rows *)
(* ===================================================================== *)

Section MalformedRows.
Import Storage Repository.
Context `{Platform}.

Lemma rehydrateEvent_null (e : value) :
  e = VNull \/ e = VUndef -> rehydrateEvent e = None.
Proof. intros [-> | ->]; reflexivity. Qed.

Lemma mapM_None_elem {A B} (f : A -> option B) (l : list A) (x : A) :
  x ∈ l -> f x = None -> mapM f l = None.
Proof.
  intros Hx Hf. destruct (mapM f l) as [k |] eqn:Hk; [| reflexivity].
  apply mapM_Some_1 in Hk.
  apply list_elem_of_lookup in Hx as [i Hi].
  destruct (Forall2_lookup_l _ _ _ _ _ Hk Hi) as (y & _ & Hy). congruence.
Qed.

Lemma rehydrateTracking_malformed (item : value) :
  malformed item -> rehydrateTracking item = None.
Proof.
  unfold malformed, rehydrateTracking.
  intros [-> | [-> | [Hevents | (events & Hevents & Hnull)]]];
    [reflexivity | reflexivity | |].
  - destruct item; try reflexivity.
    cbn [get_prop mbind option_bind]. unfold member in Hevents.
    cbn [get_prop default from_option id] in Hevents. rewrite Hevents.
    reflexivity.
  - destruct item; try discriminate Hevents.
    cbn [get_prop mbind option_bind]. unfold member in Hevents.
    cbn [get_prop default from_option id] in Hevents. rewrite Hevents.
    cbn [mbind option_bind].
    assert (Hmap : mapM rehydrateEvent events = None).
    { destruct Hnull as [Hin | Hin];
        apply (mapM_None_elem _ _ _ Hin); reflexivity. }
    rewrite Hmap. reflexivity.
Qed.

(** X6. One malformed row hides the whole collection: if the stored
    array holds a row that is null or undefined, or whose [events] is not an
    array, or one of whose events is null or undefined, getTrackings returns
    the empty list, and the next saveTracking writes a collection holding
    the saved tracking alone. *)
Theorem getTrackings_malformed_row (ls : LocalStorage) (data : string)
  (items : list value) (item : value) :
  ls !! STORAGE_KEY = Some data ->
  JSON_parse data = Some (VArr items) ->
  item ∈ items ->
  malformed item ->
  getTrackings ls = [] /\
  forall tracking,
    saveTracking ls tracking !! STORAGE_KEY
    = Some (JSON_stringify (VArr [Tracking_to_value tracking])).
Proof.
  intros Hdata Hparse Hitem Hbad.
  assert (Hempty : getTrackings ls = []).
  { unfold getTrackings. rewrite Hdata.
    destruct (negb (str_truthy data)); [reflexivity |].
    rewrite Hparse. cbn [as_array mbind option_bind].
    rewrite (mapM_None_elem _ _ _ Hitem (rehydrateTracking_malformed _ Hbad)).
    reflexivity. }
  split; [exact Hempty |].
  intros tracking. unfold saveTracking, persist. rewrite Hempty.
  apply lookup_insert_eq.
Qed.

End MalformedRows.

Lemma getTrackings_malformed_row_witness :
  let P := Samples.bangkok in
  let ls : Storage.LocalStorage := {[ Storage.STORAGE_KEY := "[null]" ]} in
  @Storage.getTrackings P ls = [] /\
  forall tracking,
    @Storage.saveTracking P ls tracking !! Storage.STORAGE_KEY
    = Some (@JSON_stringify P (VArr [Storage.Tracking_to_value tracking])).
Proof.
  intros P ls.
  apply (@getTrackings_malformed_row P ls "[null]" [VNull] VNull).
  - reflexivity.
  - vm_compute. reflexivity.
  - apply elem_of_cons. left. reflexivity.
  - left. reflexivity.
Defined.

(* ===================================================================== *)
(** * The aggregator: months, bounds and counts *)
(* ===================================================================== *)

Section MonthKeyFacts.
Import Analytics AggregatorSpec.
Context `{Platform}.

(** X7. formatMonth gives two valid dates the same key exactly when
    they have the same local year and the same local month, so no two
    calendar months share a key. *)
Theorem formatMonth_same_month (d d' : Date) (y y' : Z) (m m' : nat) :
  Date_getFullYear d = Some y -> Date_getMonth d = Some m ->
  Date_getFullYear d' = Some y' -> Date_getMonth d' = Some m' ->
  formatMonth d = formatMonth d' <-> y = y' /\ m = m'.
Proof.
  intros Hy Hm Hy' Hm'.
  assert (Hkey : formatMonth d = month_key y (S m)).
  { apply formatMonth_key. split; [exact Hy |]. split; [exact Hm | lia]. }
  rewrite Hkey. split.
  - intros Heq. symmetry in Heq. apply formatMonth_key in Heq as (Hy2 & Hm2 & _).
    cbn in Hm2. split; congruence.
  - intros [<- <-]. symmetry. apply formatMonth_key.
    split; [exact Hy' |]. split; [exact Hm' | lia].
Qed.

End MonthKeyFacts.

Lemma formatMonth_same_month_witness :
  @Analytics.formatMonth Samples.bangkok Samples.jan22
  = @Analytics.formatMonth Samples.bangkok Samples.jan31_late
  <-> 2026%Z = 2026%Z /\ 0%nat = 1%nat.
Proof.
  apply (@formatMonth_same_month Samples.bangkok); vm_compute; reflexivity.
Defined.

Section AnalyticsMore.
Import Analytics AggregatorSpec AnalyticsService.
Context `{Platform}.

(** X8. getTotalPackagesThisMonth is the number of trackings whose
    [createdAt] falls, in local time, in the calendar year and month of the
    current date. *)
Theorem getTotalPackagesThisMonth_current_month
  (trackings : list Tracking.t) (now : Date) (year : Z) (month : nat) :
  Date_getFullYear now = Some year ->
  Date_getMonth now = Some month ->
  getTotalPackagesThisMonth trackings now
  = length (List.filter (created_in year (S month)) trackings).
Proof.
  intros Hyear Hmonth.
  assert (Hkey : formatMonth now = month_key year (S month)).
  { apply formatMonth_key. split; [exact Hyear |]. split; [exact Hmonth | lia]. }
  unfold getTotalPackagesThisMonth, getMonthlyStats, getCurrentMonth, or_str.
  cbn [MonthlyStats.totalPackages]. rewrite Hkey.
  rewrite (List.filter_ext _ _
      (fun t => in_month_created_in year (S month) t ltac:(lia))).
  reflexivity.
Qed.

Lemma filter_length_le {A} (p : A -> bool) (l : list A) :
  (length (List.filter p l) <= length l)%nat.
Proof.
  induction l as [| x r IH]; cbn; [lia |]. destruct (p x); cbn; lia.
Qed.

Lemma filter_disjoint_length {A} (p q : A -> bool) (l : list A) :
  (forall x, p x = true -> q x = false) ->
  (length (List.filter p l) + length (List.filter q l) <= length l)%nat.
Proof.
  intros Hpq. induction l as [| x r IH]; cbn; [lia |].
  destruct (p x) eqn:Hp.
  - rewrite (Hpq x Hp). cbn. lia.
  - destruct (q x); cbn; lia.
Qed.

(** X9. In every result of getMonthlyStats, delivered and inTransit
    count disjoint sets of the month's packages: their sum is at most
    totalPackages, which is at most the number of trackings. *)
Theorem getMonthlyStats_bounds (trackings : list Tracking.t)
  (month : option string) (now : Date) :
  let stats := getMonthlyStats trackings month now in
  (MonthlyStats.delivered stats + MonthlyStats.inTransit stats
   <= MonthlyStats.totalPackages stats)%nat /\
  (MonthlyStats.totalPackages stats <= length trackings)%nat.
Proof.
  cbn zeta. unfold getMonthlyStats.
  cbn [MonthlyStats.delivered MonthlyStats.inTransit
       MonthlyStats.totalPackages].
  split; [| apply filter_length_le].
  apply filter_disjoint_length. intros t Ht.
  unfold isDelivered, status_in in *.
  apply bool_decide_eq_true in Ht. apply bool_decide_eq_false.
  rewrite Ht, !elem_of_cons, elem_of_nil. intuition discriminate.
Qed.

End AnalyticsMore.

Section DistributionMore.
Import Analytics AggregatorSpec.

Lemma sum_list_append (l k : list nat) :
  sum_list (l ++ k)%list = (sum_list l + sum_list k)%nat.
Proof. induction l as [| n r IH]; cbn; [reflexivity | rewrite IH; lia]. Qed.

Lemma alter_entry_counts (t : Tracking.t) k counts :
  is_Some (assoc_get k counts) ->
  sum_list (map (fun kv => Entry.count (snd kv))
              (alter_entry (bump t) k counts))
  = S (sum_list (map (fun kv => Entry.count (snd kv)) counts)) /\
  (Forall (fun kv => (1 <= Entry.count (snd kv))%nat) counts ->
   Forall (fun kv => (1 <= Entry.count (snd kv))%nat)
     (alter_entry (bump t) k counts)).
Proof.
  induction counts as [| [k' e] r IH]; cbn; [intros [x Hx]; discriminate |].
  destruct (String.eqb k k'); intros Hsome.
  - split; [reflexivity |].
    intros Hall. apply Forall_cons in Hall as [_ Hr].
    constructor; [cbn; lia | exact Hr].
  - destruct (IH Hsome) as [Hsum Hpos]. cbn. split; [rewrite Hsum; lia |].
    intros Hall. apply Forall_cons in Hall as [He Hr].
    constructor; [exact He | apply Hpos, Hr].
Qed.

Lemma tally_counts counts (t : Tracking.t) :
  sum_list (map (fun kv => Entry.count (snd kv)) (tally counts t))
  = S (sum_list (map (fun kv => Entry.count (snd kv)) counts)) /\
  (Forall (fun kv => (1 <= Entry.count (snd kv))%nat) counts ->
   Forall (fun kv => (1 <= Entry.count (snd kv))%nat) (tally counts t)).
Proof.
  unfold tally.
  destruct (assoc_get (Carrier.code (Tracking.carrier t)) counts) eqn:Hget.
  - apply alter_entry_counts. rewrite Hget. eauto.
  - split.
    + rewrite map_app, sum_list_append. cbn. lia.
    + intros Hall. apply Forall_app. split; [exact Hall |].
      constructor; [cbn; lia | constructor].
Qed.

Lemma fold_tally_counts (l : list Tracking.t) counts :
  sum_list (map (fun kv => Entry.count (snd kv)) (fold_left tally l counts))
  = (sum_list (map (fun kv => Entry.count (snd kv)) counts) + length l)%nat /\
  (Forall (fun kv => (1 <= Entry.count (snd kv))%nat) counts ->
   Forall (fun kv => (1 <= Entry.count (snd kv))%nat)
     (fold_left tally l counts)).
Proof.
  revert counts. induction l as [| t r IH]; intros counts; cbn [fold_left].
  - split; [cbn; lia | auto].
  - destruct (IH (tally counts t)) as [Hsum Hpos].
    destruct (tally_counts counts t) as [Hsum1 Hpos1].
    split; [rewrite Hsum, Hsum1; cbn; lia | auto].
Qed.

Lemma sum_list_bound (l : list nat) (n : nat) :
  n ∈ l -> (n <= sum_list l)%nat.
Proof.
  induction 1 as [n r | n m r _ IH]; cbn; lia.
Qed.

(** X10. getCourierDistribution lists each carrier code once, lists
    exactly the codes that occur among the trackings, gives every entry a
    count between 1 and the number of trackings, and the counts add up to
    the number of trackings. *)
Theorem getCourierDistribution_counts (trackings : list Tracking.t) :
  let dist := getCourierDistribution trackings in
  NoDup (map CourierDistribution.carrierCode dist) /\
  (forall code, code ∈ map CourierDistribution.carrierCode dist <->
                code ∈ map carrier_code trackings) /\
  Forall (fun d => (1 <= CourierDistribution.count d <= length trackings)%nat)
    dist /\
  sum_list (map CourierDistribution.count dist) = length trackings.
Proof.
  cbn zeta. unfold getCourierDistribution.
  destruct trackings as [| t r]; cbn [length Nat.eqb].
  { split; [constructor |]. split; [reflexivity |]. split; constructor. }
  set (l := t :: r). change (S (length r)) with (length l).
  destruct (tally_invariant l) as [Hkeys _].
  destruct (fold_tally_counts l []) as [Hsum Hpos].
  specialize (Hpos (Forall_nil_2 _)). cbn [map sum_list Nat.add] in Hsum.
  set (counts := fold_left tally l []) in *.
  assert (Hcodes : map CourierDistribution.carrierCode
                     (map (distribution_of (length l)) counts)
                   = map fst counts).
  { rewrite map_map. apply map_ext. intros [k e]. reflexivity. }
  assert (Hcounts : map CourierDistribution.count
                      (map (distribution_of (length l)) counts)
                    = map (fun kv => Entry.count (snd kv)) counts).
  { rewrite map_map. apply map_ext. intros [k e]. reflexivity. }
  rewrite Hcodes, Hcounts, Hkeys.
  split; [apply NoDup_first_occurrences |].
  split; [intros code; apply first_occurrences_elem |].
  split; [| exact Hsum].
  apply Forall_forall. intros d Hd.
  apply list_elem_of_fmap in Hd as ([k e] & -> & Hin).
  cbn [distribution_of CourierDistribution.count]. split.
  - apply (proj1 (Forall_forall _ _) Hpos _ Hin).
  - rewrite <- Hsum. apply sum_list_bound.
    apply (list_elem_of_fmap_2 (fun kv => Entry.count (snd kv)) _ _ Hin).
Qed.

Lemma distribution_perm (l l' : list Tracking.t) (code : string) :
  l ≡ₚ l' ->
  (fun d => (CourierDistribution.carrierCode d, CourierDistribution.count d,
             CourierDistribution.percentage d)) <$> distribution l code
  = (fun d => (CourierDistribution.carrierCode d, CourierDistribution.count d,
               CourierDistribution.percentage d)) <$> distribution l' code.
Proof.
  intros Hperm. unfold distribution.
  pose proof (filter_length_perm
                (fun t => String.eqb (carrier_code t) code) l l' Hperm)
    as Hgroup.
  fold (group code l) (group code l') in Hgroup.
  pose proof (Permutation_length Hperm) as Hlen.
  destruct (group code l) as [| first rest],
           (group code l') as [| first' rest']; try discriminate Hgroup;
    [reflexivity |].
  cbn [fmap option_fmap option_map CourierDistribution.carrierCode
       CourierDistribution.count CourierDistribution.percentage].
  rewrite Hgroup, Hlen. reflexivity.
Qed.

(** X11. Reordering the trackings changes neither which carrier codes
    getCourierDistribution lists nor their counts and percentages: the
    (code, count, percentage) rows of the two results are the same up to
    order. *)
Theorem getCourierDistribution_reordered (l l' : list Tracking.t) :
  l ≡ₚ l' ->
  map (fun d => (CourierDistribution.carrierCode d,
                 CourierDistribution.count d,
                 CourierDistribution.percentage d))
      (getCourierDistribution l)
  ≡ₚ
  map (fun d => (CourierDistribution.carrierCode d,
                 CourierDistribution.count d,
                 CourierDistribution.percentage d))
      (getCourierDistribution l').
Proof.
  intros Hperm. rewrite !getCourierDistribution_courierDistribution.
  unfold courierDistribution.
  set (key := fun d => (CourierDistribution.carrierCode d,
                        CourierDistribution.count d,
                        CourierDistribution.percentage d)).
  change (map key ?x) with (key <$> x). rewrite !list_fmap_omap.
  assert (Hcodes : first_occurrences (map carrier_code l)
                   ≡ₚ first_occurrences (map carrier_code l')).
  { apply NoDup_Permutation; try apply NoDup_first_occurrences.
    intros c. rewrite !first_occurrences_elem.
    assert (Hmap : map carrier_code l ≡ₚ map carrier_code l')
      by (apply Permutation_map, Hperm).
    rewrite Hmap. reflexivity. }
  rewrite Hcodes. apply reflexive_eq. apply list_omap_ext.
  apply Forall2_same_length_lookup. split; [reflexivity |].
  intros i c c' Hc Hc'. assert (c' = c) by congruence. subst c'.
  apply (distribution_perm l l' c Hperm).
Qed.

End DistributionMore.

Section StoredDistribution.
Import Storage Analytics.
Context `{Platform}.

(** X12. Behind LocalStorageService no courier ever gets an average:
    for the trackings any store reads as, every entry of
    getCourierDistribution has [avgTransitDays] absent, since
    rehydrateTracking returns no [transitDays]. *)
Theorem stored_distribution_has_no_average (ls : LocalStorage)
  (trackings : list Tracking.t) :
  mapM value_to_Tracking (getTrackings ls) = Some trackings ->
  Forall (fun d => CourierDistribution.avgTransitDays d = None)
    (getCourierDistribution trackings).
Proof.
  intros Htyped. apply getCourierDistribution_no_average.
  apply mapM_Some_1 in Htyped.
  apply Forall_forall. intros t Ht.
  apply list_elem_of_lookup in Ht as [i Hi].
  destruct (Forall2_lookup_r _ _ _ _ _ Htyped Hi) as (v & Hv & Hview).
  apply (stored_transitDays_absent ls v t); [| exact Hview].
  eapply list_elem_of_lookup_2, Hv.
Qed.

End StoredDistribution.

(* ===================================================================== *)
(** * The gateway client: calls and errors *)
(* ===================================================================== *)

Section GatewayFacts.
Import Track123.
Context `{Platform} (G : Gateway).

Lemma request_trace {T} (answer : list Event -> HttpResult T) ev w :
  snd (request answer ev w) = logged ev w.
Proof.
  unfold request, history, emit, mbind, M_bind, throw, mret, M_ret.
  destruct (answer (trace w)) as [message | status body]; [reflexivity |].
  destruct (response_ok status); reflexivity.
Qed.

Lemma mapM_mapToTracking_imap l w :
  mapM (mapToTracking G) l w
  = (Ok (imap (fun i c => mapToTracking_with (uuid_at G (created w + i))
                            (now_at G (created w + i)) c) l),
     {| trace := trace w; created := created w + length l |}).
Proof.
  revert w. induction l as [| c cs IH]; intros w.
  - cbn. rewrite Nat.add_0_r. destruct w; reflexivity.
  - cbn [mapM]. erewrite bind_ok; [| apply mapToTracking_run].
    erewrite bind_ok; [| apply IH].
    unfold mret, M_ret. cbn [trace created length imap].
    rewrite Nat.add_0_r. f_equal; [| f_equal; lia].
    f_equal. f_equal. apply imap_ext. intros i x _. cbn.
    rewrite ?Nat.add_succ_r. reflexivity.
Qed.

(** X13. On a 2xx answer with code "00000" and content, getTrackings
    returns one Tracking per content entry, in order, the i-th made from the
    i-th entry with the i-th next UUID and clock reading: their tracking
    numbers are the entries' [trackNo], whatever numbers were asked for, and
    it sends the one query. *)
Theorem getTrackings_one_per_entry (tns : list string) (w : World)
  (status : Z) (body : BaseResponse.t QueryResponseData.t)
  (content : list TrackingContent.t) :
  query_response G (trace w) tns = Response status body ->
  response_ok status = true ->
  BaseResponse.code body = "00000" ->
  response_content body = Some content ->
  let ts := imap (fun i c => mapToTracking_with (uuid_at G (created w + i))
                               (now_at G (created w + i)) c) content in
  getTrackings G tns w
  = (Ok ts, {| trace := trace w ++ [query_event tns];
               created := created w + length content |}) /\
  map Tracking.trackingNumber ts = map TrackingContent.trackNo content /\
  map Tracking.id ts = map (uuid_at G) (seq (created w) (length content)).
Proof.
  intros Hq Hok Hcode Hcontent ts. split; [| split].
  - unfold getTrackings.
    erewrite bind_ok;
      [| apply (request_ok (fun past => query_response G past tns) _ _ _ _ Hq
            Hok)].
    rewrite Hcode, Hcontent, String.eqb_refl. cbn [negb].
    rewrite mapM_mapToTracking_imap. reflexivity.
  - subst ts. generalize (created w). clear.
    induction content as [| c cs IH]; intros n; [reflexivity |].
    cbn [imap map]. f_equal.
    rewrite <- (IH (S n)). f_equal. apply imap_ext. intros i x _. cbn.
    rewrite ?Nat.add_succ_r. reflexivity.
  - subst ts. generalize (created w). clear.
    induction content as [| c cs IH]; intros n; [reflexivity |].
    cbn [imap map length seq]. rewrite Nat.add_0_r. f_equal.
    rewrite <- (IH (S n)). f_equal. apply imap_ext. intros i x _. cbn.
    rewrite ?Nat.add_succ_r. reflexivity.
Qed.

Lemma getTrackings_trace tns w :
  trace (snd (getTrackings G tns w)) = (trace w ++ [query_event tns])%list.
Proof.
  unfold getTrackings.
  pose proof (request_trace (fun past => query_response G past tns)
                (query_event tns) w) as Hreq.
  unfold mbind at 1, M_bind.
  destruct (request _ _ w) as [[response | e] w1]; cbn [snd] in Hreq;
    subst w1; [| reflexivity].
  destruct (negb _); [reflexivity |].
  destruct (response_content response) as [content |]; [| reflexivity].
  rewrite mapM_mapToTracking_imap. reflexivity.
Qed.

Lemma registerTracking_trace tn w :
  snd (registerTracking G tn w) = logged (import_event tn) w.
Proof.
  unfold registerTracking.
  pose proof (request_trace (fun past => import_response G past tn)
                (import_event tn) w) as Hreq.
  unfold mbind, M_bind.
  destruct (request _ _ w) as [[response | e] w1]; cbn [snd] in Hreq;
    subst w1; [| reflexivity].
  destruct (negb _); reflexivity.
Qed.

(** X14. registerTracking sends exactly one request, to /track/import,
    whatever the answer.  It returns normally exactly when the answer is a
    2xx response carrying code "00000", and throws exactly when fetch is
    rejected, the status is not 2xx, or the code is another one. *)
Theorem registerTracking_outcome (tn : string) (w : World) :
  let answer := import_response G (trace w) tn in
  snd (registerTracking G tn w) = logged (import_event tn) w /\
  (registered answer <-> fst (registerTracking G tn w) = Ok tt) /\
  (registration_failed answer <->
   exists e, fst (registerTracking G tn w) = Throw e).
Proof.
  intros answer. split; [apply registerTracking_trace |].
  assert (Hcases : registered answer \/ registration_failed answer).
  { unfold registered, registration_failed.
    destruct answer as [| status body]; [right; exact I |].
    destruct (response_ok status); [| right; left; reflexivity].
    destruct (String.eqb_spec (BaseResponse.code body) "00000");
      [left; split; [reflexivity | assumption] | right; right; assumption]. }
  assert (Hexcl : registered answer -> registration_failed answer -> False).
  { unfold registered, registration_failed.
    destruct answer as [| status body]; [tauto |].
    intros [Hok Hcode] [Hbad | Hbad]; congruence. }
  split; split.
  - intros Hreg. rewrite (registerTracking_ok G tn w Hreg). reflexivity.
  - intros Hrun. destruct Hcases as [Hreg | Hfail]; [exact Hreg |].
    destruct (registerTracking_fails G tn w Hfail) as [e He].
    rewrite He in Hrun. discriminate.
  - intros Hfail. destruct (registerTracking_fails G tn w Hfail) as [e He].
    exists e. rewrite He. reflexivity.
  - intros [e He]. destruct Hcases as [Hreg | Hfail]; [| exact Hfail].
    rewrite (registerTracking_ok G tn w Hreg) in He. discriminate.
Qed.

(** X15. Whatever the gateway answers, instantTrack sends one of three
    sequences of calls: the query alone; the query and a registration; or
    the query, a registration, the 500 ms wait and the query again.  It
    never queries more than twice nor registers more than once. *)
Theorem instantTrack_calls (tn : string) (nickname : option string)
  (w : World) :
  let query := query_event [tn] in
  exists calls,
    trace (snd (instantTrack G tn nickname w)) = (trace w ++ calls)%list /\
    (calls = [query] \/
     calls = [query; import_event tn] \/
     calls = [query; import_event tn; EvTimeout 500; query]).
Proof.
  cbn zeta. unfold instantTrack.
  pose proof (getTrackings_trace [tn] w) as H1.
  unfold mbind at 1, M_bind.
  destruct (getTrackings G [tn] w) as [[ts | e] w1]; cbn [snd] in H1.
  2:{ exists [query_event [tn]]. cbn [snd]. auto. }
  unfold mbind, M_bind.
  destruct ts as [| t ts]; cbn [length Nat.eqb].
  2:{ exists [query_event [tn]]. cbn [snd]. unfold mret, M_ret. cbn. auto. }
  unfold try_catch.
  pose proof (registerTracking_trace tn w1) as H2.
  destruct (registerTracking G tn w1) as [[[] | e] w2]; cbn [snd] in H2;
    subst w2.
  2:{ exists [query_event [tn]; import_event tn].
      unfold mret, M_ret, throw. cbn [snd logged trace]. rewrite H1.
      rewrite <- app_assoc. auto. }
  unfold emit.
  pose proof (getTrackings_trace [tn]
                (logged (EvTimeout 500) (logged (import_event tn) w1)))
    as H3.
  exists [query_event [tn]; import_event tn; EvTimeout 500; query_event [tn]].
  split; [| auto].
  destruct (getTrackings G [tn] _) as [[ts | e] w4]; cbn [snd] in H3.
  - destruct ts; unfold mret, M_ret, throw; cbn [snd]; rewrite H3;
      cbn [logged trace]; rewrite H1, <- !app_assoc; reflexivity.
  - unfold mret, M_ret, throw; cbn [snd]; rewrite H3;
      cbn [logged trace]; rewrite H1, <- !app_assoc; reflexivity.
Qed.

(** X16. An error thrown by instantTrack is either the one its first
    query threw or "Tracking info not found": errors of the registration and
    of the second query never reach the caller. *)
Theorem instantTrack_errors (tn : string) (nickname : option string)
  (w : World) (e : Error) :
  fst (instantTrack G tn nickname w) = Throw e ->
  fst (getTrackings G [tn] w) = Throw e \/
  e = mkError "Tracking info not found".
Proof.
  unfold instantTrack. unfold mbind at 1, M_bind.
  destruct (getTrackings G [tn] w) as [[ts | e1] w1]; cbn [fst];
    [| intros [= ->]; left; reflexivity].
  unfold mbind, M_bind.
  destruct ts as [| t ts]; cbn [length Nat.eqb];
    [| unfold mret, M_ret; cbn; discriminate].
  unfold try_catch.
  destruct (registerTracking G tn w1) as [[[] | e2] w2].
  2:{ unfold mret, M_ret, throw. cbn. intros [= <-]. right; reflexivity. }
  unfold emit.
  destruct (getTrackings G [tn] _) as [[ts | e3] w4].
  - destruct ts; unfold mret, M_ret, throw; cbn; [| discriminate].
    intros [= <-]. right; reflexivity.
  - unfold mret, M_ret, throw. cbn. intros [= <-]. right; reflexivity.
Qed.

End GatewayFacts.

(* ===================================================================== *)
(** * The gateway client: mapping, carriers and the factory *)
(* ===================================================================== *)

Section CarrierFacts.
Import Track123 Carriers.

Lemma or_str_nonempty (a : option string) (b : string) :
  b <> "" -> or_str a b <> "".
Proof.
  intros Hb. unfold or_str. destruct a as [[| c s] |]; cbn; congruence.
Qed.

(** X17. getCarriers sends exactly one request, GET /courier/list.  It
    throws only the request's own error (a rejected fetch, or "API request
    failed: <status>" on a non-2xx status).  On a 2xx answer with another
    code than "00000" or without data it returns the empty list; otherwise
    one carrier per entry, in order, with the entry's code and home page and
    as name the first non-empty of its English name, its Chinese name and
    its code. *)
Theorem getCarriers_outcome
  (carriers_response : list Event -> HttpResult (list CarrierData.t))
  (w : World) :
  let run := getCarriers carriers_response w in
  snd run = logged carriers_event w /\
  match carriers_response (trace w) with
  | Rejected message => fst run = Throw (mkError message)
  | Response status body =>
      if response_ok status then
        exists carriers,
          fst run = Ok carriers /\
          (BaseResponse.code body <> "00000" -> carriers = []) /\
          (BaseResponse.data body = None -> carriers = []) /\
          (forall data,
             BaseResponse.code body = "00000" ->
             BaseResponse.data body = Some data ->
             map Carrier.code carriers = map CarrierData.courierCode data /\
             map Carrier.trackingUrl carriers
             = map CarrierData.courierHomePage data /\
             Forall2
               (fun carrier c =>
                  Carrier.name carrier
                  = if decide (CarrierData.courierNameEN c = "")
                    then if decide (CarrierData.courierNameCN c = "")
                         then CarrierData.courierCode c
                         else CarrierData.courierNameCN c
                    else CarrierData.courierNameEN c)
               carriers data)
      else
        fst run
        = Throw (mkError ("API request failed: " +:+ Z_toString status))
  end.
Proof.
  cbn zeta. unfold getCarriers, request, history, emit, mbind, M_bind, throw,
    mret, M_ret.
  destruct (carriers_response (trace w)) as [message | status body];
    [split; reflexivity |].
  destruct (response_ok status); [| split; reflexivity].
  destruct (String.eqb_spec (BaseResponse.code body) "00000") as [Hcode | Hcode];
    cbn [negb].
  - destruct (BaseResponse.data body) as [data |].
    + split; [reflexivity |]. exists (map toCarrier data).
      split; [reflexivity |]. split; [congruence |]. split; [discriminate |].
      intros data' _ [= <-]. rewrite !map_map.
      split; [reflexivity |]. split; [reflexivity |].
      clear. induction data as [| c r IH]; constructor; [| exact IH].
      cbn [toCarrier Carrier.name]. rewrite !or_str_some. reflexivity.
    + split; [reflexivity |]. exists []. split; [reflexivity |].
      split; [reflexivity |]. split; [reflexivity |]. discriminate.
  - split; [reflexivity |]. exists []. split; [reflexivity |].
    split; [reflexivity |]. split; [reflexivity |]. congruence.
Qed.

End CarrierFacts.

Section MappingFacts.
Import Track123.
Context `{Platform}.

(** X18. The Tracking mapToTracking builds never has an empty carrier
    code or carrier name (they fall back to "unknown" and "Unknown"); without
    logistics information it has that fallback carrier and no events.  Its
    id is the fresh UUID, its tracking number and nickname are the entry's
    [trackNo], it carries the entry's [transitDays], no estimated delivery,
    [createdAt] = [updatedAt] = the current date, and one event per tracking
    detail, in order, with the detail's description. *)
Theorem mapToTracking_with_wellformed (uuid : string) (now : Date)
  (data : TrackingContent.t) :
  let t := mapToTracking_with uuid now data in
  let details :=
    default [] (TrackingContent.localLogisticsInfo data
                  ≫= LocalLogisticsInfo.trackingDetails) in
  Carrier.code (Tracking.carrier t) <> "" /\
  Carrier.name (Tracking.carrier t) <> "" /\
  (TrackingContent.localLogisticsInfo data = None ->
     Tracking.carrier t = Carrier.mk "unknown" "Unknown" None None /\
     Tracking.events t = []) /\
  Tracking.id t = uuid /\
  Tracking.trackingNumber t = TrackingContent.trackNo data /\
  Tracking.nickname t = TrackingContent.trackNo data /\
  Tracking.transitDays t = TrackingContent.transitDays data /\
  Tracking.estimatedDelivery t = None /\
  Tracking.createdAt t = now /\ Tracking.updatedAt t = now /\
  map TrackingEvent.description (Tracking.events t)
  = map TrackingDetail.eventDetail details.
Proof.
  cbn zeta. unfold mapToTracking_with, createTracking.
  cbn [Tracking.carrier Tracking.events Tracking.id Tracking.trackingNumber
       Tracking.nickname Tracking.transitDays Tracking.estimatedDelivery
       Tracking.createdAt Tracking.updatedAt CreateParams.trackingNumber
       CreateParams.nickname CreateParams.carrier CreateParams.status
       CreateParams.events CreateParams.transitDays Carrier.code Carrier.name
       default from_option id].
  split; [apply or_str_nonempty; discriminate |].
  split; [apply or_str_nonempty, or_str_nonempty; discriminate |].
  split; [intros ->; split; reflexivity |].
  repeat (split; [reflexivity |]).
  split.
  - unfold or_str. destruct (TrackingContent.trackNo data); reflexivity.
  - repeat (split; [reflexivity |]). rewrite map_map. reflexivity.
Qed.

(** X19. mapTrack123Status maps the name of every internal status to
    that status, where toUpperCase upper-cases ASCII strings letter by
    letter: the normalizer is the identity on its own vocabulary. *)
Theorem mapTrack123Status_status_name :
  (forall s, string_forallb is_ascii s = true ->
             toUpperCase s = ascii_upper s) ->
  forall d, mapTrack123Status (Some (status_name d)) = d.
Proof.
  intros Hupper d. unfold mapTrack123Status.
  destruct d; cbn [status_name str_truthy];
    rewrite Hupper by reflexivity; vm_compute; reflexivity.
Qed.

End MappingFacts.

Lemma mapTrack123Status_status_name_witness :
  map (fun d => @mapTrack123Status (RefPlatform.host 0) (Some (status_name d)))
    all_statuses
  = all_statuses.
Proof.
  pose proof (@mapTrack123Status_status_name (RefPlatform.host 0)
                (fun s _ => eq_refl)) as Hall.
  unfold all_statuses. cbn [map]. rewrite !Hall. reflexivity.
Defined.

Section FactoryFacts.
Import Track123 Factory.
Context `{Platform} (G : Gateway).

(** X20. The Track123Service constructor throws exactly on the empty
    key, and createTrackingService never throws: with a non-empty key it
    returns the real service holding that key, and with no key or the empty
    one the mock, whose instantTrack contacts nothing and returns an
    in_transit "Mock Express" tracking without events whose tracking number
    and nickname are the number asked for. *)
Theorem createTrackingService_never_throws (apiKey : option string) :
  (forall key, new_Track123Service key
               = Throw (mkError "Track123 API key is required")
               <-> key = "") /\
  exists service,
    createTrackingService apiKey = Ok service /\
    (forall key, service = Track123Service key <->
                 apiKey = Some key /\ key <> "") /\
    (service = MockTrack123Service ->
     forall trackingNumber w,
     exists t,
       Factory.instantTrack G service trackingNumber w
       = (Ok t, {| trace := trace w; created := S (created w) |}) /\
       Tracking.trackingNumber t = trackingNumber /\
       Tracking.nickname t = trackingNumber /\
       Tracking.status t = in_transit /\
       Tracking.events t = [] /\
       Carrier.name (Tracking.carrier t) = "Mock Express").
Proof.
  split.
  - intros [| c s]; cbn; split; congruence.
  - destruct apiKey as [[| c s] |]; cbn.
    + exists MockTrack123Service. split; [reflexivity |].
      split; [intros key; split; [discriminate | intros [[= <-] Hne];
        congruence] |].
      intros _ tn w. eexists. split; [reflexivity |]. cbn. auto.
    + exists (Track123Service (String c s)). split; [reflexivity |].
      split; [| discriminate].
      intros key. split; [intros [= <-]; split; [reflexivity | discriminate] |
                          intros [[= <-] _]; reflexivity].
    + exists MockTrack123Service. split; [reflexivity |].
      split; [intros key; split; [discriminate | intros [Hk _];
        discriminate] |].
      intros _ tn w. eexists. split; [reflexivity |]. cbn. auto.
Qed.

End FactoryFacts.

(* ===================================================================== *)
(** * The application: tracking a number *)
(* ===================================================================== *)

Section AppFacts.
Import Track123 Storage App.
Context `{Platform} (G : Gateway) (trackingService : Factory.TrackingService).
Context (setItem_throws : LocalStorage -> string -> string -> option string).

(** X21. App.handleTrack always ends with isLoading false.  When
    instantTrack throws, or when it returns and the write of saveTracking
    throws, localStorage, the displayed trackings and the page are left as
    they were and the error shown is the thrown message.  When the write
    goes through, only the storage key is written (the collection
    saveTracking builds), the displayed trackings are what the store then
    reads as, the page is the list and no error is shown.  What is then
    displayed is the tracking instantTrack returned: its tracking number,
    which is the one the gateway answered with and which the handler never
    compares with the number submitted, is among the displayed numbers when
    the stored numbers are strings and the codec carries the written
    array; with the mock service it is the number submitted. *)
Theorem handleTrack_outcome (trackingNumber : string) (s : State)
  (ls : LocalStorage) (w : World) :
  let run := Factory.instantTrack G trackingService trackingNumber w in
  let '(s', ls', w') :=
    handleTrack G trackingService setItem_throws trackingNumber s ls w in
  isLoading s' = false /\
  w' = snd run /\
  match fst run with
  | Throw (mkError message) =>
      ls' = ls /\
      trackings s' = trackings s /\
      currentPage s' = currentPage s /\
      error s' = Some message
  | Ok result =>
      let new := upsert (getTrackings ls) result in
      let text := JSON_stringify (VArr new) in
      match setItem_throws ls STORAGE_KEY text with
      | Some message =>
          ls' = ls /\
          trackings s' = trackings s /\
          currentPage s' = currentPage s /\
          error s' = Some message
      | None =>
          ls' !! STORAGE_KEY = Some text /\
          (forall key, key <> STORAGE_KEY -> ls' !! key = ls !! key) /\
          trackings s' = getTrackings ls' /\
          currentPage s' = page_list /\
          error s' = None /\
          (Forall is_string (numbers (getTrackings ls)) ->
           str_truthy text = true ->
           JSON_parse text = Some (jsonify (VArr new)) ->
           VStr (Tracking.trackingNumber result) ∈ numbers (trackings s')) /\
          (trackingService = Factory.MockTrack123Service ->
           Tracking.trackingNumber result = trackingNumber)
      end
  end.
Proof.
  cbn zeta. unfold handleTrack.
  destruct (Factory.instantTrack G trackingService trackingNumber w)
    as [[result | [message]] w'] eqn:Hrun; cbn [fst snd].
  - destruct (setItem_throws ls STORAGE_KEY
                (JSON_stringify (VArr (upsert (getTrackings ls) result))))
      as [message |];
      cbn [isLoading trackings currentPage error loadTrackings].
    + repeat (split; [reflexivity |]). reflexivity.
    + split; [reflexivity |]. split; [reflexivity |].
      split; [apply lookup_insert_eq |].
      split; [intros key Hkey; apply lookup_insert_ne; congruence |].
      split; [reflexivity |]. split; [reflexivity |]. split; [reflexivity |].
      split.
      * intros Hstrings Htext Hparse.
        rewrite (saveTracking_then_numbers ls result Htext Hparse).
        destruct (upsert_lookup (getTrackings ls) result)
          as (i & Hi & Hother).
        assert (Hin : VStr (Tracking.trackingNumber result)
                      ∈ numbers (upsert (getTrackings ls) result)).
        { unfold numbers.
          apply (list_elem_of_fmap_2 (member "trackingNumber") _
                   (Tracking_to_value result)).
          eapply list_elem_of_lookup_2, Hi. }
        apply list_elem_of_fmap.
        exists (VStr (Tracking.trackingNumber result)).
        split; [reflexivity | exact Hin].
      * intros Hmock. rewrite Hmock in Hrun. cbn in Hrun.
        injection Hrun as <- _. reflexivity.
  - cbn [isLoading trackings currentPage error].
    repeat (split; [reflexivity |]). reflexivity.
Qed.

(** X22. App.handleDelete leaves the page, the loading flag and the
    error as they were and writes only the storage key, with the records
    whose id differs; the displayed trackings are what the store then reads
    as, and none of them has the deleted id, their ids being the stored ids
    without it (stored ids being strings and the codec carrying the written
    array). *)
Theorem handleDelete_outcome (id : string) (s : State) (ls : LocalStorage) :
  let old := getTrackings ls in
  let kept := Repository.without_id old id in
  let text := JSON_stringify (VArr kept) in
  let '(s', ls') := handleDelete id s ls in
  currentPage s' = currentPage s /\
  isLoading s' = isLoading s /\
  error s' = error s /\
  ls' !! STORAGE_KEY = Some text /\
  (forall key, key <> STORAGE_KEY -> ls' !! key = ls !! key) /\
  trackings s' = getTrackings ls' /\
  (Forall is_string (Repository.ids old) ->
   str_truthy text = true ->
   JSON_parse text = Some (jsonify (VArr kept)) ->
   Forall (fun t => member "id" t <> VStr id) (trackings s') /\
   Repository.ids (trackings s')
   = List.filter (fun v => negb (strict_equals v (VStr id)))
       (Repository.ids old)).
Proof.
  cbn zeta. unfold handleDelete, loadTrackings, Repository.deleteTracking.
  cbn [currentPage isLoading error trackings].
  repeat (split; [reflexivity |]).
  split; [apply lookup_insert_eq |].
  split; [intros key Hkey; apply lookup_insert_ne; congruence |].
  split; [reflexivity |].
  intros Hstrings Htext Hparse.
  set (old := getTrackings ls) in *.
  set (kept := Repository.without_id old id) in *.
  assert (Hkept : Forall storable kept).
  { apply without_id_storable, getTrackings_storable. }
  pose proof (persist_then_getTrackings ls kept Hkept Htext Hparse) as Hread.
  apply (reread_ids _ _ Hkept) in Hread.
  assert (Hids : Repository.ids (getTrackings (persist ls kept))
                 = List.filter (fun v => negb (strict_equals v (VStr id)))
                     (Repository.ids old)).
  { rewrite Hread. subst kept. rewrite ids_without_id.
    apply reparsed_strings.
    apply Forall_forall. intros v Hv.
    apply list_elem_of_In, filter_In in Hv as [Hv _].
    apply list_elem_of_In in Hv. revert v Hv. apply Forall_forall, Hstrings. }
  split; [| exact Hids].
  apply Forall_forall. intros t Ht Heq.
  assert (Hin : VStr id ∈ Repository.ids (getTrackings (persist ls kept))).
  { rewrite <- Heq. unfold Repository.ids. apply list_elem_of_fmap_2, Ht. }
  rewrite Hids in Hin.
  apply list_elem_of_In, filter_In in Hin as [_ Hin].
  cbn [strict_equals] in Hin. rewrite String.eqb_refl in Hin. discriminate.
Qed.

End AppFacts.

(** The number displayed is the gateway's: a gateway that answers every
    query with TH0001 makes [handleTrack] store and display TH0001 for
    another number. *)
Example handleTrack_displays_the_answer :
  let '(s', ls', _) :=
    @App.handleTrack Samples.bangkok Samples.knows
      (Factory.Track123Service "key") (fun _ _ _ => None) "ZZ999"
      (App.mkState App.page_home [] false None) ∅ Samples.start in
  Storage.numbers (App.trackings s') = [VStr "TH0001"] /\
  App.currentPage s' = App.page_list /\
  App.error s' = None.
Proof. vm_compute. auto. Qed.

(** A write that throws: the tracking was found, nothing is stored, and the
    message of the exception is shown on the page the user was on. *)
Example handleTrack_write_throws :
  let '(s', ls', _) :=
    @App.handleTrack Samples.bangkok Samples.knows
      (Factory.Track123Service "key")
      (fun _ _ _ => Some "The quota has been exceeded.") "TH0001"
      (App.mkState App.page_home [] false None) ∅ Samples.start in
  ls' = ∅ /\
  App.trackings s' = [] /\
  App.currentPage s' = App.page_home /\
  App.isLoading s' = false /\
  App.error s' = Some "The quota has been exceeded.".
Proof. vm_compute. auto. Qed.

(* ===================================================================== *)
(** * The components *)
(* ===================================================================== *)

Section ComponentFacts.
Import Components.

Lemma topCourier_fold (rest processed : list CourierDistribution.t)
  (acc : CourierDistribution.t) :
  (exists before after,
     processed = (before ++ acc :: after)%list /\
     Forall (fun d => (CourierDistribution.count d
                       <= CourierDistribution.count acc)%nat) before /\
     Forall (fun d => (CourierDistribution.count d
                       < CourierDistribution.count acc)%nat) after) ->
  let top := fold_left
               (fun a b =>
                  if (CourierDistribution.count b <?
                      CourierDistribution.count a)%nat
                  then a else b)
               rest acc in
  exists before after,
    (processed ++ rest)%list = (before ++ top :: after)%list /\
    Forall (fun d => (CourierDistribution.count d
                      <= CourierDistribution.count top)%nat) before /\
    Forall (fun d => (CourierDistribution.count d
                      < CourierDistribution.count top)%nat) after.
Proof.
  revert processed acc. induction rest as [| b rest IH];
    intros processed acc (before & after & Hsplit & Hbefore & Hafter);
    cbn zeta; cbn [fold_left].
  - exists before, after. rewrite app_nil_r. auto.
  - replace (processed ++ b :: rest)%list
      with ((processed ++ [b]) ++ rest)%list
      by (rewrite <- app_assoc; reflexivity).
    apply IH.
    destruct (Nat.ltb_spec (CourierDistribution.count b)
                (CourierDistribution.count acc)) as [Hlt | Hge].
    + exists before, (after ++ [b])%list. split; [| split].
      * rewrite Hsplit, <- app_assoc. reflexivity.
      * exact Hbefore.
      * apply Forall_app. split; [exact Hafter |].
        constructor; [exact Hlt | constructor].
    + exists processed, []. split; [reflexivity |]. split; [| constructor].
      rewrite Hsplit. apply Forall_app. split.
      * eapply Forall_impl; [exact Hbefore |]. cbn. intros d Hd. lia.
      * constructor; [exact Hge |].
        eapply Forall_impl; [exact Hafter |]. cbn. intros d Hd. lia.
Qed.

(** X23. The dashboard's top courier is null exactly for an empty
    distribution; otherwise it is an entry of the distribution with the
    greatest count, and of the entries sharing that count the last one. *)
Theorem topCourier_is_last_maximum (courierDist : list CourierDistribution.t) :
  match topCourier courierDist with
  | None => courierDist = []
  | Some top =>
      exists before after,
        courierDist = (before ++ top :: after)%list /\
        Forall (fun d => (CourierDistribution.count d
                          <= CourierDistribution.count top)%nat) before /\
        Forall (fun d => (CourierDistribution.count d
                          < CourierDistribution.count top)%nat) after
  end.
Proof.
  destruct courierDist as [| first rest]; [reflexivity |].
  cbn [topCourier].
  apply (topCourier_fold rest [first] first).
  exists [], []. split; [reflexivity |]. split; constructor.
Qed.

Lemma insert_Permutation {A} (compare : A -> A -> Z) (x : A) (l : list A) :
  insert compare x l ≡ₚ x :: l.
Proof.
  induction l as [| y r IH]; cbn; [reflexivity |].
  destruct (compare x y <=? 0)%Z; [reflexivity |].
  rewrite IH. apply Permutation_swap.
Qed.

Lemma Array_sort_Permutation {A} (compare : A -> A -> Z) (l : list A) :
  Array_sort compare l ≡ₚ l.
Proof.
  induction l as [| x r IH]; cbn; [reflexivity |].
  rewrite insert_Permutation, IH. reflexivity.
Qed.

Lemma insert_filter {A} (compare : A -> A -> Z) (p : A -> bool) (x : A)
  (l : list A) :
  (forall y, y ∈ l -> p x = true -> p y = true -> (compare x y <= 0)%Z) ->
  List.filter p (insert compare x l) = List.filter p (x :: l).
Proof.
  induction l as [| y r IH]; intros Hties; [reflexivity |].
  cbn [insert].
  destruct (Z.leb_spec (compare x y) 0) as [Hle | Hgt]; [reflexivity |].
  cbn [List.filter]. rewrite IH.
  - cbn [List.filter].
    destruct (p x) eqn:Hx, (p y) eqn:Hy; try reflexivity.
    specialize (Hties y ltac:(left) eq_refl Hy). lia.
  - intros z Hz. apply Hties. right. exact Hz.
Qed.

Lemma Array_sort_filter {A} (compare : A -> A -> Z) (p : A -> bool)
  (l : list A) :
  (forall x y, x ∈ l -> y ∈ l -> p x = true -> p y = true ->
               (compare x y <= 0)%Z) ->
  List.filter p (Array_sort compare l) = List.filter p l.
Proof.
  induction l as [| x r IH]; intros Hties; [reflexivity |].
  cbn [Array_sort]. rewrite insert_filter.
  - cbn [List.filter]. rewrite IH; [reflexivity |].
    intros a b Ha Hb. apply Hties; right; assumption.
  - intros y Hy. apply Hties; [left |].
    right. rewrite <- (Array_sort_Permutation compare r). exact Hy.
Qed.

Lemma insert_sorted {A} (compare : A -> A -> Z) (key : A -> Z) (x : A)
  (l : list A) :
  (forall y, y ∈ l -> compare x y = (key y - key x)%Z) ->
  StronglySorted (fun a b => (key b <= key a)%Z) l ->
  StronglySorted (fun a b => (key b <= key a)%Z) (insert compare x l).
Proof.
  induction l as [| y r IH]; intros Hcmp Hsorted; cbn [insert].
  - constructor; constructor.
  - apply StronglySorted_inv in Hsorted as [Hr Hy].
    destruct (Z.leb_spec (compare x y) 0) as [Hle | Hgt].
    + rewrite (Hcmp y ltac:(left)) in Hle.
      constructor; [constructor; assumption |].
      constructor; [lia |].
      eapply Forall_impl; [exact Hy |]. cbn. intros z Hz. lia.
    + rewrite (Hcmp y ltac:(left)) in Hgt.
      constructor.
      * apply IH; [| exact Hr]. intros z Hz. apply Hcmp. right. exact Hz.
      * rewrite insert_Permutation. constructor; [lia | exact Hy].
Qed.

Lemma Array_sort_sorted {A} (compare : A -> A -> Z) (key : A -> Z)
  (l : list A) :
  (forall x y, x ∈ l -> y ∈ l -> compare x y = (key y - key x)%Z) ->
  StronglySorted (fun a b => (key b <= key a)%Z) (Array_sort compare l).
Proof.
  induction l as [| x r IH]; intros Hcmp; cbn [Array_sort]; [constructor |].
  apply insert_sorted.
  - intros y Hy. apply Hcmp; [left |].
    right. rewrite <- (Array_sort_Permutation compare r). exact Hy.
  - apply IH. intros a b Ha Hb. apply Hcmp; right; assumption.
Qed.

Lemma StronglySorted_weaken {A} (R R' : A -> A -> Prop) (l : list A) :
  (forall a b, R a b -> R' a b) -> StronglySorted R l -> StronglySorted R' l.
Proof.
  intros Himpl. induction 1 as [| x r _ IH Hx]; constructor; [exact IH |].
  eapply Forall_impl; [exact Hx |]. cbn. intros y. apply Himpl.
Qed.

Lemma has_time_spec (e : TrackingEvent.t) :
  has_time e = true <->
  exists t, TrackingEvent.timestamp e = ValidDate t.
Proof.
  unfold has_time. destruct (TrackingEvent.timestamp e) as [t |]; cbn.
  - split; [eauto | reflexivity].
  - split; [discriminate | intros [t Ht]; discriminate].
Qed.

Lemma newest_first_valid (a b : TrackingEvent.t) :
  has_time a = true -> has_time b = true ->
  default 0%Z (newest_first a b)
  = (default 0%Z (getTime (TrackingEvent.timestamp b))
     - default 0%Z (getTime (TrackingEvent.timestamp a)))%Z.
Proof.
  rewrite !has_time_spec. intros [ta Ha] [tb Hb].
  unfold newest_first. rewrite Ha, Hb. reflexivity.
Qed.

(** X24. When every event has a valid timestamp, the Timeline's sorted
    events are the given events rearranged, newest first, and events with
    the same timestamp keep the order they came in.  No result is given
    only when some timestamp is invalid. *)
Theorem sortedEvents_newest_first (events : list TrackingEvent.t) :
  match sortedEvents events with
  | Some sorted =>
      Forall (fun e => exists t, TrackingEvent.timestamp e = ValidDate t)
        events /\
      sorted ≡ₚ events /\
      StronglySorted
        (fun a b => forall ta tb,
           TrackingEvent.timestamp a = ValidDate ta ->
           TrackingEvent.timestamp b = ValidDate tb -> (tb <= ta)%Z)
        sorted /\
      (forall t,
         List.filter
           (fun e => bool_decide (getTime (TrackingEvent.timestamp e) = Some t))
           sorted
         = List.filter
             (fun e => bool_decide (getTime (TrackingEvent.timestamp e) = Some t))
             events)
  | None =>
      Exists (fun e => TrackingEvent.timestamp e = InvalidDate) events
  end.
Proof.
  unfold sortedEvents.
  destruct (forallb has_time events) eqn:Hvalid.
  - rewrite forallb_forall in Hvalid.
    assert (Hcmp : forall x y, x ∈ events -> y ∈ events ->
      default 0%Z (newest_first x y)
      = (default 0%Z (getTime (TrackingEvent.timestamp y))
         - default 0%Z (getTime (TrackingEvent.timestamp x)))%Z).
    { intros x y Hx Hy. apply newest_first_valid; apply Hvalid;
        apply list_elem_of_In; assumption. }
    split; [| split; [apply Array_sort_Permutation | split]].
    + apply Forall_forall. intros e He. apply has_time_spec, Hvalid.
      apply list_elem_of_In, He.
    + eapply StronglySorted_weaken;
        [| apply (Array_sort_sorted _
                    (fun e => default 0%Z
                                (getTime (TrackingEvent.timestamp e))));
           exact Hcmp].
      cbn. intros a b Hab ta tb Ha Hb. rewrite Ha, Hb in Hab. exact Hab.
    + intros t. apply Array_sort_filter.
      intros x y Hx Hy Hpx Hpy.
      apply bool_decide_eq_true in Hpx, Hpy.
      rewrite (Hcmp x y Hx Hy), Hpx, Hpy. cbn. lia.
  - apply Exists_exists.
    assert (Hex : exists e, e ∈ events /\ has_time e = false).
    { clear -Hvalid. induction events as [| e r IH]; [discriminate |].
      cbn in Hvalid. destruct (has_time e) eqn:He.
      - destruct (IH Hvalid) as (x & Hx & Hfalse). exists x.
        split; [right; exact Hx | exact Hfalse].
      - exists e. split; [left | exact He]. }
    destruct Hex as (e & He & Hfalse). exists e.
    split; [exact He |]. unfold has_time in Hfalse.
    destruct (TrackingEvent.timestamp e); [discriminate | reflexivity].
Qed.

Lemma insert_oldest {A} (compare : A -> A -> Z) (x : A) (l : list A) :
  Forall (fun y => (0 < compare x y)%Z) l ->
  insert compare x l = (l ++ [x])%list.
Proof.
  induction 1 as [| y r Hy _ IH]; [reflexivity |].
  cbn [insert]. destruct (Z.leb_spec (compare x y) 0); [lia |].
  rewrite IH. reflexivity.
Qed.

(** X25. For a tracking whose events are stored oldest first with
    strictly increasing, valid timestamps, the Timeline shows them in
    reverse, and its first row is the event the TrackingCard shows as the
    latest one (the last of the array). *)
Theorem sortedEvents_of_chronological (tracking : Tracking.t) :
  StronglySorted
    (fun a b => exists ta tb,
       TrackingEvent.timestamp a = ValidDate ta /\
       TrackingEvent.timestamp b = ValidDate tb /\ (ta < tb)%Z)
    (Tracking.events tracking) ->
  Forall (fun e => exists t, TrackingEvent.timestamp e = ValidDate t)
    (Tracking.events tracking) ->
  sortedEvents (Tracking.events tracking)
  = Some (rev (Tracking.events tracking)) /\
  head (rev (Tracking.events tracking)) = latestEvent tracking.
Proof.
  unfold latestEvent. generalize (Tracking.events tracking).
  intros events Hsorted Hvalid. split.
  - unfold sortedEvents.
    assert (Hall : forallb has_time events = true).
    { apply forallb_forall. intros e He. apply has_time_spec.
      apply (proj1 (Forall_forall _ _) Hvalid). apply list_elem_of_In, He. }
    rewrite Hall. f_equal. clear Hall Hvalid.
    induction Hsorted as [| x r Hr IH Hx]; [reflexivity |].
    cbn [Array_sort rev]. rewrite IH. apply insert_oldest.
    apply Forall_forall. intros y Hy.
    rewrite list_elem_of_In, <- in_rev, <- list_elem_of_In in Hy.
    destruct (proj1 (Forall_forall _ _) Hx y Hy) as (ta & tb & Ha & Hb & Hlt).
    unfold newest_first. rewrite Ha, Hb. cbn. lia.
  - clear. rewrite <- (rev_involutive events) at 2.
    destruct (rev events) as [| e r]; [reflexivity |].
    cbn [rev head]. rewrite last_snoc. reflexivity.
Qed.

End ComponentFacts.

(* ===================================================================== *)
(** * Worked instances *)
(* ===================================================================== *)

Section ExtraWitnesses.
Import Samples.

Lemma saveTracking_then_getTrackingById_witness :
  let P := bangkok in
  let ls := @Storage.saveTracking P (@Storage.saveTracking P ∅ parcel1)
              parcel2 in
  exists v,
    @Repository.getTrackingById P (@Storage.saveTracking P ls parcel1_again)
      "id-7" = Some v /\
    Storage.value_to_Tracking v
    = Some (Storage.without_transitDays parcel1_again).
Proof.
  intros P ls.
  assert (Hold : Repository.ids (@Storage.getTrackings P ls)
                 = [VStr "id-1"; VStr "id-2"])
    by (vm_compute; reflexivity).
  apply (@saveTracking_then_getTrackingById P ls parcel1_again).
  - rewrite Hold. repeat constructor; eexists; reflexivity.
  - rewrite Hold, !not_elem_of_cons.
    split; [discriminate |]. split; [discriminate | apply not_elem_of_nil].
  - repeat constructor;
      (eexists; split; [reflexivity |]; split; vm_compute; reflexivity).
  - vm_compute. reflexivity.
  - vm_compute. reflexivity.
Defined.

Lemma deleteTracking_then_getTrackingById_witness :
  let P := bangkok in
  let ls := @Storage.saveTracking P (@Storage.saveTracking P ∅ parcel1)
              parcel2 in
  @Repository.getTrackingById P (@Repository.deleteTracking P ls "id-1") "id-1"
  = None /\
  Repository.ids
    (@Storage.getTrackings P (@Repository.deleteTracking P ls "id-1"))
  = [VStr "id-2"].
Proof.
  intros P ls.
  assert (Hold : Repository.ids (@Storage.getTrackings P ls)
                 = [VStr "id-1"; VStr "id-2"])
    by (vm_compute; reflexivity).
  destruct (@deleteTracking_then_getTrackingById P ls "id-1")
    as [Hnone Hids].
  - rewrite Hold. repeat constructor; eexists; reflexivity.
  - vm_compute. reflexivity.
  - vm_compute. reflexivity.
  - split; [exact Hnone |]. rewrite Hids, Hold. reflexivity.
Defined.

Lemma updateTracking_then_getTrackingById_witness :
  let P := bangkok in
  let ls := @Storage.saveTracking P (@Storage.saveTracking P ∅ parcel1)
              parcel2 in
  let refreshed := parcel "id-2" "TH0002" kerry delivered (Some 4%float)
                     jan31_late in
  exists ls' v,
    @Repository.updateTracking P ls refreshed = Track123.Ok ls' /\
    @Repository.getTrackingById P ls' "id-2" = Some v /\
    Storage.value_to_Tracking v
    = Some (Storage.without_transitDays refreshed) /\
    Repository.ids (@Storage.getTrackings P ls')
    = [VStr "id-1"; VStr "id-2"].
Proof.
  intros P ls refreshed.
  assert (Hold : Repository.ids (@Storage.getTrackings P ls)
                 = [VStr "id-1"; VStr "id-2"])
    by (vm_compute; reflexivity).
  destruct (@updateTracking_then_getTrackingById P ls refreshed)
    as (ls' & v & Hrun & Hfind & Hview & Hids).
  - rewrite Hold. apply elem_of_cons. right. apply elem_of_cons. left.
    reflexivity.
  - rewrite Hold. repeat constructor; eexists; reflexivity.
  - repeat constructor;
      (eexists; split; [reflexivity |]; split; vm_compute; reflexivity).
  - vm_compute. reflexivity.
  - vm_compute. reflexivity.
  - exists ls', v. rewrite <- Hold. auto.
Defined.

Lemma getTotalPackagesThisMonth_current_month_witness :
  @AnalyticsService.getTotalPackagesThisMonth bangkok
    [parcel1; parcel4; parcel6; parcel3] jan22 = 3.
Proof.
  rewrite (@getTotalPackagesThisMonth_current_month bangkok _ jan22 2026 0)
    by (vm_compute; reflexivity).
  vm_compute. reflexivity.
Defined.

Lemma getCourierDistribution_reordered_witness :
  map (fun d => (CourierDistribution.carrierCode d,
                 CourierDistribution.count d,
                 CourierDistribution.percentage d))
      (Analytics.getCourierDistribution [parcel1; parcel3; parcel2])
  ≡ₚ
  map (fun d => (CourierDistribution.carrierCode d,
                 CourierDistribution.count d,
                 CourierDistribution.percentage d))
      (Analytics.getCourierDistribution [parcel3; parcel2; parcel1]).
Proof.
  apply getCourierDistribution_reordered.
  exact (Permutation_cons_append [parcel3; parcel2] parcel1).
Defined.

Lemma getTrackings_one_per_entry_witness :
  fst (@Track123.getTrackings bangkok knows ["TH0001"] start)
  = Track123.Ok [@Track123.mapToTracking_with bangkok (uuid 0) jan22 TH0001].
Proof.
  destruct (@getTrackings_one_per_entry bangkok knows ["TH0001"] start 200
              (Track123.BaseResponse.mk "00000" None
                 (Some (Track123.QueryResponseData.mk
                          (Some (Track123.Accepted.mk (Some [TH0001]))))))
              [TH0001] eq_refl eq_refl eq_refl eq_refl) as [Hrun _].
  rewrite Hrun. reflexivity.
Defined.

Lemma instantTrack_errors_witness :
  fst (@Track123.getTrackings bangkok never_finds ["TH0001"] start)
  = Track123.Throw (Track123.mkError "Tracking info not found") \/
  Track123.mkError "Tracking info not found"
  = Track123.mkError "Tracking info not found".
Proof.
  apply (@instantTrack_errors bangkok never_finds "TH0001" None start).
  vm_compute. reflexivity.
Defined.

Lemma sortedEvents_of_chronological_witness :
  let picked_up := TrackingEvent.mk jan05 "Chiang Mai" "Picked up"
                     info_received in
  let tracking := Tracking.mk "id-8" "TH0008" "TH0008" kerry in_transit
                    [picked_up; arrived] None None jan05 jan22 in
  Components.sortedEvents (Tracking.events tracking)
  = Some [arrived; picked_up] /\
  Some arrived = Components.latestEvent tracking.
Proof.
  intros picked_up tracking.
  apply (sortedEvents_of_chronological tracking).
  - repeat constructor. eexists _, _.
    split; [reflexivity |]. split; [reflexivity |]. reflexivity.
  - repeat constructor; eexists; reflexivity.
Defined.

Lemma stored_distribution_has_no_average_witness :
  let P := bangkok in
  let ls := @Storage.saveTracking P (@Storage.saveTracking P ∅ parcel1)
              parcel2 in
  Forall (fun d => CourierDistribution.avgTransitDays d = None)
    (Analytics.getCourierDistribution
       [Storage.without_transitDays parcel1;
        Storage.without_transitDays parcel2]).
Proof.
  intros P ls.
  apply (@stored_distribution_has_no_average P ls).
  vm_compute. reflexivity.
Defined.

Lemma instantTrack_found_after_registration_witness :
  exists t w',
    @Track123.instantTrack bangkok finds_once_registered "TH0001"
      (Some "gift") start
    = (Track123.Ok t, w') /\
    Track123.trace w'
    = [Track123.query_event ["TH0001"]; Track123.import_event "TH0001";
       Track123.EvTimeout 500; Track123.query_event ["TH0001"]] /\
    Tracking.id t = "uuid-0" /\
    Tracking.trackingNumber t = "TH0001" /\
    Tracking.nickname t = "gift" /\
    Carrier.code (Tracking.carrier t) = "kerry" /\
    Carrier.name (Tracking.carrier t) = "Kerry Express" /\
    Tracking.status t = delivered /\
    length (Tracking.events t) = 1 /\
    Tracking.transitDays t = Some 2%float /\
    Tracking.createdAt t = jan22.
Proof.
  destruct (@instantTrack_found_after_registration bangkok
              finds_once_registered start "TH0001" (Some "gift") TH0001 [])
    as (t & w' & Hrun & Hnorm & _ & Htrace).
  - vm_compute. auto.
  - vm_compute. auto.
  - vm_compute. auto.
  - destruct Hnorm as (Hid & Hnumber & Hnick & (Hcode & Hname & _) & Hstatus
                       & Hevents & _ & Hdays & Hcreated & _).
    exists t, w'.
    split; [exact Hrun |]. split; [exact Htrace |].
    split; [exact Hid |]. split; [exact Hnumber |]. split; [exact Hnick |].
    split; [exact Hcode |]. split; [exact Hname |]. split; [exact Hstatus |].
    split; [symmetry; exact (Forall2_length _ _ _ Hevents) |].
    split; [exact Hdays | exact Hcreated].
Defined.

End ExtraWitnesses.
